(** * Case Claiming Engine: a shallow embedding of [appultimabackup.py]

    The development follows the source file top-down:
    - [Py]: the fragment of Python the engine relies on (strings, the
      Selenium exception hierarchy, [try]/[except] as a result type);
    - [AppLog]: [add_log] and the bounded list of log lines;
    - [Files]: [sanitize_filename];
    - [ActivityLog]: [LOG_COLUMNS_DEFINITION], [get_case_log_df] and
      [append_to_case_log] over a model of the workbook on disk;
    - [TaskBoard]: [extract_field_data] over a model of a board row;
    - [Claimer]: [find_and_claim_cases] and [run_claimer_loop];
    - [Observer]: the Dash callbacks that share state with the worker;
    - [Reports]: the leaderboard loops of [update_sidebar_reports].

    Definitions come first, the properties of each component after. *)

From Stdlib Require Import ZArith String Ascii List Bool Lia Permutation.
From stdpp Require Import base option list gmap strings fin_maps pretty.

Local Open Scope string_scope.
Local Open Scope list_scope.
#[local] Set Warnings "-clear-no-such-hyp,-register-all".

(** ** The Python fragment *)
Module Py.

(** *** Strings.  A string is the sequence of its UTF-8 bytes.  Case
    mapping is that of the ASCII range, which is all the engine's
    keywords use; white space is that of [str.isspace], read off the
    bytes. *)

Definition is_lower (c : ascii) : bool :=
  (97 <=? nat_of_ascii c)%nat && (nat_of_ascii c <=? 122)%nat.

Definition is_upper (c : ascii) : bool :=
  (65 <=? nat_of_ascii c)%nat && (nat_of_ascii c <=? 90)%nat.

Definition upper_char (c : ascii) : ascii :=
  if is_lower c then ascii_of_nat (nat_of_ascii c - 32) else c.

Definition lower_char (c : ascii) : ascii :=
  if is_upper c then ascii_of_nat (nat_of_ascii c + 32) else c.

(** [s.upper()] and [s.lower()] *)
Fixpoint upper (s : string) : string :=
  match s with
  | EmptyString => EmptyString
  | String c t => String (upper_char c) (upper t)
  end.

Fixpoint lower (s : string) : string :=
  match s with
  | EmptyString => EmptyString
  | String c t => String (lower_char c) (lower t)
  end.

(** [needle in hay] *)
Fixpoint contains (needle hay : string) : bool :=
  String.prefix needle hay ||
  match hay with
  | EmptyString => false
  | String _ t => contains needle t
  end.

(** [any(kw in s for kw in kws)] *)
Definition any_in (kws : list string) (s : string) : bool :=
  existsb (fun kw => contains kw s) kws.

(** [str.isspace] on a character of one byte: TAB..CR, FS..US and the
    blank *)
Definition is_space (c : ascii) : bool :=
  let n := nat_of_ascii c in
  ((9 <=? n)%nat && (n <=? 13)%nat) || ((28 <=? n)%nat && (n <=? 32)%nat).

(** on a character of two bytes: U+0085 and U+00A0 *)
Definition is_space2 (a b : ascii) : bool :=
  (nat_of_ascii a =? 194)%nat
  && ((nat_of_ascii b =? 133)%nat || (nat_of_ascii b =? 160)%nat).

(** on a character of three bytes: U+1680, U+2000..U+200A, U+2028,
    U+2029, U+202F, U+205F and U+3000 *)
Definition is_space3 (a b c : ascii) : bool :=
  let '(a, b, c) := (nat_of_ascii a, nat_of_ascii b, nat_of_ascii c) in
  ((a =? 225) && (b =? 154) && (c =? 128))%nat
  || ((a =? 226) && (b =? 128)
      && (((128 <=? c) && (c <=? 138)) || (c =? 168) || (c =? 169) || (c =? 175)))%nat
  || ((a =? 226) && (b =? 129) && (c =? 159))%nat
  || ((a =? 227) && (b =? 128) && (c =? 128))%nat.

(** the string is one white-space character *)
Definition is_space_char (s : string) : bool :=
  match s with
  | String a EmptyString => is_space a
  | String a (String b EmptyString) => is_space2 a b
  | String a (String b (String c EmptyString)) => is_space3 a b c
  | _ => false
  end.

Fixpoint lstrip (s : string) : string :=
  match s with
  | EmptyString => EmptyString
  | String a t =>
      if is_space a then lstrip t
      else
        match t with
        | EmptyString => s
        | String b t' =>
            if is_space2 a b then lstrip t'
            else
              match t' with
              | EmptyString => s
              | String c t'' => if is_space3 a b c then lstrip t'' else s
              end
        end
  end.

(** the characters of [s] up to its last one that is no white space:
    what is kept of the rest is put behind the first byte, and dropped
    with it when the two make up one white-space character *)
Fixpoint rstrip (s : string) : string :=
  match s with
  | EmptyString => EmptyString
  | String c t =>
      let kept := String c (rstrip t) in
      if is_space_char kept then EmptyString else kept
  end.

(** [s.strip()] *)
Definition strip (s : string) : string := rstrip (lstrip s).

(** truthiness of a string: [if s:] *)
Definition truthy (s : string) : bool :=
  match s with EmptyString => false | _ => true end.

(** *** Exceptions.  The classes the engine names in its [except]
    clauses.  Every Selenium exception derives from
    [WebDriverException]; [OtherException] stands for any exception
    outside that hierarchy. *)
Inductive exn : Type :=
| NoSuchElementException
| StaleElementReferenceException
| TimeoutException
| ElementClickInterceptedException
| InvalidSelectorException
| WebDriverException
| OtherException.

(** [isinstance(e, WebDriverException)] *)
Definition isinstance_WebDriverException (e : exn) : bool :=
  match e with
  | OtherException => false
  | _ => true
  end.

#[global] Instance exn_eq_dec : EqDecision exn.
Proof. solve_decision. Defined.

(** The outcome of a call that may raise. *)
Inductive result (A : Type) : Type :=
| Ok (a : A)
| Raise (e : exn).
Arguments Ok {A} a.
Arguments Raise {A} e.

Definition bind {A B} (r : result A) (k : A -> result B) : result B :=
  match r with
  | Ok a => k a
  | Raise e => Raise e
  end.

(** *** Values held by the dictionaries and table cells of the program. *)
Record scraped_files := {
  excel_bytes : option string;
  excel_name : option string;
  zip_bytes : option string;
  zip_name : option string
}.

Inductive pyval : Type :=
| PyNone
| NA                         (* pd.NA *)
| NaN                        (* float('nan'): a missing cell read from a file *)
| Str (s : string)
| Num (micro : Z)            (* a number of seconds, in microseconds *)
| Files (f : scraped_files).

#[global] Instance scraped_files_eq_dec : EqDecision scraped_files.
Proof. solve_decision. Defined.

#[global] Instance pyval_eq_dec : EqDecision pyval.
Proof. solve_decision. Defined.

End Py.

#[global] Instance result_ret : MRet Py.result := fun A a => Py.Ok a.
#[global] Instance result_bind : MBind Py.result := fun A B k r => Py.bind r k.


(** ** The application log ([add_log]) *)
Module AppLog.

(** [levels.get(level, "INFO")] *)
Definition level_prefix (level : string) : string :=
  if String.eqb level "info" then "ℹ️ INFO"
  else if String.eqb level "warning" then "⚠️ WARN"
  else if String.eqb level "error" then "❌ ERROR"
  else if String.eqb level "success" then "✅ OK"
  else if String.eqb level "debug" then "🐞 DEBUG"
  else "INFO".

Definition max_log_lines : nat := 300.

(** the line [f"[{timestamp} {prefix}] {message}"]; [timestamp] is
    [time.strftime("%H:%M:%S")] *)
Definition log_entry (timestamp message level : string) : string :=
  "[" +:+ timestamp +:+ " " +:+ level_prefix level +:+ "] " +:+ message.

(** [add_log(message, level)] on [app_log_messages]: the line is
    appended and the list cut to its last [max_log_lines] lines; the
    [print] that follows does not touch the list *)
Definition add_log (timestamp message level : string)
    (app_log_messages : list string) : list string :=
  let app_log_messages := app_log_messages ++ [log_entry timestamp message level] in
  if (max_log_lines <? length app_log_messages)%nat
  then drop (length app_log_messages - max_log_lines) app_log_messages
  else app_log_messages.

(** a call of [add_log]: the clock reading, the message and the level *)
Record call := { at_time : string; message : string; level : string }.

(** calls made one after the other *)
Definition add_logs (calls : list call) (app_log_messages : list string)
  : list string :=
  foldl (fun l c => add_log (at_time c) (message c) (level c) l)
        app_log_messages calls.

End AppLog.

(** ** File names ([sanitize_filename]) *)
Module Files.
Import Py.

(** Characters are bytes, as in [Py].  The patterns of
    [sanitize_filename] name ASCII characters only, and a run of
    characters outside ASCII is a run of bytes outside the safe class,
    so the name part is treated byte by byte as the source treats it
    character by character. *)

(** the class of the first pattern: backslash, slash, asterisk,
    question mark, colon, double quote (character 34), the angle
    brackets and the bar *)
Definition is_reserved (c : ascii) : bool :=
  existsb (Ascii.eqb c)
          ["\"%char; "/"%char; "*"%char; "?"%char; ":"%char; ascii_of_nat 34;
           "<"%char; ">"%char; "|"%char].

Definition is_digit (c : ascii) : bool :=
  (48 <=? nat_of_ascii c)%nat && (nat_of_ascii c <=? 57)%nat.

(** the class [[A-Za-z0-9_.-]] that the last pattern negates *)
Definition is_safe (c : ascii) : bool :=
  is_upper c || is_lower c || is_digit c
  || Ascii.eqb c "_"%char || Ascii.eqb c "."%char || Ascii.eqb c "-"%char.

(** the characters [strip('_ ')] removes *)
Definition is_padding (c : ascii) : bool :=
  Ascii.eqb c "_"%char || Ascii.eqb c " "%char.

(** [re.sub(r'[class]', "", s)] *)
Fixpoint remove (class : ascii -> bool) (s : string) : string :=
  match s with
  | EmptyString => EmptyString
  | String c t => if class c then remove class t else String c (remove class t)
  end.

(** [s.replace(a, b)] for single characters *)
Fixpoint replace_char (a b : ascii) (s : string) : string :=
  match s with
  | EmptyString => EmptyString
  | String c t => String (if Ascii.eqb c a then b else c) (replace_char a b t)
  end.

(** [re.sub(r'[class]+', r, s)]: every maximal run of characters of the
    class becomes one [r]; [in_run] tells that the character before
    belonged to the run being replaced *)
Fixpoint sub_runs (class : ascii -> bool) (r : ascii) (in_run : bool) (s : string)
  : string :=
  match s with
  | EmptyString => EmptyString
  | String c t =>
      if class c then
        if in_run then sub_runs class r true t
        else String r (sub_runs class r true t)
      else String c (sub_runs class r false t)
  end.

(** [s[:n]] *)
Fixpoint take_str (n : nat) (s : string) : string :=
  match n, s with
  | S n', String c t => String c (take_str n' t)
  | _, _ => EmptyString
  end.

(** [s.strip(chars)] *)
Fixpoint lstrip_chars (chars : ascii -> bool) (s : string) : string :=
  match s with
  | EmptyString => EmptyString
  | String c t => if chars c then lstrip_chars chars t else s
  end.

Fixpoint rstrip_chars (chars : ascii -> bool) (s : string) : string :=
  match s with
  | EmptyString => EmptyString
  | String c t =>
      match rstrip_chars chars t with
      | EmptyString => if chars c then EmptyString else String c EmptyString
      | t' => String c t'
      end
  end.

Definition strip_chars (chars : ascii -> bool) (s : string) : string :=
  rstrip_chars chars (lstrip_chars chars s).

(** the name part, from [re.sub] to [strip] *)
Definition clean_name_part (name_part : string) : string :=
  let name := remove is_reserved name_part in
  let name := replace_char " "%char "_"%char name in
  let name := sub_runs (fun c => Ascii.eqb c "_"%char) "_"%char false name in
  let name := sub_runs (fun c => negb (is_safe c)) "_"%char false name in
  strip_chars is_padding (take_str 100 name).

Section SplitExt.
(** [os.path.splitext], which depends on the platform's separators *)
Variable splitext : string -> string * string.

(** [sanitize_filename(name)]; [None] is Python's [None] *)
Definition sanitize_filename (name : option string) : string :=
  let name := match name with Some s => s | None => "" end in
  let '(name_part, ext_part) := splitext name in
  let name := clean_name_part name_part in
  if truthy ext_part then name +:+ lower ext_part else name.
End SplitExt.

End Files.
(** ** The Activity Log ([LOG_COLUMNS_DEFINITION], [get_case_log_df],
    [append_to_case_log]) *)
Module ActivityLog.
Import Py.

Definition LOG_COLUMNS_DEFINITION : list string :=
  [ "Date"; "Observed Timestamp"; "Claimed Timestamp"; "Finished Timestamp";
    "Duration (seconds)"; "Duration (HH:MM:SS)"; "Case Display ID"; "Country";
    "Assigned User"; "Status (Observed)"; "Account Name"; "Case Title";
    "Menu Link" ].

(** A pandas frame: the column labels in order, and the rows, each
    addressed by column label as [row[col]] is in the source. *)
Record DataFrame := {
  columns : list string;
  rows : list (gmap string pyval)
}.

(** [pd.DataFrame(columns=cols)] *)
Definition empty_frame (cols : list string) : DataFrame :=
  {| columns := cols; rows := [] |}.

(** [pd.DataFrame([d])]: one row, one column per key of [d] *)
Definition frame_of_dict (d : gmap string pyval) : DataFrame :=
  {| columns := (map_to_list d).*1; rows := [d] |}.

(** [col in df.columns] *)
Definition has_column (col : string) (df : DataFrame) : bool :=
  bool_decide (col ∈ columns df).

(** [df[col] = v]: the column is added at the end when it is new, and
    every row takes [v] in it *)
Definition set_column (col : string) (v : pyval) (df : DataFrame) : DataFrame :=
  {| columns := if has_column col df then columns df else columns df ++ [col];
     rows := (fun r => <[col := v]> r) <$> rows df |}.

(** a row seen through the labels [cols]; a cell the row lacks reads as NA *)
Definition reindex (cols : list string) (r : gmap string pyval) : gmap string pyval :=
  list_to_map ((fun c => (c, default NA (r !! c))) <$> cols).

(** [df[cols]]: a [KeyError] when a label is not a column of [df] *)
Definition select (cols : list string) (df : DataFrame) : result DataFrame :=
  if forallb (fun c => has_column c df) cols
  then Ok {| columns := cols; rows := reindex cols <$> rows df |}
  else Raise OtherException.

(** [pd.concat([a, b], ignore_index=True)]: the labels of [a], then
    those only [b] has; the rows of [a], then the rows of [b] *)
Definition concat (a b : DataFrame) : DataFrame :=
  let cols := columns a ++ filter (fun c => c ∉ columns a) (columns b) in
  {| columns := cols; rows := reindex cols <$> (rows a ++ rows b) |}.

(** [df.empty] *)
Definition is_empty (df : DataFrame) : bool :=
  match rows df, columns df with
  | [], _ | _, [] => true
  | _, _ => false
  end.

(** The workbook at [CASE_LOG_FILE] holds the frame [to_excel] was
    handed.  A file that is not a workbook makes [read_excel] raise,
    and a read-only location makes [to_excel] raise. *)
Inductive file : Type :=
| Workbook (df : DataFrame)
| Garbage.

Record disk := {
  CASE_LOG_FILE : option file;
  writable : bool
}.

(** The texts [pd.read_excel] takes for a missing value when it is
    called, as at l.208, without [na_values] and [keep_default_na]
    ([STR_NA_VALUES] of pandas). *)
Definition STR_NA_VALUES : list string :=
  [ "-1.#IND"; "1.#QNAN"; "1.#IND"; "-1.#QNAN"; "#N/A N/A"; "#N/A"; "N/A"; "n/a";
    "NA"; "<NA>"; "#NA"; "NULL"; "null"; "NaN"; "-NaN"; "nan"; "-nan"; "None"; "" ].

(** a cell as it is read back: an empty cell, which is what [None],
    [pd.NA] and NaN are stored as, and a text of [STR_NA_VALUES] come
    back as NaN; numbers and the other texts come back as stored (the
    re-typing of a whole column of numerals is left out) *)
Definition read_cell (v : pyval) : pyval :=
  match v with
  | PyNone | NA | NaN => NaN
  | Str s => if bool_decide (s ∈ STR_NA_VALUES) then NaN else Str s
  | Num _ | Files _ => v
  end.

(** a row of the sheet: one cell for every column of the header *)
Definition sheet_row (cols : list string) (r : gmap string pyval) : gmap string pyval :=
  read_cell <$> reindex cols r.

Definition read_sheet (df : DataFrame) : DataFrame :=
  {| columns := columns df; rows := sheet_row (columns df) <$> rows df |}.

Definition read_excel (f : file) : result DataFrame :=
  match f with
  | Workbook df => Ok (read_sheet df)
  | Garbage => Raise OtherException
  end.

Definition to_excel (df : DataFrame) (d : disk) : result disk :=
  if writable d
  then Ok {| CASE_LOG_FILE := Some (Workbook df); writable := true |}
  else Raise OtherException.

(** the loop [for col in LOG_COLUMNS_DEFINITION: if col not in
    df.columns: df[col] = pd.NA] *)
Definition add_missing_columns (df : DataFrame) : DataFrame :=
  foldl (fun df col => if has_column col df then df else set_column col NA df)
        df LOG_COLUMNS_DEFINITION.

Definition get_case_log_df_body (d : disk) : result (DataFrame * disk) :=
  match CASE_LOG_FILE d with
  | Some f =>
      df ← read_excel f;
      df ← select LOG_COLUMNS_DEFINITION (add_missing_columns df);
      mret (df, d)
  | None =>
      let df := empty_frame LOG_COLUMNS_DEFINITION in
      d' ← to_excel df d;
      mret (df, d')
  end.

(** [get_case_log_df()]: the frame returned and the disk afterwards *)
Definition get_case_log_df (d : disk) : DataFrame * disk :=
  match get_case_log_df_body d with
  | Ok r => r
  | Raise _ => (empty_frame LOG_COLUMNS_DEFINITION, d)
  end.

(** the loop of [append_to_case_log] over both frames *)
Definition add_missing_columns2 (new_entry_df df_log : DataFrame)
  : DataFrame * DataFrame :=
  foldl (fun '(n, l) col =>
           (if has_column col n then n else set_column col NA n,
            if has_column col l then l else set_column col NA l))
        (new_entry_df, df_log) LOG_COLUMNS_DEFINITION.

Definition append_to_case_log_body (log_entry_dict : gmap string pyval)
    (df_log : DataFrame) (d : disk) : result disk :=
  let new_entry_df := frame_of_dict log_entry_dict in
  let '(new_entry_df, df_log) := add_missing_columns2 new_entry_df df_log in
  new_entry_df ← select LOG_COLUMNS_DEFINITION new_entry_df;
  df_log ← select LOG_COLUMNS_DEFINITION df_log;
  to_excel (concat df_log new_entry_df) d.

(** [append_to_case_log(log_entry_dict)]: [True]/[False] and the disk
    afterwards *)
Definition append_to_case_log (log_entry_dict : gmap string pyval) (d : disk)
  : bool * disk :=
  let '(df_log, d1) := get_case_log_df d in
  match append_to_case_log_body log_entry_dict df_log d1 with
  | Ok d2 => (true, d2)
  | Raise _ => (false, d1)
  end.

(** the table a reader of the log obtains *)
Definition get_all (d : disk) : DataFrame := (get_case_log_df d).1.

End ActivityLog.

(** ** The Task Board Session: rows of the remote page and
    [extract_field_data] *)
Module TaskBoard.
Import Py.

(** A Selenium [WebElement], as far as the engine looks at it: the
    elements an XPath query finds below it, its visible text and its
    [id] attribute.  Every access goes to the remote session and may
    raise. *)
Inductive element : Type :=
  Element {
    find_elements : string -> result (list element);
    text : result string;
    get_attribute_id : result (option string)
  }.

(** what [extract_field_data] is handed as [row_element] *)
Inductive row_handle : Type :=
| NotAWebElement
| WebElement (w : element).

Definition column_div_xpath (column_name : string) : string :=
  ".//div[@data-testonly-column='" +:+ column_name +:+ "']".

Definition TEXT_SPAN : string := "//span[@data-testid='text-type-display-span']".
Definition EMAIL_SPAN : string := "//span[@data-testid='email-type-display-span']".
Definition URL_SPAN : string := "//span[contains(@class, 'UrlTypeDisplay__text')]".
Definition DATE_TIME_SPAN : string :=
  "//span[@data-testid='date-time-type-display-span']".

(** the body of the [try] of [extract_field_data] *)
Definition extract_field_data_try (w : element)
    (column_name span_sub_xpath default_value : string) : result string :=
  column_divs ← find_elements w (column_div_xpath column_name);
  match column_divs with
  | [] => Ok default_value
  | column_div :: _ =>
      target_elements ← find_elements column_div ("." +:+ span_sub_xpath);
      match target_elements with
      | [] => Ok default_value
      | target_element :: _ =>
          raw_text ← text target_element;
          let stripped_text := if truthy raw_text then strip raw_text else "" in
          Ok (if truthy stripped_text then stripped_text else default_value)
      end
  end.

(** [extract_field_data(row_element, column_name, span_sub_xpath,
    default_value)].  The [except] clauses are tried in the order of
    the source; an exception leaves [field_text] at the default. *)
Definition extract_field_data (row_element : row_handle)
    (column_name span_sub_xpath default_value : string) : result string :=
  match row_element with
  | NotAWebElement => Ok default_value
  | WebElement w =>
      match extract_field_data_try w column_name span_sub_xpath default_value with
      | Ok field_text => Ok field_text
      | Raise NoSuchElementException => Ok default_value
      | Raise StaleElementReferenceException => Raise StaleElementReferenceException
      | Raise e =>
          if isinstance_WebDriverException e then Raise e else Ok default_value
      end
  end.

(** the call with both defaults, [extract_field_data(row, name)] *)
Definition extract_field (row_element : row_handle) (column_name : string)
  : result string :=
  extract_field_data row_element column_name TEXT_SPAN "Not Specified".

(** *** What a row shows for a column.  These relations describe the
    page, not the function: which text the first span of the first
    column cell carries, and which access on the way to it fails. *)
Section Observations.
Variables (w : element) (column_name span_sub_xpath : string).

(** the column cell or its span is missing, or its text is blank *)
Inductive field_absent_or_empty : Prop :=
| no_column_div :
    find_elements w (column_div_xpath column_name) = Ok [] ->
    field_absent_or_empty
| no_span column_div rest :
    find_elements w (column_div_xpath column_name) = Ok (column_div :: rest) ->
    find_elements column_div ("." +:+ span_sub_xpath) = Ok [] ->
    field_absent_or_empty
| blank_text column_div rest target rest' raw_text :
    find_elements w (column_div_xpath column_name) = Ok (column_div :: rest) ->
    find_elements column_div ("." +:+ span_sub_xpath) = Ok (target :: rest') ->
    text target = Ok raw_text ->
    strip raw_text = "" ->
    field_absent_or_empty.

(** the span carries [raw_text], which is not blank *)
Inductive field_shows (raw_text : string) : Prop :=
| shows_text column_div rest target rest' :
    find_elements w (column_div_xpath column_name) = Ok (column_div :: rest) ->
    find_elements column_div ("." +:+ span_sub_xpath) = Ok (target :: rest') ->
    text target = Ok raw_text ->
    strip raw_text <> "" ->
    field_shows raw_text.

(** an access made while reading the field raises [e] *)
Inductive field_raises (e : exn) : Prop :=
| column_lookup_raises :
    find_elements w (column_div_xpath column_name) = Raise e ->
    field_raises e
| span_lookup_raises column_div rest :
    find_elements w (column_div_xpath column_name) = Ok (column_div :: rest) ->
    find_elements column_div ("." +:+ span_sub_xpath) = Raise e ->
    field_raises e
| text_raises column_div rest target rest' :
    find_elements w (column_div_xpath column_name) = Ok (column_div :: rest) ->
    find_elements column_div ("." +:+ span_sub_xpath) = Ok (target :: rest') ->
    text target = Raise e ->
    field_raises e.
End Observations.

End TaskBoard.

(** ** The state shared by the worker thread and the Dash callbacks *)
Module Shared.
Import Py ActivityLog.

(** a message of [data_queue_claimer]:
    [{"status": ..., "claimed_case_data": ...}] *)
Record message := {
  q_status : string;
  claimed_data_in_q : option (gmap string pyval)
}.

(** The module-level globals, and the disk the log lives on.  The two
    case stores are never bound to the same dictionary: each holds its
    own initial literal or the dictionary of one successful claim, which
    its "country" entry sends to one store only; they are kept as two
    values. *)
Record shared := {
  data_queue_claimer : list message;                (* oldest first *)
  stop_event_claimer : bool;
  active_portugal_case_store : gmap string pyval;
  active_ghana_case_store : gmap string pyval;
  monitoring_active_flag : bool;
  claimer_status_message : string;
  disk_state : disk
}.

(** the values the globals are created with *)
Definition initial (d : disk) : shared :=
  {| data_queue_claimer := [];
     stop_event_claimer := false;
     active_portugal_case_store := ∅;
     active_ghana_case_store := ∅;
     monitoring_active_flag := false;
     claimer_status_message := "Idle. Press Start Monitoring.";
     disk_state := d |}.

Definition set_queue q (s : shared) : shared :=
  {| data_queue_claimer := q;
     stop_event_claimer := stop_event_claimer s;
     active_portugal_case_store := active_portugal_case_store s;
     active_ghana_case_store := active_ghana_case_store s;
     monitoring_active_flag := monitoring_active_flag s;
     claimer_status_message := claimer_status_message s;
     disk_state := disk_state s |}.

Definition set_stop b (s : shared) : shared :=
  {| data_queue_claimer := data_queue_claimer s;
     stop_event_claimer := b;
     active_portugal_case_store := active_portugal_case_store s;
     active_ghana_case_store := active_ghana_case_store s;
     monitoring_active_flag := monitoring_active_flag s;
     claimer_status_message := claimer_status_message s;
     disk_state := disk_state s |}.

Definition set_portugal m (s : shared) : shared :=
  {| data_queue_claimer := data_queue_claimer s;
     stop_event_claimer := stop_event_claimer s;
     active_portugal_case_store := m;
     active_ghana_case_store := active_ghana_case_store s;
     monitoring_active_flag := monitoring_active_flag s;
     claimer_status_message := claimer_status_message s;
     disk_state := disk_state s |}.

Definition set_ghana m (s : shared) : shared :=
  {| data_queue_claimer := data_queue_claimer s;
     stop_event_claimer := stop_event_claimer s;
     active_portugal_case_store := active_portugal_case_store s;
     active_ghana_case_store := m;
     monitoring_active_flag := monitoring_active_flag s;
     claimer_status_message := claimer_status_message s;
     disk_state := disk_state s |}.

Definition set_monitoring b (s : shared) : shared :=
  {| data_queue_claimer := data_queue_claimer s;
     stop_event_claimer := stop_event_claimer s;
     active_portugal_case_store := active_portugal_case_store s;
     active_ghana_case_store := active_ghana_case_store s;
     monitoring_active_flag := b;
     claimer_status_message := claimer_status_message s;
     disk_state := disk_state s |}.

Definition set_status msg (s : shared) : shared :=
  {| data_queue_claimer := data_queue_claimer s;
     stop_event_claimer := stop_event_claimer s;
     active_portugal_case_store := active_portugal_case_store s;
     active_ghana_case_store := active_ghana_case_store s;
     monitoring_active_flag := monitoring_active_flag s;
     claimer_status_message := msg;
     disk_state := disk_state s |}.

Definition set_disk d (s : shared) : shared :=
  {| data_queue_claimer := data_queue_claimer s;
     stop_event_claimer := stop_event_claimer s;
     active_portugal_case_store := active_portugal_case_store s;
     active_ghana_case_store := active_ghana_case_store s;
     monitoring_active_flag := monitoring_active_flag s;
     claimer_status_message := claimer_status_message s;
     disk_state := d |}.

(** [data_q.put_nowait(m)]; the queue is unbounded, so it never is full *)
Definition put_nowait (m : message) (s : shared) : shared :=
  set_queue (data_queue_claimer s ++ [m]) s.

(** [bool(d)] of a dictionary *)
Definition dict_truthy (d : gmap string pyval) : bool :=
  negb (bool_decide (d = ∅)).

(** [d.get(k, default)] *)
Definition dict_get (d : gmap string pyval) (k : string) (dflt : pyval) : pyval :=
  default dflt (d !! k).

End Shared.

(** ** The observer: the Dash callbacks that write the shared state *)
Module Observer.
Import Py ActivityLog Shared.

Definition USER_DATA_DIR : string :=
  "C:\Users\2407850\AppData\Local\Google\Chrome\User Data".

(** [toggle_monitoring(n_clicks_toggle_claimer, ...)].  [isdir] is
    [os.path.isdir(USER_DATA_DIR)].  The second component tells whether
    a worker thread was started. *)
Definition toggle_monitoring (n_clicks_toggle_claimer : option nat) (isdir : bool)
    (s : shared) : shared * bool :=
  match n_clicks_toggle_claimer with
  | None | Some O => (s, false)
  | Some (S _) =>
      if monitoring_active_flag s then
        (set_status "Claimer: Stop requested... Awaiting thread termination."
           (set_stop true s), false)
      else if negb (truthy USER_DATA_DIR) || negb isdir
              || negb (contains "2407850" USER_DATA_DIR) then
        (set_status ("CRITICAL: USER_DATA_DIR ('" +:+ USER_DATA_DIR +:+
                     "') incorrect or not found. Please update the script.") s,
         false)
      else
        (set_status "Claimer: Starting..."
           (set_stop false
              (set_monitoring true
                 (set_queue [] (set_ghana ∅ (set_portugal ∅ s))))),
         true)
  end.

(** the statuses on which [update_active_cases_display] empties the slots *)
Definition CLEARING_STATUSES : list string :=
  ["DRIVER_INIT_FAIL"; "LOGIN_FAIL"; "THREAD_EXCEPTION"; "DRIVER_DEAD_PRE_CHECK";
   "DRIVER_DEAD"].

(** the body of the [while not data_queue_claimer.empty()] loop, for
    one message *)
Definition process_message (m : message) (s : shared) : shared :=
  let claimed := match claimed_data_in_q m with Some d => dict_truthy d | None => false end in
  if contains "CLAIM_SUCCESS" (q_status m) && claimed then
    match claimed_data_in_q m with
    | Some d =>
        match d !! "country" with
        | Some (Str country) =>
            if String.eqb country "Portugal" then set_portugal d s
            else if String.eqb country "Ghana" then set_ghana d s
            else s
        | _ => s
        end
    | None => s
    end
  else if bool_decide (q_status m ∈ CLEARING_STATUSES) then
    set_ghana ∅ (set_portugal ∅ s)
  else s.

(** [update_active_cases_display(...)], as far as it writes the shared
    state: the queue is drained, oldest message first *)
Definition update_active_cases_display (s : shared) : shared :=
  foldl (fun s m => process_message m s) (set_queue [] s) (data_queue_claimer s).

(** [format_duration(seconds)] on a number given in microseconds:
    [str(timedelta(seconds=int(seconds)))] *)
Definition two_digits (n : Z) : string :=
  if (n <? 10)%Z then "0" +:+ pretty n else pretty n.

Definition format_duration (seconds : pyval) : string :=
  match seconds with
  | Num micro =>
      if (micro <? 0)%Z then "N/A"
      else
        let s := (micro / 1000000)%Z in
        let days := (s / 86400)%Z in
        let rest := (s mod 86400)%Z in
        if (999999999 <? days)%Z then "N/A"
        else
          (if (days =? 0)%Z then ""
           else pretty days +:+ (if (days =? 1)%Z then " day, " else " days, "))
          +:+ pretty (rest / 3600)%Z +:+ ":" +:+ two_digits ((rest mod 3600) / 60)%Z
          +:+ ":" +:+ two_digits (rest mod 60)%Z
  | _ => "N/A"
  end.

(** The clock of one call of [finish_case_callback]: [datetime.now()]
    printed as a date and as a timestamp, and, for a claimed time that
    [strptime] parses, the microseconds elapsed since then ([None] is
    the [ValueError]). *)
Record clock := {
  today : string;
  now_timestamp : string;
  elapsed_since : string -> option Z
}.

(** [any(n_clicks_finish)] *)
Definition any_clicks (n_clicks_finish : list (option nat)) : bool :=
  existsb (fun n => match n with Some (S _) => true | _ => false end) n_clicks_finish.

(** the dictionary [log_entry_to_append] *)
Definition finished_entry (clk : clock) (case_to_finish_details : gmap string pyval)
    (calculated_duration_seconds : option Z) : gmap string pyval :=
  list_to_map
    [ ("Date", Str (today clk));
      ("Observed Timestamp", Str (now_timestamp clk));
      ("Claimed Timestamp", dict_get case_to_finish_details "claimed_time" NA);
      ("Finished Timestamp", Str (now_timestamp clk));
      ("Duration (seconds)",
        match calculated_duration_seconds with Some z => Num z | None => NA end);
      ("Duration (HH:MM:SS)",
        match calculated_duration_seconds with
        | Some z => Str (format_duration (Num z))
        | None => NA
        end);
      ("Case Display ID", dict_get case_to_finish_details "display_id" (Str "N/A"));
      ("Country", dict_get case_to_finish_details "country" (Str "N/A"));
      ("Assigned User", Str "BOT_CLAIMED");
      ("Status (Observed)", Str "Completed");
      ("Account Name", dict_get case_to_finish_details "account_name" (Str "N/A"));
      ("Case Title", dict_get case_to_finish_details "case_title" (Str "N/A"));
      ("Menu Link", dict_get case_to_finish_details "menu_link" (Str "N/A")) ].

(** the part of [finish_case_callback] after the slot has been emptied.
    A claimed time that is not text makes [strptime] raise a
    [TypeError], which nothing catches: the callback ends there. *)
Definition log_finished_case (clk : clock) (case_to_finish_details : gmap string pyval)
    (s : shared) : shared :=
  let append d :=
    set_disk (append_to_case_log
                (finished_entry clk case_to_finish_details d) (disk_state s)).2 s in
  match case_to_finish_details !! "claimed_time" with
  | None | Some PyNone => append None
  | Some (Str claimed_time) =>
      if truthy claimed_time then append (elapsed_since clk claimed_time)
      else append None
  | Some (Num z) => if (z =? 0)%Z then append None else s
  | Some _ => s
  end.

(** [finish_case_callback(n_clicks_finish)]; [triggered] is the index
    of the button in [ctx.triggered], if any *)
Definition finish_case_callback (triggered : option string)
    (n_clicks_finish : list (option nat)) (clk : clock) (s : shared) : shared :=
  match triggered with
  | None => s
  | Some country_index =>
      if negb (any_clicks n_clicks_finish) then s
      else if String.eqb country_index "pt" && dict_truthy (active_portugal_case_store s)
      then log_finished_case clk (active_portugal_case_store s) (set_portugal ∅ s)
      else if String.eqb country_index "gh" && dict_truthy (active_ghana_case_store s)
      then log_finished_case clk (active_ghana_case_store s) (set_ghana ∅ s)
      else s
  end.

(** What the observer can do while a worker runs. *)
Inductive action : Type :=
| ClickToggle                       (* the start/stop button *)
| PollQueue                         (* the interval of the active-cases view *)
| ClickFinish (country_index : string) (clk : clock).

Definition act (a : action) (s : shared) : shared :=
  match a with
  | ClickToggle => (toggle_monitoring (Some 1%nat) true s).1
  | PollQueue => update_active_cases_display s
  | ClickFinish country_index clk =>
      finish_case_callback (Some country_index) [Some 1%nat] clk s
  end.

Definition acts (l : list action) (s : shared) : shared :=
  foldl (fun s a => act a s) s l.

End Observer.

(** ** The Claim Coordinator: [find_and_claim_cases] *)
Module Claimer.
Import Py ActivityLog TaskBoard Shared.

Definition APPSHEET_URL : string :=
  "https://www.appsheet.com/start/3a5110ed-bddf-4499-a905-803ec733f4c6#appName=TaskAllocationAppData-810076412&view=All%20Pending%20Tasks".

(** *** What the remote session does during one pass.  The engine only
    observes the board through calls that may raise; an environment
    fixes the outcome of each. *)

(** One turn of the scroll-and-visibility loop (l.1296-1326).  Whatever
    is raised inside the turn, also by [is_displayed()] in the
    [except TimeoutException] clause, is caught by one of the two
    handlers of the turn. *)
Inductive attempt_outcome : Type :=
| Shown                              (* the flag is set and the loop left *)
| NotShown                           (* the turn ends with the flag unset *)
| AttemptStale (refetch : result element)
                                     (* the row went stale; on the first turn it
                                        is located again *)
| AttemptFails.                      (* another exception, logged *)

(** The [try] block of a claim (l.1361-1414).  Either an action up to
    and including the click on "Start Task" raises, or the task is
    started: the snapshot is taken, the scrape runs, and the engine
    navigates back to the board. *)
Inductive claim_outcome : Type :=
| ClaimFails (e : exn)
| ClaimStarted (claimed_time : string) (scraped_data : option scraped_files)
               (navigate_home : result unit).

Record row_env := {
  observer_before : list Observer.action; (* what the observer does before the turn *)
  locate : result element;           (* WebDriverWait(driver, 7).until(presence...) *)
  first_attempt : attempt_outcome;
  second_attempt : attempt_outcome;
  claim_actions : claim_outcome;
  navigate_back : result unit;       (* driver.get(APPSHEET_URL) in an except clause *)
  date_now : string;                 (* datetime.now().strftime('%Y-%m-%d') *)
  timestamp_now : string             (* datetime.now().strftime('%Y-%m-%d %H:%M:%S') *)
}.

Record pass_env := {
  current_url : result string;       (* driver.current_url, l.1227 *)
  wait_for_rows : result unit;       (* WebDriverWait(...).until(presence_of_all...) *)
  all_rows_list : result (list row_env)
                                     (* driver.find_elements: one entry per row found;
                                        the rows are located again by position *)
}.

(** *** The trace of a pass: the three log lines that tell what was done
    to which row (l.1341, l.1350, l.1390); [index] is the position in
    [all_rows_list]. *)
Inductive step : Type :=
| RowScan (index : nat) (display_id country status user : string)
| PotentialClaim (index : nat) (slot display_id : string)
| ClaimSuccess (index : nat) (slot display_id : string).

(** *** The locals of a pass, with the shared state it runs in *)
Record pass_state := {
  current_pass_status : string;
  claimed_case_details_to_return : option (gmap string pyval);
  globals : shared;
  trace : list step
}.

Definition with_status (st : pass_state) (s : string) : pass_state :=
  {| current_pass_status := s;
     claimed_case_details_to_return := claimed_case_details_to_return st;
     globals := globals st; trace := trace st |}.

Definition with_claimed (st : pass_state) (d : gmap string pyval) : pass_state :=
  {| current_pass_status := current_pass_status st;
     claimed_case_details_to_return := Some d;
     globals := globals st; trace := trace st |}.

Definition with_globals (st : pass_state) (g : shared) : pass_state :=
  {| current_pass_status := current_pass_status st;
     claimed_case_details_to_return := claimed_case_details_to_return st;
     globals := g; trace := trace st |}.

Definition with_step (st : pass_state) (x : step) : pass_state :=
  {| current_pass_status := current_pass_status st;
     claimed_case_details_to_return := claimed_case_details_to_return st;
     globals := globals st; trace := trace st ++ [x] |}.

Inductive control : Type := Next | Break.

(** the scroll-and-visibility loop: the flag, and the row handle, which
    the first turn may replace; only locating the row again (l.1321)
    can raise out of the loop *)
Definition check_visible (a0 a1 : attempt_outcome) (row : element)
  : result (bool * element) :=
  let second (row : element) : result (bool * element) :=
    match a1 with
    | Shown => Ok (true, row)
    | NotShown | AttemptStale _ | AttemptFails => Ok (false, row)
    end in
  match a0 with
  | Shown => Ok (true, row)
  | NotShown | AttemptFails => second row
  | AttemptStale refetch => row' ← refetch; second row'
  end.

(** the fields read from every visible row (l.1332-1339) *)
Record row_fields := {
  main_task_id_val : string;
  row_id_attr_val : option string;
  display_id : string;
  status : string;
  country_from_row : string;
  user_email_on_row : string
}.

Definition read_row (i : nat) (row : element) : result row_fields :=
  main_task_id_val ← extract_field_data (WebElement row) "Main Task ID" TEXT_SPAN "";
  row_id_attr_val ← get_attribute_id row;
  let display_id :=
    if truthy main_task_id_val then main_task_id_val
    else match row_id_attr_val with
         | Some a => if truthy a then a
                     else "Row_Index_" +:+ pretty (i + 1)%nat +:+ "_NoID"
         | None => "Row_Index_" +:+ pretty (i + 1)%nat +:+ "_NoID"
         end in
  status ← extract_field_data (WebElement row) "Status" TEXT_SPAN "Status Not Specified";
  country_from_row ←
    extract_field_data (WebElement row) "Country" TEXT_SPAN "Country Not Specified";
  user_email_on_row ← extract_field_data (WebElement row) "Useremail" EMAIL_SPAN "N/A";
  Ok {| main_task_id_val := main_task_id_val; row_id_attr_val := row_id_attr_val;
        display_id := display_id; status := status;
        country_from_row := country_from_row;
        user_email_on_row := user_email_on_row |}.

(** the decision of l.1343-1347 *)
Definition claim_this_case_for_country_slot (f : row_fields)
    (active_pt_case_exists active_gh_case_exists : bool) : option string :=
  if String.eqb (country_from_row f) "Portugal" && String.eqb (status f) "Not Started"
     && negb active_pt_case_exists
  then Some "Portugal"
  else if String.eqb (country_from_row f) "Ghana" && String.eqb (status f) "Not Started"
          && negb active_gh_case_exists
  then Some "Ghana"
  else None.

(** the further fields read for a row about to be claimed (l.1352-1358) *)
Record claim_fields := {
  account_name : string;
  case_title : string;
  menu_link : string;
  dish_photos_link : string;
  menu_instructions : string;
  request_sent_date : string;
  created_by : string
}.

Definition read_claim_fields (row : element) : result claim_fields :=
  account_name ← extract_field_data (WebElement row) "Account Name" TEXT_SPAN "N/A";
  case_title ← extract_field_data (WebElement row) "Case Title" TEXT_SPAN "N/A";
  menu_link ← extract_field_data (WebElement row) "Menu link" URL_SPAN "N/A";
  dish_photos_link ←
    extract_field_data (WebElement row) "Dish Photos Link" URL_SPAN "N/A";
  menu_instructions ←
    extract_field_data (WebElement row) "Menu instructions" TEXT_SPAN "N/A";
  request_sent_date ←
    extract_field_data (WebElement row) "Menu Request Sent Date" DATE_TIME_SPAN "N/A";
  created_by ← extract_field_data (WebElement row) "Created By" TEXT_SPAN "N/A";
  Ok {| account_name := account_name; case_title := case_title;
        menu_link := menu_link; dish_photos_link := dish_photos_link;
        menu_instructions := menu_instructions;
        request_sent_date := request_sent_date; created_by := created_by |}.

Definition opt_str (o : option string) : pyval :=
  match o with Some s => Str s | None => PyNone end.

(** the snapshot [claimed_case_details_to_return] (l.1380-1389) *)
Definition claimed_case_details (f : row_fields) (cf : claim_fields)
    (slot claimed_time : string) : gmap string pyval :=
  list_to_map
    [ ("display_id", Str (display_id f));
      ("row_id_attr", opt_str (row_id_attr_val f));
      ("user_email", Str (user_email_on_row f));
      ("account_name", Str (account_name cf));
      ("case_title", Str (case_title cf));
      ("main_task_id", Str (main_task_id_val f));
      ("menu_link", Str (menu_link cf));
      ("dish_photos_link", Str (dish_photos_link cf));
      ("country", Str slot);
      ("status", Str ("In Progress (Claimed by Bot for " +:+ slot +:+ ")"));
      ("menu_instructions", Str (menu_instructions cf));
      ("request_sent_date", Str (request_sent_date cf));
      ("created_by", Str (created_by cf));
      ("claimed_time", Str claimed_time);
      ("scraped_files_data", PyNone) ].

Definition compatible_domains : list string :=
  ["glovoapp.com"; "ubereats.com"; "wolt.com"; "foodora.cz"].

(** [url_to_scrape_for_case] (l.1393-1398) *)
Definition url_to_scrape_for_case (cf : claim_fields) : option string :=
  let compatible link :=
    truthy link && negb (String.eqb link "N/A")
    && any_in compatible_domains (lower link) in
  if compatible (menu_link cf) then Some (menu_link cf)
  else if compatible (dish_photos_link cf) then Some (dish_photos_link cf)
  else None.

(** the two [except] clauses of the claim (l.1416-1433) *)
Definition claim_failed (e : exn) (env : row_env) (st : pass_state)
  : pass_state * control :=
  if isinstance_WebDriverException e then
    (with_status st "DRIVER_DEAD_CLAIM_PROC", Break)
  else
    match navigate_back env with
    | Ok _ => (st, Next)
    | Raise e' =>
        if isinstance_WebDriverException e'
        then (with_status st "DRIVER_DEAD_NAV_BACK_FAIL", Break)
        else (st, Next)
    end.

(** the claim of one row (l.1360-1433) *)
Definition attempt_claim (i : nat) (slot : string) (f : row_fields) (cf : claim_fields)
    (env : row_env) (st : pass_state) : pass_state * control :=
  match claim_actions env with
  | ClaimFails e => claim_failed e env st
  | ClaimStarted claimed_time scraped_data navigate_home =>
      let details := claimed_case_details f cf slot claimed_time in
      let details :=
        match url_to_scrape_for_case cf, scraped_data with
        | Some _, Some files => <["scraped_files_data" := Files files]> details
        | _, _ => details
        end in
      let st := with_step (with_claimed st details) (ClaimSuccess i slot (display_id f)) in
      let st := with_status st ("CLAIM_SUCCESS_" +:+ upper slot) in
      match navigate_home with
      | Ok _ => (st, Break)
      | Raise e => claim_failed e env st
      end
  end.

(** the entry logged for a colleague's row (l.1442-1457) *)
Definition colleague_log_entry (env : row_env) (f : row_fields)
    (account title link : string) : gmap string pyval :=
  list_to_map
    [ ("Date", Str (date_now env));
      ("Observed Timestamp", Str (timestamp_now env));
      ("Claimed Timestamp", NA);
      ("Finished Timestamp", NA);
      ("Duration (seconds)", NA);
      ("Duration (HH:MM:SS)", NA);
      ("Case Display ID", Str (display_id f));
      ("Country", Str (country_from_row f));
      ("Assigned User", Str (user_email_on_row f));
      ("Status (Observed)", Str (status f));
      ("Account Name", Str account);
      ("Case Title", Str title);
      ("Menu Link", Str link) ].

(** logging colleague activity (l.1436-1458) *)
Definition log_colleague (env : row_env) (row : element) (f : row_fields)
    (st : pass_state) : result pass_state :=
  let user := user_email_on_row f in
  if truthy user && negb (String.eqb user "N/A")
     && negb (contains (lower "BOT_CLAIMED") (lower user))
  then
    if bool_decide (lower (status f) ∈ ["inprogress"; "escalated"; "completed"])
    then
      account ← extract_field_data (WebElement row) "Account Name" TEXT_SPAN "N/A";
      title ← extract_field_data (WebElement row) "Case Title" TEXT_SPAN "N/A";
      link ← extract_field_data (WebElement row) "Menu link" URL_SPAN "N/A";
      let g := globals st in
      let d := (append_to_case_log (colleague_log_entry env f account title link)
                                   (disk_state g)).2 in
      Ok (with_globals st (set_disk d g))
    else Ok st
  else Ok st.

(** the [except] clauses of a row (l.1460-1471) *)
Definition row_failed (e : exn) (st : pass_state) : pass_state * control :=
  match e with
  | StaleElementReferenceException => (st, Next)
  | TimeoutException => (st, Next)
  | _ => if isinstance_WebDriverException e
         then (with_status st "DRIVER_DEAD_ROW_PROC", Break)
         else (st, Next)
  end.

Definition DEAD_IN_ROW : list string :=
  ["DRIVER_DEAD_CLAIM_PROC"; "DRIVER_DEAD_NAV_BACK_FAIL"; "DRIVER_DEAD_ROW_PROC"].

(** the end of a turn that fell through its [try] (l.1473) *)
Definition end_of_row (st : pass_state) : pass_state * control :=
  if bool_decide (current_pass_status st ∈ DEAD_IN_ROW) then (st, Break) else (st, Next).

(** the start of a turn: the row is located, checked for visibility and,
    when visible, read (l.1288-1339); [None] is the invisible row *)
Definition locate_and_read (i : nat) (env : row_env)
  : result (option (element * row_fields)) :=
  row ← locate env;
  vr ← check_visible (first_attempt env) (second_attempt env) row;
  if (vr.1 : bool) then f ← read_row i vr.2; Ok (Some (vr.2, f)) else Ok None.

(** one turn of the row loop (l.1280-1473) *)
Definition scan_row (i : nat) (env : row_env)
    (active_pt_case_exists active_gh_case_exists : bool) (st : pass_state)
  : pass_state * control :=
  let st := with_globals st (Observer.acts (observer_before env) (globals st)) in
  if stop_event_claimer (globals st) then (with_status st "STOPPED", Break)
  else
    let colleague (row : element) (f : row_fields) (st : pass_state) :=
      match log_colleague env row f st with
      | Ok st' => end_of_row st'
      | Raise e => row_failed e st
      end in
    match locate_and_read i env with
    | Raise e => row_failed e st
    | Ok None => (st, Next)
    | Ok (Some (row, f)) =>
        let st := with_step st (RowScan i (display_id f) (country_from_row f)
                                        (status f) (user_email_on_row f)) in
        match claim_this_case_for_country_slot f active_pt_case_exists
                                               active_gh_case_exists with
        | None => colleague row f st
        | Some slot =>
            let st := with_step st (PotentialClaim i slot (display_id f)) in
            match read_claim_fields row with
            | Raise e => row_failed e st
            | Ok cf =>
                match attempt_claim i slot f cf env st with
                | (st', Break) => (st', Break)
                | (st', Next) => colleague row f st'
                end
            end
        end
    end.

(** the row loop, from position [i] on *)
Fixpoint scan_rows (i : nat) (rows : list row_env)
    (active_pt_case_exists active_gh_case_exists : bool) (st : pass_state)
  : pass_state :=
  match rows with
  | [] => st
  | env :: rest =>
      match scan_row i env active_pt_case_exists active_gh_case_exists st with
      | (st', Break) => st'
      | (st', Next) =>
          scan_rows (S i) rest active_pt_case_exists active_gh_case_exists st'
      end
  end.

(** the outcome of a pass: the status returned, the shared state left,
    and the trace *)
Record pass_result := {
  returned : string;
  after : shared;
  steps : list step
}.

(** the message put on the queue at the end of a pass (l.1484-1493) *)
Definition finish_pass (st : pass_state) : pass_result :=
  {| returned := current_pass_status st;
     after := put_nowait {| q_status := current_pass_status st;
                            claimed_data_in_q := claimed_case_details_to_return st |}
                         (globals st);
     steps := trace st |}.

Definition return_early (status : string) (g : shared) : pass_result :=
  {| returned := status; after := g; steps := [] |}.

(** [find_and_claim_cases(driver, data_q, stop_event)]; [driver] is
    [None] or the session with its behaviour during the pass *)
Definition find_and_claim_cases (driver : option pass_env) (g : shared) : pass_result :=
  match driver with
  | None =>
      return_early "DRIVER_DEAD_PRE_CHECK"
        (put_nowait {| q_status := "DRIVER_DEAD_PRE_CHECK"; claimed_data_in_q := None |} g)
  | Some env =>
      let st0 := {| current_pass_status := "OK_NO_NEW_CLAIMABLE_SLOT_OR_CASE";
                    claimed_case_details_to_return := None;
                    globals := g; trace := [] |} in
      let active_pt_case_exists := dict_truthy (active_portugal_case_store g) in
      let active_gh_case_exists := dict_truthy (active_ghana_case_store g) in
      if active_pt_case_exists && active_gh_case_exists
      then return_early "OK_BOTH_SLOTS_FULL" g
      else
        match current_url env with
        | Raise e =>
            if isinstance_WebDriverException e
            then return_early "DRIVER_DEAD_RESP_CHECK" g
            else finish_pass (with_status st0 "ERROR_UNKNOWN_FCC_OUTER")
        | Ok _ =>
            match (_ ← wait_for_rows env; all_rows_list env) with
            | Raise TimeoutException =>
                finish_pass (with_status st0 "OK_TIMEOUT_NO_ROWS")
            | Raise e =>
                if isinstance_WebDriverException e
                then return_early "DRIVER_DEAD_ROW_FIND" g
                else return_early "ERROR_UNEXPECTED_FINDING_ROWS" g
            | Ok [] => finish_pass (with_status st0 "OK_NO_ROWS_VISIBLE")
            | Ok rows =>
                finish_pass (scan_rows 0 rows active_pt_case_exists
                                       active_gh_case_exists st0)
            end
        end
  end.

End Claimer.

(** ** The worker thread: [initialize_claimer_driver],
    [check_claimer_login_status] and [run_claimer_loop] *)
Module Worker.
Import Py Shared Claimer.

(** *** Opening the session *)

(** what launching Chrome does (l.1120-1128) *)
Inductive launch_outcome : Type :=
| Launched
| LaunchFails (e : exn)              (* no browser was started *)
| LaunchedThenFails (e : exn).       (* the browser started, the script sent to
                                        it raised: the handle is lost *)

Record init_env := {
  isdir : bool;                      (* os.path.isdir(USER_DATA_DIR) *)
  launch : launch_outcome
}.

Definition init_failed (e : exn) (g : shared) : shared :=
  if isinstance_WebDriverException e
  then set_status "Claimer WebDriver Initialization FAILED. Check logs." g
  else set_status "Claimer WebDriver Error (Other). Check logs." g.

(** [initialize_claimer_driver()]: whether a driver is returned, and the
    globals afterwards *)
Definition initialize_claimer_driver (env : init_env) (g : shared) : bool * shared :=
  if negb (truthy Observer.USER_DATA_DIR) || negb (isdir env) then
    (false, set_status ("Error: USER_DATA_DIR ('" +:+ Observer.USER_DATA_DIR +:+
                        "') is invalid or not found.") g)
  else
    match launch env with
    | Launched => (true, g)
    | LaunchFails e | LaunchedThenFails e => (false, init_failed e g)
    end.

Record login_env := {
  responsive : result string;        (* driver.current_url, l.1144 *)
  landing_url : result string;       (* driver.get, the wait for the body and
                                        driver.current_url, l.1156-1163 *)
  app_indicator : result unit        (* the wait for the loaded indicator *)
}.

Definition login_failed (e : exn) (g : shared) : shared :=
  match e with
  | TimeoutException =>
      set_status "Claimer Login Check Failed (Timeout waiting for critical page elements after navigation)." g
  | _ =>
      if isinstance_WebDriverException e
      then set_status "Claimer Login Check Failed (WebDriver Error during navigation/element search)." g
      else set_status "Claimer Login Check Failed (Other Error)." g
  end.

(** [check_claimer_login_status(driver)]; an exception of the first
    probe that is no [WebDriverException] is not caught here *)
Definition check_claimer_login_status (env : login_env) (g : shared)
  : result bool * shared :=
  match responsive env with
  | Raise e =>
      if isinstance_WebDriverException e
      then (Ok false,
            set_status "Claimer Login Check Failed (WebDriver Unresponsive)." g)
      else (Raise e, g)
  | Ok _ =>
      match landing_url env with
      | Raise e => (Ok false, login_failed e g)
      | Ok current_url_after_get =>
          if negb (contains "appsheet.com" (lower current_url_after_get)) then
            (Ok false,
             set_status ("Claimer: Redirected to unexpected URL: " +:+
                         current_url_after_get +:+ ". Login likely failed.") g)
          else
            match app_indicator env with
            | Ok _ => (Ok true, g)
            | Raise e => (Ok false, login_failed e g)
            end
      end
  end.

(** *** Status updates of the loop *)

Definition GUARD_KEYWORDS : list string :=
  ["ERROR"; "FAILED"; "CRITICAL"; "STOP"; "DEAD"].

(** [if not any(err_kw in claimer_status_message.upper() for err_kw in
    [...]): claimer_status_message = msg] *)
Definition guarded_status (msg : string) (g : shared) : shared :=
  if any_in GUARD_KEYWORDS (upper (claimer_status_message g)) then g
  else set_status msg g.

Definition critical_statuses : list string :=
  ["DRIVER_DEAD_PRE_CHECK"; "DRIVER_DEAD_RESP_CHECK"; "DRIVER_DEAD_ROW_FIND";
   "DRIVER_DEAD_ROW_PROC"; "DRIVER_DEAD_CLAIM_PROC"; "DRIVER_DEAD_NAV_BACK_FAIL";
   "DRIVER_DEAD_OUTER_FCC"; "EXCEPTION_CALLING_FCC"; "ERROR_UNEXPECTED_FINDING_ROWS";
   "ERROR_UNKNOWN_FCC_OUTER"].

(** [str(b)] *)
Definition str_bool (b : bool) : string := if b then "True" else "False".

(** [s.split('_')[-1]] *)
Fixpoint last_segment_from (acc s : string) : string :=
  match s with
  | EmptyString => acc
  | String c t =>
      if Ascii.eqb c "_"%char then last_segment_from EmptyString t
      else last_segment_from (acc +:+ String c EmptyString) t
  end.

Definition last_segment (s : string) : string := last_segment_from EmptyString s.

(** the branches on [find_status_result] (l.1552-1569) *)
Definition handle_find_status (find_status_result current_timestamp_hm : string)
    (g : shared) : shared :=
  if bool_decide (find_status_result ∈ critical_statuses) then
    set_stop true
      (set_status ("Claimer CRITICAL: Fatal issue detected (" +:+ find_status_result
                   +:+ "). Forcing stop.") g)
  else if String.eqb find_status_result "STOPPED" then g
  else if contains "CLAIM_SUCCESS" find_status_result then
    set_status ("Claimer: Successfully processed claim for "
                +:+ last_segment find_status_result +:+ ".") g
  else if String.eqb find_status_result "OK_BOTH_SLOTS_FULL" then
    guarded_status ("Claimer: Both PT & GH slots full. Waiting... ("
                    +:+ current_timestamp_hm +:+ ")") g
  else
    guarded_status ("Claimer: No new suitable case or slot. Status: "
                    +:+ find_status_result +:+ ". (" +:+ current_timestamp_hm +:+ ")") g.

(** *** One cycle *)
Record cycle_env := {
  observer_at_start : list Observer.action;  (* before the slots are read *)
  current_timestamp_hm : string;             (* time.strftime('%H:%M:%S') *)
  session : pass_env;                        (* the board during the pass *)
  observer_after_pass : list Observer.action;(* before the stop flag is tested *)
  loop_duration_ms : Z;                      (* time.time() - loop_start_time *)
  observer_in_slice : nat -> list Observer.action
                                             (* during the k-th 0.05 s sleep *)
}.

(** the cycle up to the test of the stop flag (l.1524-1572) *)
Definition cycle_pass (env : cycle_env) (g : shared) : shared :=
  let g := Observer.acts (observer_at_start env) g in
  let pt_slot_free_at_loop_start := negb (dict_truthy (active_portugal_case_store g)) in
  let gh_slot_free_at_loop_start := negb (dict_truthy (active_ghana_case_store g)) in
  if pt_slot_free_at_loop_start || gh_slot_free_at_loop_start then
    let g := guarded_status
               ("Claimer: Checking for cases (PT free: "
                +:+ str_bool pt_slot_free_at_loop_start +:+ ", GH free: "
                +:+ str_bool gh_slot_free_at_loop_start +:+ ")... ("
                +:+ current_timestamp_hm env +:+ ")") g in
    let R := find_and_claim_cases (Some (session env)) g in
    handle_find_status (returned R) (current_timestamp_hm env) (after R)
  else
    guarded_status ("Claimer: Both PT & GH slots full. Waiting... ("
                    +:+ current_timestamp_hm env +:+ ")") g.

(** [int(wait_time_seconds * 20)] with [wait_time_seconds = max(0.1,
    7.0 - loop_duration)].  The duration is taken in milliseconds and
    the arithmetic is exact; Python computes in binary floating point,
    where the product can fall just below a whole number and give one
    slice fewer (10 rather than 11 after 6.45 s). *)
Definition wait_slices (loop_duration_ms : Z) : nat :=
  Z.to_nat (Z.max 100 (7000 - loop_duration_ms) / 50).

(** the sliced sleep (l.1580-1582), from slice [k] on, at most [n]
    slices: the globals afterwards and the number of slices slept *)
Fixpoint sleep_slices (n k : nat) (observer : nat -> list Observer.action)
    (g : shared) : shared * nat :=
  match n with
  | O => (g, O)
  | S n' =>
      if stop_event_claimer g then (g, O)
      else
        let '(g', slept) :=
          sleep_slices n' (S k) observer (Observer.acts (observer k) g) in
        (g', S slept)
  end.

(** one turn of the [while]: the globals afterwards, whether the loop
    was left by a [break], and the slices slept *)
Definition cycle (env : cycle_env) (g : shared) : shared * bool * nat :=
  let g := Observer.acts (observer_after_pass env) (cycle_pass env g) in
  if stop_event_claimer g then (g, true, O)
  else
    let '(g, slept) :=
      sleep_slices (wait_slices (loop_duration_ms env)) 0 (observer_in_slice env) g in
    (g, stop_event_claimer g, slept).

(** the [while not stop_event_ref.is_set()] loop; [None] when the
    script of cycles ends with the loop still running *)
Fixpoint monitor (cycles : list cycle_env) (g : shared) : option shared :=
  if stop_event_claimer g then Some g
  else
    match cycles with
    | [] => None
    | env :: rest =>
        match cycle env g with
        | (g', true, _) => Some g'
        | (g', false, _) => monitor rest g'
        end
    end.

(** *** The thread *)
Definition STOP_KEYWORDS : list string := ["CRITICAL"; "FAIL"; "ERROR"; "DEAD"].
Definition FINAL_KEYWORDS : list string :=
  ["CRITICAL"; "FAIL"; "ERROR"; "DEAD"; "EXCEPTION"].
Definition final_status_suffix : string := " Claimer shut down.".

(** after the loop (l.1588-1589) *)
Definition after_loop (g : shared) : shared :=
  if stop_event_claimer g
     && negb (any_in STOP_KEYWORDS (upper (claimer_status_message g)))
  then set_status "Claimer: Monitoring stopped by user." g
  else g.

(** the status written by the [finally] block (l.1609-1619) *)
Definition final_status (stop_is_set : bool) (msg : string) : string :=
  let shut_down := contains "shut down" (lower msg) in
  if stop_is_set then
    if any_in FINAL_KEYWORDS (upper msg) then
      if negb shut_down then msg +:+ final_status_suffix else msg
    else if negb (contains "stopped by user" (lower msg)) && negb shut_down then
      "Claimer: Monitoring stopped by user." +:+ final_status_suffix
    else if negb shut_down then msg +:+ final_status_suffix
    else msg
  else if negb shut_down then msg +:+ final_status_suffix
  else msg.

(** the [finally] block on the globals (l.1607-1622) *)
Definition finally (g : shared) : shared :=
  let g := set_monitoring false g in
  let g := set_status (final_status (stop_event_claimer g)
                                    (claimer_status_message g)) g in
  set_stop true g.

(** the [except Exception] block of the thread (l.1592-1598) *)
Definition thread_failed (thread_name : string) (g : shared) : shared :=
  put_nowait {| q_status := "THREAD_OUTER_EXCEPTION"; claimed_data_in_q := None |}
    (set_stop true
       (set_status ("Claimer THREAD (" +:+ thread_name +:+
                    "): Outer Critical Thread Error during execution. Check logs.") g)).

Record worker_env := {
  thread_name : string;
  init : init_env;
  login : login_env;
  cycles : list cycle_env;
  observer_before_cleanup : list Observer.action
                                (* between the end of the [try] and the [finally] *)
}.

(** what a run leaves behind *)
Record outcome := {
  final : shared;
  driver_held : bool;           (* [driver] was bound to a session *)
  quit_called : bool;           (* [driver.quit()] was called *)
  session_leaked : bool         (* a browser was started that no handle refers to *)
}.

(** the [try] block with its [except]: the globals, and whether [driver]
    is bound; [None] while the loop is still running *)
Definition run_body (env : worker_env) (g : shared) : option (shared * bool) :=
  let g := set_status "Claimer: Initializing WebDriver..." g in
  match initialize_claimer_driver (init env) g with
  | (false, g) =>
      Some (set_monitoring false
              (put_nowait {| q_status := "DRIVER_INIT_FAIL"; claimed_data_in_q := None |} g),
            false)
  | (true, g) =>
      match check_claimer_login_status (login env) g with
      | (Raise _, g) => Some (thread_failed (thread_name env) g, true)
      | (Ok false, g) =>
          Some (set_monitoring false
                  (put_nowait {| q_status := "LOGIN_FAIL"; claimed_data_in_q := None |} g),
                true)
      | (Ok true, g) =>
          g ← monitor (cycles env) (set_status "Claimer: Monitoring Active..." g);
          Some (after_loop g, true)
      end
  end.

(** [run_claimer_loop(stop_event_ref)] *)
Definition run_claimer_loop (env : worker_env) (g : shared) : option outcome :=
  '(g, driver) ← run_body env g;
  let g := Observer.acts (observer_before_cleanup env) g in
  Some {| final := finally g;
          driver_held := driver;
          quit_called := driver;
          session_leaked :=
            match launch (init env) with
            | LaunchedThenFails _ => isdir (init env)
            | _ => false
            end |}.

End Worker.

(** ** Reports: the leaderboard loops of [update_sidebar_reports] *)
Module Reports.
Import Py ActivityLog.

(** a row of the filtered log after the three [astype(str)] columns have
    been rewritten *)
Record lb_row := {
  case_id : string;     (* row['Case Display ID'] *)
  status : string;      (* row['Status (Observed)'], trimmed and lowercased *)
  user : string;        (* row['Assigned User'], trimmed *)
  observed : pyval      (* row['Observed Timestamp'] *)
}.

Definition bot_user_id : string := "BOT_CLAIMED".

(** the test that makes the loop [continue] *)
Definition skipped (user : string) : bool :=
  let is_bot := if truthy user then contains (lower bot_user_id) (lower user)
                else true in
  negb (truthy user) || String.eqb (lower user) "n/a" || String.eqb user "" || is_bot.

(** one iteration of the daily loop over
    [(user_scores_day, counted_case_ids_day, daily_leaderboard_details_for_store)] *)
Definition daily_step
    (st : gmap string nat * gset string * gmap string (list string))
    (row : lb_row) : gmap string nat * gset string * gmap string (list string) :=
  let '(user_scores_day, counted_case_ids_day, details) := st in
  if skipped (user row) then st
  else if String.eqb (status row) "inprogress"
          && negb (bool_decide (case_id row ∈ counted_case_ids_day))
  then (<[user row := (default 0 (user_scores_day !! user row) + 1)%nat]> user_scores_day,
        {[case_id row]} ∪ counted_case_ids_day,
        <[user row := default [] (details !! user row) ++ [case_id row]]> details)
  else st.

(** one iteration of the monthly loop over
    [(user_scores_month, counted_case_ids_month)] *)
Definition monthly_step (st : gmap string nat * gset string) (row : lb_row)
  : gmap string nat * gset string :=
  let '(user_scores_month, counted_case_ids_month) := st in
  if skipped (user row) then st
  else if String.eqb (status row) "inprogress"
          && negb (bool_decide (case_id row ∈ counted_case_ids_month))
  then (<[user row := (default 0 (user_scores_month !! user row) + 1)%nat]>
          user_scores_month,
        {[case_id row]} ∪ counted_case_ids_month)
  else st.

Section Pandas.
(** What pandas supplies beyond the text of a cell: [str(x)] of a number
    or another object, [pd.to_datetime(..., errors='coerce')] as (year,
    month, day), [None] for [NaT], and [sort_values], of which only
    that it rearranges the rows is used. *)
Variable repr : pyval -> string.
Variable to_datetime : pyval -> option (Z * Z * Z).
Variable sort_values : list lb_row -> list lb_row.

(** [astype(str)] on a cell: a text is kept, and a missing value
    becomes the text that names it *)
Definition astype_str (v : pyval) : string :=
  match v with
  | Str s => s
  | NaN => "nan"
  | NA => "<NA>"
  | PyNone => "None"
  | Num _ | Files _ => repr v
  end.

Definition cell (r : gmap string pyval) (col : string) : pyval :=
  default NA (r !! col).

Definition normalise (r : gmap string pyval) : lb_row :=
  {| case_id := astype_str (cell r "Case Display ID");
     status := lower (strip (astype_str (cell r "Status (Observed)")));
     user := strip (astype_str (cell r "Assigned User"));
     observed := cell r "Observed Timestamp" |}.

(** [df_proc_daily[df_proc_daily['Date_dt'] == selected_dt_obj]] *)
Definition filter_day (selected : Z * Z * Z) (df : DataFrame)
  : list (gmap string pyval) :=
  filter (fun r => to_datetime (cell r "Date") = Some selected) (rows df).

(** the rows whose date has the selected month and year *)
Definition filter_month (selected_month selected_year : Z) (df : DataFrame)
  : list (gmap string pyval) :=
  filter (fun r => match to_datetime (cell r "Date") with
                   | Some (y, m, _) => bool_decide (m = selected_month ∧ y = selected_year)
                   | None => false
                   end = true)
         (rows df).

(** the rows the daily loop iterates over, in iteration order *)
Definition daily_rows (selected : Z * Z * Z) (df : DataFrame) : list lb_row :=
  sort_values (normalise <$> filter_day selected df).

Definition monthly_rows (selected_month selected_year : Z) (df : DataFrame)
  : list lb_row :=
  sort_values (normalise <$> filter_month selected_month selected_year df).

(** [user_scores_day] at the end of the daily loop *)
Definition user_scores_day (selected : Z * Z * Z) (df : DataFrame)
  : gmap string nat :=
  (foldl daily_step (∅, ∅, ∅) (daily_rows selected df)).1.1.

(** [user_scores_month] at the end of the monthly loop *)
Definition user_scores_month (selected_month selected_year : Z) (df : DataFrame)
  : gmap string nat :=
  (foldl monthly_step (∅, ∅) (monthly_rows selected_month selected_year df)).1.
End Pandas.

(** *** Reading the result.  A row qualifies when its owner is not
    skipped and its status is "inprogress"; a case id is credited to the
    owner of the first qualifying row that carries it. *)
Definition qualifies (r : lb_row) : Prop :=
  skipped (user r) = false ∧ status r = "inprogress".

Definition credited_to (R : list lb_row) (c u : string) : Prop :=
  ∃ P r S, R = P ++ r :: S ∧ case_id r = c ∧ user r = u ∧ qualifies r ∧
           ∀ r', r' ∈ P → qualifies r' → case_id r' ≠ c.

(** [scores] gives every owner the number of case ids credited to them *)
Definition counts_credited (R : list lb_row) (scores : gmap string nat) : Prop :=
  ∀ u, ∃ cs : list string,
    NoDup cs ∧ (∀ c, c ∈ cs ↔ credited_to R c u) ∧
    scores !! u = match cs with [] => None | _ => Some (length cs) end.

End Reports.

(** ** Sample data used to exercise the definitions *)
Module Samples.
Import Py TaskBoard Shared Claimer Worker.

(** a row of the board showing the given column texts *)
Definition board_row (id : string) (fields : list (string * string)) : element :=
  let leaf t := Element (fun _ => Ok []) (Ok t) (Ok None) in
  let cell t := Element (fun _ => Ok [leaf t]) (Ok t) (Ok None) in
  Element (fun xp =>
             match List.find (fun kv => String.eqb (column_div_xpath kv.1) xp) fields with
             | Some kv => Ok [cell kv.2]
             | None => Ok []
             end)
          (Ok "") (Ok (Some id)).

(** a row that is found and visible at once, with the given outcome of a
    claim on it *)
Definition visible_row (el : element) (claim : claim_outcome) : row_env :=
  {| observer_before := []; locate := Ok el;
     first_attempt := Shown; second_attempt := NotShown;
     claim_actions := claim; navigate_back := Ok ();
     date_now := "2025-03-01"; timestamp_now := "2025-03-01 10:00:00" |}.

Definition pass_of (rows : list row_env) : pass_env :=
  {| current_url := Ok APPSHEET_URL; wait_for_rows := Ok ();
     all_rows_list := Ok rows |}.

Definition writable_disk : ActivityLog.disk :=
  {| ActivityLog.CASE_LOG_FILE := None; ActivityLog.writable := true |}.

Definition claimed_ok : claim_outcome :=
  ClaimStarted "2025-03-01 10:00:07" None (Ok ()).

(** a Portugal task that is not started but already has an owner *)
Definition owned_row : element :=
  board_row "r1" [("Main Task ID", "T-1"); ("Status", "Not Started");
                  ("Country", "Portugal"); ("Useremail", "colleague@example.org")].

Definition ghana_row : element :=
  board_row "r2" [("Main Task ID", "T-2"); ("Status", "Not Started");
                  ("Country", "Ghana")].

Definition portugal_row : element :=
  board_row "r1" [("Main Task ID", "T-1"); ("Status", "Not Started");
                  ("Country", "Portugal")].

Definition colleague_row : element :=
  board_row "r3" [("Main Task ID", "T-3"); ("Status", "InProgress");
                  ("Country", "Portugal"); ("Useremail", "x@example.org")].

(** a row whose "Status" cell reads " Not Started " *)
Definition status_row : element :=
  board_row "row-1" [("Status", " Not Started ")].

(** a stand-in for [str(x)] of a number: the sample log holds texts only *)
Definition repr (v : pyval) : string := "".

(** a stand-in for [pd.to_datetime]: the two dates the sample log uses *)
Definition to_datetime (v : pyval) : option (Z * Z * Z) :=
  match v with
  | Str s => if String.eqb s "2025-03-01" then Some (2025, 3, 1)%Z
             else if String.eqb s "2025-03-02" then Some (2025, 3, 2)%Z
             else None
  | _ => None
  end.

Definition log_row (date case_id user status : string) : gmap string pyval :=
  <["Date" := Str date]> (<["Case Display ID" := Str case_id]>
  (<["Assigned User" := Str user]> (<["Status (Observed)" := Str status]> ∅))).

Definition march_log : ActivityLog.DataFrame :=
  {| ActivityLog.columns := ActivityLog.LOG_COLUMNS_DEFINITION;
     ActivityLog.rows :=
       [ log_row "2025-03-01" "T-1" "alice@x.org" " InProgress ";
         log_row "2025-03-01" "T-1" "bob@x.org" "inprogress";
         log_row "2025-03-01" "T-2" "BOT_CLAIMED" "InProgress";
         log_row "2025-03-01" "T-2" "bob@x.org" "InProgress";
         log_row "2025-03-01" "T-3" "N/A" "InProgress";
         log_row "2025-03-02" "T-4" "carol@x.org" "InProgress";
         log_row "2025-03-01" "T-5" "carol@x.org" "Completed" ] |}.

(** the globals right after "Start Monitoring" was pressed *)
Definition started : shared :=
  (Observer.toggle_monitoring (Some 1%nat) true (initial writable_disk)).1.

(** a session that answers [current_url] and then dies while the rows
    are awaited *)
Definition dead_session : pass_env :=
  {| current_url := Ok APPSHEET_URL; wait_for_rows := Raise WebDriverException;
     all_rows_list := Ok [] |}.

Definition quiet_cycle (s : pass_env) : cycle_env :=
  {| observer_at_start := []; current_timestamp_hm := "10:00:00"; session := s;
     observer_after_pass := []; loop_duration_ms := 5000;
     observer_in_slice := fun _ => [] |}.

Definition good_init : init_env := {| isdir := true; launch := Launched |}.

Definition good_login : login_env :=
  {| responsive := Ok APPSHEET_URL; landing_url := Ok APPSHEET_URL;
     app_indicator := Ok () |}.

(** a run whose first pass finds the session dead; [clicks] is what the
    observer does before the thread cleans up *)
Definition fatal_run (clicks : list Observer.action) : worker_env :=
  {| thread_name := "Thread-1"; init := good_init; login := good_login;
     cycles := [quiet_cycle dead_session];
     observer_before_cleanup := clicks |}.

(** a cycle that claims the Portugal row; the observer polls the queue
    during the first slice of the sleep and presses "Stop" during the
    fourth *)
Definition claim_then_stop_cycle : cycle_env :=
  {| observer_at_start := []; current_timestamp_hm := "10:00:00";
     session := pass_of [visible_row portugal_row claimed_ok];
     observer_after_pass := []; loop_duration_ms := 5000;
     observer_in_slice := fun k => match k with
                                   | 0%nat => [Observer.PollQueue]
                                   | 3%nat => [Observer.ClickToggle]
                                   | _ => []
                                   end |}.

Definition stopped_run : worker_env :=
  {| thread_name := "Thread-1"; init := good_init; login := good_login;
     cycles := [claim_then_stop_cycle]; observer_before_cleanup := [] |}.

End Samples.

(** * Properties *)

(** ** Strings *)
Section PyFacts.
Import Py.

Implicit Types (s t k needle : string).

Lemma upper_app s t : upper (s +:+ t) = upper s +:+ upper t.
Proof.
  induction s as [|c s IH]; [reflexivity|].
  change (String c s +:+ t) with (String c (s +:+ t)). cbn [upper].
  by rewrite IH.
Qed.

Lemma lower_app s t : lower (s +:+ t) = lower s +:+ lower t.
Proof.
  induction s as [|c s IH]; [reflexivity|].
  change (String c s +:+ t) with (String c (s +:+ t)). cbn [lower].
  by rewrite IH.
Qed.

Lemma prefix_empty s : String.prefix "" s = true.
Proof. by destruct s. Qed.

Lemma prefix_app_l k s t :
  String.prefix k s = true → String.prefix k (s +:+ t) = true.
Proof.
  revert s. induction k as [|c k IH]; intros s; [intros _; apply prefix_empty|].
  destruct s as [|c' s]; [discriminate|].
  change (String c' s +:+ t) with (String c' (s +:+ t)). cbn [String.prefix].
  destruct (Ascii.ascii_dec c c'); [apply IH|discriminate].
Qed.

Lemma contains_app_l k s t : contains k s = true → contains k (s +:+ t) = true.
Proof.
  induction s as [|c s IH]; cbn [contains].
  - rewrite orb_false_r. intros H. destruct k; [|discriminate H].
    change ("" +:+ t) with t. destruct t; reflexivity.
  - intros [H|H]%orb_prop.
    + change (String c s +:+ t) with (String c (s +:+ t)).
      cbn [contains]. apply orb_true_intro. left.
      by apply (prefix_app_l k (String c s) t).
    + change (String c s +:+ t) with (String c (s +:+ t)).
      cbn [contains]. apply orb_true_intro. right. by apply IH.
Qed.

Lemma contains_app_r k s t : contains k t = true → contains k (s +:+ t) = true.
Proof.
  intros H. induction s as [|c s IH]; [exact H|].
  change (String c s +:+ t) with (String c (s +:+ t)).
  cbn [contains]. apply orb_true_intro. by right.
Qed.

Lemma prefix_shorter k1 k2 s :
  String.prefix (k1 +:+ k2) s = true → String.prefix k1 s = true.
Proof.
  revert s. induction k1 as [|c k1 IH]; intros s; [intros _; apply prefix_empty|].
  change (String c k1 +:+ k2) with (String c (k1 +:+ k2)).
  destruct s as [|c' s]; [discriminate|].
  change (String c k1 +:+ k2) with (String c (k1 +:+ k2)). cbn [String.prefix].
  destruct (Ascii.ascii_dec c c'); [apply IH|discriminate].
Qed.

(** a text that contains a word contains every beginning of that word *)
Lemma contains_shorter k1 k2 s :
  contains (k1 +:+ k2) s = true → contains k1 s = true.
Proof.
  induction s as [|c s IH]; cbn [contains].
  - rewrite !orb_false_r. apply prefix_shorter.
  - intros [H|H]%orb_prop; apply orb_true_intro.
    + left. by eapply prefix_shorter.
    + right. by apply IH.
Qed.

Lemma any_in_app_l ks s t : any_in ks s = true → any_in ks (s +:+ t) = true.
Proof.
  unfold any_in. rewrite !existsb_exists. intros (k & Hin & Hk).
  exists k. split; [done|]. by apply contains_app_l.
Qed.

Lemma any_in_app_r ks s t : any_in ks t = true → any_in ks (s +:+ t) = true.
Proof.
  unfold any_in. rewrite !existsb_exists. intros (k & Hin & Hk).
  exists k. split; [done|]. by apply contains_app_r.
Qed.

End PyFacts.

(** ** The application log *)
Section AppLogFacts.
Import AppLog.

Implicit Types (logs : list string) (c : call) (calls : list call).

(** the line a call adds *)
Definition line_of c : string := log_entry (at_time c) (message c) (level c).

Lemma add_log_drop c logs :
  add_log (at_time c) (message c) (level c) logs =
    drop (length (logs ++ [line_of c]) - max_log_lines) (logs ++ [line_of c]).
Proof.
  unfold add_log. fold (line_of c).
  destruct (Nat.ltb_spec max_log_lines (length (logs ++ [line_of c]))) as [H|H];
    [reflexivity|].
  replace (length (logs ++ [line_of c]) - max_log_lines)%nat with 0%nat by lia.
  reflexivity.
Qed.

Lemma add_logs_window calls logs :
  (length logs ≤ max_log_lines)%nat →
  add_logs calls logs =
    drop (length (logs ++ (line_of <$> calls)) - max_log_lines)
         (logs ++ (line_of <$> calls)).
Proof.
  revert logs. induction calls as [|c calls IH]; intros logs Hlen.
  - cbn [fmap list_fmap add_logs foldl]. rewrite app_nil_r.
    replace (length logs - max_log_lines)%nat with 0%nat by lia. reflexivity.
  - change (add_logs (c :: calls) logs)
      with (add_logs calls (add_log (at_time c) (message c) (level c) logs)).
    rewrite add_log_drop.
    assert (length (logs ++ [line_of c]) = S (length logs)) as Hl1
      by (rewrite length_app; cbn; lia).
    rewrite IH by (rewrite length_drop; lia).
    rewrite fmap_cons.
    replace (logs ++ line_of c :: (line_of <$> calls))
      with ((logs ++ [line_of c]) ++ (line_of <$> calls))
      by (by rewrite <- app_assoc).
    rewrite <- (drop_app_le (logs ++ [line_of c])) by lia.
    rewrite drop_drop. f_equal.
    rewrite !length_app, length_drop, !length_app. cbn [length]. lia.
Qed.

(** X23.  The application log keeps the newest 300 lines.  Starting
    from a log of at most 300 lines, after any number of calls of
    [add_log] the log holds the last 300 of all lines, old and new, in
    the order they were written, and never more than 300; the line of
    the latest call is always the last one. *)
Theorem app_log_keeps_newest calls logs :
  (length logs ≤ max_log_lines)%nat →
  let all := logs ++ (line_of <$> calls) in
  add_logs calls logs = drop (length all - max_log_lines) all ∧
  length (add_logs calls logs) = Nat.min (length all) max_log_lines ∧
  ∀ c, last (add_log (at_time c) (message c) (level c) (add_logs calls logs)) =
         Some (line_of c).
Proof.
  intros Hlen all. pose proof (add_logs_window calls logs Hlen) as Hw.
  fold all in Hw. split; [exact Hw|]. split.
  - rewrite Hw, length_drop. lia.
  - intros c. rewrite add_log_drop.
    rewrite drop_app_le by (rewrite length_app; unfold max_log_lines; cbn; lia).
    apply last_snoc.
Qed.

Lemma app_log_keeps_newest_witness :
  let c := {| at_time := "10:00:00"; message := "Claimer: row scanned.";
              level := "info" |} in
  length (add_logs (replicate 301 c) []) = 300%nat ∧
  add_logs [c] [] = ["[10:00:00 ℹ️ INFO] Claimer: row scanned."].
Proof.
  intros c.
  destruct (app_log_keeps_newest (replicate 301 c) []) as (_ & H & _).
  - cbn. lia.
  - split; [|reflexivity]. rewrite H.
    rewrite app_nil_l, length_fmap, length_replicate. reflexivity.
Defined.

End AppLogFacts.

(** ** File names *)
Section FilesFacts.
Import Py Files.

Implicit Types (s t : string) (c : ascii) (p class chars : ascii → bool).

(** every character of [s] satisfies [p] *)
Fixpoint all_chars p s : bool :=
  match s with
  | EmptyString => true
  | String c t => p c && all_chars p t
  end.

Lemma append_empty_r s : s +:+ "" = s.
Proof.
  induction s as [|c s IH]; [done|].
  change (String c s +:+ "") with (String c (s +:+ "")). by rewrite IH.
Qed.

Lemma all_chars_sub_runs_unsafe b s :
  all_chars is_safe (sub_runs (fun c => negb (is_safe c)) "_" b s) = true.
Proof.
  revert b. induction s as [|c s IH]; intros b; [reflexivity|].
  cbn [sub_runs]. destruct (is_safe c) eqn:Hc; cbn [negb].
  - cbn [all_chars]. by rewrite Hc, IH.
  - destruct b; [apply IH|]. cbn [all_chars]. by rewrite IH.
Qed.

Lemma all_chars_take p n s : all_chars p s = true → all_chars p (take_str n s) = true.
Proof.
  revert s. induction n as [|n IH]; intros [|c s]; try reflexivity.
  cbn [all_chars take_str]. intros [-> H]%andb_prop. by rewrite IH.
Qed.

Lemma all_chars_lstrip p chars s :
  all_chars p s = true → all_chars p (lstrip_chars chars s) = true.
Proof.
  induction s as [|c s IH]; [done|]. cbn [lstrip_chars].
  destruct (chars c); [|done]. cbn [all_chars]. intros [_ H]%andb_prop. by apply IH.
Qed.

Lemma all_chars_rstrip p chars s :
  all_chars p s = true → all_chars p (rstrip_chars chars s) = true.
Proof.
  induction s as [|c s IH]; [done|]. cbn [all_chars rstrip_chars].
  intros [Hc H]%andb_prop. specialize (IH H).
  destruct (rstrip_chars chars s) as [|c' s'].
  - destruct (chars c); [reflexivity|]. cbn [all_chars]. by rewrite Hc.
  - change (all_chars p (String c (String c' s')))
      with (p c && all_chars p (String c' s')). by rewrite Hc, IH.
Qed.

Lemma length_take n s : (String.length (take_str n s) ≤ n)%nat.
Proof.
  revert s. induction n as [|n IH]; intros [|c s]; cbn; try lia.
  specialize (IH s). lia.
Qed.

Lemma length_lstrip chars s :
  (String.length (lstrip_chars chars s) ≤ String.length s)%nat.
Proof.
  induction s as [|c s IH]; [done|]. cbn [lstrip_chars].
  destruct (chars c); cbn [String.length]; lia.
Qed.

Lemma length_rstrip chars s :
  (String.length (rstrip_chars chars s) ≤ String.length s)%nat.
Proof.
  induction s as [|c s IH]; [done|]. cbn [rstrip_chars].
  destruct (rstrip_chars chars s) as [|c' s'].
  - destruct (chars c); cbn [String.length]; lia.
  - cbn [String.length] in *. lia.
Qed.

Lemma lstrip_chars_visible chars s :
  lstrip_chars chars s = "" ∨
  ∃ c t, lstrip_chars chars s = String c t ∧ chars c = false.
Proof.
  induction s as [|c s IH]; [by left|]. cbn [lstrip_chars].
  destruct (chars c) eqn:Hc; [exact IH|]. right. by exists c, s.
Qed.

Lemma rstrip_chars_cons_visible chars c s :
  chars c = false → rstrip_chars chars (String c s) = String c (rstrip_chars chars s).
Proof. intros H. cbn [rstrip_chars]. rewrite H. by destruct (rstrip_chars chars s). Qed.

Lemma rstrip_chars_end chars s t c :
  rstrip_chars chars s = t +:+ String c "" → chars c = false.
Proof.
  revert t. induction s as [|a s IH]; intros t.
  - cbn. by destruct t.
  - cbn [rstrip_chars]. destruct (rstrip_chars chars s) as [|b r].
    + destruct (chars a) eqn:Ha; [by destruct t|].
      destruct t as [|a' t]; cbn; [by intros [= <-]|].
      intros [= _ H]. by destruct t.
    + destruct t as [|a' t]; cbn; [discriminate|].
      intros [= _ H]. by apply (IH t).
Qed.

Lemma strip_chars_start chars s c t :
  strip_chars chars s = String c t → chars c = false.
Proof.
  unfold strip_chars.
  destruct (lstrip_chars_visible chars s) as [-> | (c' & t' & -> & Hc)]; [done|].
  rewrite (rstrip_chars_cons_visible _ _ _ Hc). by intros [= <- _].
Qed.

(** X25.  Whatever [os.path.splitext] answers, the name
    [sanitize_filename] returns is a stem followed by the extension in
    lower case, where the stem consists of letters, digits, "_", "." and
    "-" only, is at most 100 characters long, and neither begins nor
    ends with "_" or a blank.  The extension is not cleaned. *)
Theorem sanitize_filename_stem (splitext : string → string * string)
    (name : option string) :
  let ext_part := (splitext (default "" name)).2 in
  ∃ stem,
    sanitize_filename splitext name = stem +:+ lower ext_part ∧
    all_chars is_safe stem = true ∧
    (String.length stem ≤ 100)%nat ∧
    (∀ c t, stem = String c t → is_padding c = false) ∧
    (∀ c t, stem = t +:+ String c "" → is_padding c = false).
Proof.
  intros ext_part. subst ext_part. unfold sanitize_filename.
  assert (match name with Some s => s | None => "" end = default "" name) as ->
    by (by destruct name).
  destruct (splitext (default "" name)) as [name_part ext_part]. cbn [snd].
  exists (clean_name_part name_part). split; [|split; [|split; [|split]]].
  - destruct ext_part; cbn [truthy lower]; [by rewrite append_empty_r|done].
  - unfold clean_name_part, strip_chars.
    apply all_chars_rstrip, all_chars_lstrip, all_chars_take,
      all_chars_sub_runs_unsafe.
  - unfold clean_name_part, strip_chars.
    etransitivity; [apply length_rstrip|].
    etransitivity; [apply length_lstrip|]. apply length_take.
  - intros c t. unfold clean_name_part. apply strip_chars_start.
  - intros c t. unfold clean_name_part, strip_chars. apply rstrip_chars_end.
Qed.

(** a stand-in for [os.path.splitext]: the extension starts at the last
    dot, if a character precedes it *)
Fixpoint split_at_last_dot (s : string) : string * string :=
  match s with
  | EmptyString => (EmptyString, EmptyString)
  | String c t =>
      let '(a, b) := split_at_last_dot t in
      match b with
      | EmptyString =>
          if Ascii.eqb c "."%char then (EmptyString, s) else (String c a, b)
      | _ => (String c a, b)
      end
  end.

Definition sample_splitext (s : string) : string * string :=
  match split_at_last_dot s with
  | (EmptyString, _) => (s, EmptyString)
  | r => r
  end.

Lemma sanitize_filename_stem_witness :
  ∃ stem, "3_Pizza_Quattro_Formaggi.jpg" = stem +:+ ".jpg" ∧
          all_chars is_safe stem = true ∧ (String.length stem ≤ 100)%nat.
Proof.
  destruct (sanitize_filename_stem sample_splitext
              (Some "3_Pizza: Quattro  Formaggi?.JPG")) as (stem & H & Hs & Hl & _).
  exists stem. split; [exact H|]. split; [exact Hs|exact Hl].
Defined.

(** a name with reserved characters, blanks and an upper-case extension;
    an extension with a blank, which stays; and [None] *)
Example sanitize_filename_samples :
  sanitize_filename sample_splitext (Some "3_Pizza: Quattro  Formaggi?.JPG") =
    "3_Pizza_Quattro_Formaggi.jpg" ∧
  sanitize_filename sample_splitext (Some "menu.P DF") = "menu.p df" ∧
  sanitize_filename sample_splitext None = "".
Proof. split; [|split]; reflexivity. Qed.

(** *** Names that need no cleaning *)

Definition is_plain (c : ascii) : bool :=
  is_upper c || is_lower c || is_digit c || Ascii.eqb c "."%char || Ascii.eqb c "-"%char.

Lemma all_chars_impl p q s :
  (∀ c, p c = true → q c = true) → all_chars p s = true → all_chars q s = true.
Proof.
  intros Hpq. induction s as [|c s IH]; [done|]. cbn [all_chars].
  intros [Hc H]%andb_prop. by rewrite (Hpq _ Hc), IH.
Qed.

Lemma remove_none class s :
  all_chars (fun c => negb (class c)) s = true → remove class s = s.
Proof.
  induction s as [|c s IH]; [done|]. cbn [all_chars remove].
  intros [Hc H]%andb_prop. apply negb_true_iff in Hc. by rewrite Hc, IH.
Qed.

Lemma replace_char_none a b s :
  all_chars (fun c => negb (Ascii.eqb c a)) s = true → replace_char a b s = s.
Proof.
  induction s as [|c s IH]; [done|]. cbn [all_chars replace_char].
  intros [Hc H]%andb_prop. apply negb_true_iff in Hc. by rewrite Hc, IH.
Qed.

Lemma sub_runs_none class r b s :
  all_chars (fun c => negb (class c)) s = true → sub_runs class r b s = s.
Proof.
  revert b. induction s as [|c s IH]; intros b; [done|]. cbn [all_chars sub_runs].
  intros [Hc H]%andb_prop. apply negb_true_iff in Hc. by rewrite Hc, IH.
Qed.

Lemma take_str_all n s : (String.length s ≤ n)%nat → take_str n s = s.
Proof.
  revert s. induction n as [|n IH]; intros [|c s]; cbn; try done; [lia|].
  intros H. rewrite IH; [done|lia].
Qed.

Lemma rstrip_chars_none chars s :
  all_chars (fun c => negb (chars c)) s = true → rstrip_chars chars s = s.
Proof.
  induction s as [|c s IH]; [done|]. cbn [all_chars rstrip_chars].
  intros [Hc H]%andb_prop. apply negb_true_iff in Hc. rewrite (IH H), Hc.
  by destruct s.
Qed.

Lemma lstrip_chars_none chars s :
  all_chars (fun c => negb (chars c)) s = true → lstrip_chars chars s = s.
Proof.
  destruct s as [|c s]; [done|]. cbn [all_chars lstrip_chars].
  intros [Hc _]%andb_prop. apply negb_true_iff in Hc. by rewrite Hc.
Qed.

Lemma is_plain_facts c :
  is_plain c = true →
  is_reserved c = false ∧ Ascii.eqb c " " = false ∧ Ascii.eqb c "_" = false ∧
  is_safe c = true ∧ is_padding c = false.
Proof.
  destruct c as [[] [] [] [] [] [] [] []]; vm_compute; intros H;
    first [discriminate H | repeat split].
Qed.

(** X26.  A name that needs no cleaning is returned as it is, up to the
    letter case of its extension: when the part before the extension
    has at most 100 characters, all of them letters, digits, "." or "-",
    [sanitize_filename] returns that part unchanged, followed by the
    extension in lower case. *)
Theorem sanitize_filename_keeps_plain_names (splitext : string → string * string)
    (name name_part ext_part : string) :
  splitext name = (name_part, ext_part) →
  all_chars is_plain name_part = true →
  (String.length name_part ≤ 100)%nat →
  sanitize_filename splitext (Some name) = name_part +:+ lower ext_part.
Proof.
  intros Hsplit Hplain Hlen. unfold sanitize_filename. rewrite Hsplit.
  assert (clean_name_part name_part = name_part) as ->.
  { unfold clean_name_part, strip_chars.
    rewrite remove_none
      by (eapply all_chars_impl; [|exact Hplain];
          intros c (-> & _)%is_plain_facts; reflexivity).
    rewrite replace_char_none
      by (eapply all_chars_impl; [|exact Hplain];
          intros c (_ & -> & _)%is_plain_facts; reflexivity).
    rewrite (sub_runs_none (fun c => Ascii.eqb c "_"%char))
      by (eapply all_chars_impl; [|exact Hplain];
          intros c (_ & _ & -> & _)%is_plain_facts; reflexivity).
    rewrite sub_runs_none
      by (eapply all_chars_impl; [|exact Hplain];
          intros c (_ & _ & _ & -> & _)%is_plain_facts; reflexivity).
    rewrite (take_str_all _ _ Hlen).
    assert (all_chars (fun c => negb (is_padding c)) name_part = true) as Hpad
      by (eapply all_chars_impl; [|exact Hplain];
          intros c (_ & _ & _ & _ & ->)%is_plain_facts; reflexivity).
    by rewrite (lstrip_chars_none _ _ Hpad), (rstrip_chars_none _ _ Hpad). }
  destruct ext_part; cbn [truthy lower]; [by rewrite append_empty_r|done].
Qed.

Lemma sanitize_filename_keeps_plain_names_witness :
  sanitize_filename sample_splitext (Some "Menu-2025.v2.PDF") = "Menu-2025.v2.pdf".
Proof.
  apply (sanitize_filename_keeps_plain_names sample_splitext
           "Menu-2025.v2.PDF" "Menu-2025.v2" ".PDF"); [reflexivity..|].
  cbn. lia.
Defined.

End FilesFacts.

(** ** Activity Log *)
Section ActivityLogFacts.
Import Py ActivityLog.

Implicit Types (df : DataFrame) (r e : gmap string pyval) (d : disk)
               (c col : string) (cols : list string).

#[local] Arguments select : simpl never.
#[local] Arguments reindex : simpl never.
#[local] Arguments add_missing_columns : simpl never.
#[local] Arguments concat : simpl never.
#[local] Opaque LOG_COLUMNS_DEFINITION.

Lemma lookup_reindex cols r c :
  reindex cols r !! c =
    if decide (c ∈ cols) then Some (default NA (r !! c)) else None.
Proof.
  unfold reindex. induction cols as [|c0 cols IH].
  - rewrite fmap_nil, list_to_map_nil, lookup_empty.
    destruct (decide (c ∈ [])) as [H|]; [|done]. by apply elem_of_nil in H.
  - rewrite fmap_cons, list_to_map_cons, lookup_insert, IH.
    destruct (decide (c0 = c)) as [->|Hne].
    + rewrite decide_True; [done|]. apply elem_of_cons. by left.
    + destruct (decide (c ∈ cols)) as [Hin|Hnin].
      * rewrite decide_True; [done|]. apply elem_of_cons. by right.
      * rewrite decide_False; [done|]. rewrite elem_of_cons. intros [?|?]; by subst.
Qed.

Lemma reindex_ext cols r r' :
  (∀ c, c ∈ cols → default NA (r !! c) = default NA (r' !! c)) →
  reindex cols r = reindex cols r'.
Proof.
  intros H. apply map_eq. intros c. rewrite !lookup_reindex.
  destruct (decide (c ∈ cols)); [by rewrite H|done].
Qed.

Lemma reindex_idemp cols r : reindex cols (reindex cols r) = reindex cols r.
Proof.
  apply reindex_ext. intros c Hc. rewrite lookup_reindex.
  by rewrite decide_True.
Qed.

Lemma dom_reindex cols r : dom (reindex cols r) = list_to_set cols.
Proof.
  apply set_eq. intros c. rewrite elem_of_dom, lookup_reindex, elem_of_list_to_set.
  destruct (decide (c ∈ cols)); split; intros H; try done; by destruct H.
Qed.

(** A frame in the shape [get_case_log_df] hands out. *)
Definition canonical df : Prop :=
  columns df = LOG_COLUMNS_DEFINITION ∧
  Forall (fun r => reindex LOG_COLUMNS_DEFINITION r = r) (rows df).

Definition add_missing_step df col : DataFrame :=
  if has_column col df then df else set_column col NA df.

Lemma add_missing_columns_unfold df :
  add_missing_columns df = foldl add_missing_step df LOG_COLUMNS_DEFINITION.
Proof. reflexivity. Qed.

Lemma has_column_true col df : has_column col df = true ↔ col ∈ columns df.
Proof. unfold has_column. by rewrite bool_decide_eq_true. Qed.

Lemma add_missing_step_columns df col c :
  c ∈ columns (add_missing_step df col) ↔ c ∈ columns df ∨ c = col.
Proof.
  unfold add_missing_step. destruct (has_column col df) eqn:E.
  - apply has_column_true in E. split; [by left|]. by intros [?| ->].
  - unfold set_column; simpl. rewrite E. set_solver.
Qed.

Lemma foldl_add_missing_columns l df c :
  c ∈ columns (foldl add_missing_step df l) ↔ c ∈ columns df ∨ c ∈ l.
Proof.
  revert df. induction l as [|col l IH]; intros df; simpl.
  - set_solver.
  - rewrite IH, add_missing_step_columns. set_solver.
Qed.

Lemma foldl_add_missing_id l df :
  (∀ c, c ∈ l → c ∈ columns df) → foldl add_missing_step df l = df.
Proof.
  revert df. induction l as [|col l IH]; intros df H; simpl; [done|].
  assert (add_missing_step df col = df) as ->.
  { unfold add_missing_step.
    rewrite (proj2 (has_column_true col df)); [done|]. apply H. set_solver. }
  apply IH. intros c Hc. apply H. set_solver.
Qed.

Lemma select_ok cols df :
  (∀ c, c ∈ cols → c ∈ columns df) →
  select cols df = Ok {| columns := cols; rows := reindex cols <$> rows df |}.
Proof.
  intros H. unfold select.
  assert (forallb (fun c => has_column c df) cols = true) as ->; [|done].
  apply forallb_forall. intros c Hc. apply has_column_true, H.
  by apply list_elem_of_In.
Qed.

Lemma select_add_missing df :
  select LOG_COLUMNS_DEFINITION (add_missing_columns df) =
    Ok {| columns := LOG_COLUMNS_DEFINITION;
          rows := reindex LOG_COLUMNS_DEFINITION <$> rows (add_missing_columns df) |}.
Proof.
  apply select_ok. intros c Hc. rewrite add_missing_columns_unfold.
  apply foldl_add_missing_columns. by right.
Qed.

Lemma canonical_empty : canonical (empty_frame LOG_COLUMNS_DEFINITION).
Proof. split; [done|]. constructor. Qed.

Lemma canonical_rows_fixed df :
  canonical df → reindex LOG_COLUMNS_DEFINITION <$> rows df = rows df.
Proof.
  intros [_ H]. induction H as [|r l Hr _ IH]; [done|].
  rewrite fmap_cons. by f_equal.
Qed.

Lemma canonical_add_missing df : canonical df → add_missing_columns df = df.
Proof.
  intros [Hc _]. rewrite add_missing_columns_unfold.
  apply foldl_add_missing_id. intros c Hin. by rewrite Hc.
Qed.

Ltac run_result :=
  unfold mbind, mret, result_bind, result_ret, Py.bind; cbv beta iota.

Lemma get_case_log_df_body_workbook d df :
  CASE_LOG_FILE d = Some (Workbook df) →
  get_case_log_df_body d =
    Ok ({| columns := LOG_COLUMNS_DEFINITION;
           rows := reindex LOG_COLUMNS_DEFINITION
                     <$> rows (add_missing_columns (read_sheet df)) |},
        d).
Proof.
  intros H. unfold get_case_log_df_body. rewrite H. unfold read_excel.
  run_result. rewrite select_add_missing. reflexivity.
Qed.

Lemma canonical_select df :
  canonical {| columns := LOG_COLUMNS_DEFINITION;
               rows := reindex LOG_COLUMNS_DEFINITION <$> rows df |}.
Proof.
  split; [reflexivity|]. cbn [rows].
  apply Forall_fmap, Forall_true. intros r. apply reindex_idemp.
Qed.

Lemma get_case_log_df_canonical d : canonical (get_case_log_df d).1.
Proof.
  unfold get_case_log_df.
  destruct (CASE_LOG_FILE d) as [[df|]|] eqn:E.
  - rewrite (get_case_log_df_body_workbook d df E). apply canonical_select.
  - unfold get_case_log_df_body. rewrite E. apply canonical_empty.
  - unfold get_case_log_df_body, to_excel. rewrite E.
    destruct (writable d); apply canonical_empty.
Qed.

(** a row with every cell as it is read back *)
Definition read_cells (r : gmap string pyval) : gmap string pyval := read_cell <$> r.

(** a row that has a cell for every column keeps them under a cell-wise
    change *)
Lemma reindex_fmap_reindex (f : pyval → pyval) cols r :
  reindex cols (f <$> reindex cols r) = f <$> reindex cols r.
Proof.
  apply map_eq. intros c. rewrite lookup_reindex, !lookup_fmap, lookup_reindex.
  destruct (decide (c ∈ cols)); reflexivity.
Qed.

Lemma dom_sheet_row cols r : dom (sheet_row cols r) = list_to_set cols.
Proof. unfold sheet_row. by rewrite dom_fmap_L, dom_reindex. Qed.

(** reading a workbook that has the log's columns *)
Lemma read_sheet_canonical df :
  canonical df →
  read_sheet df = {| columns := LOG_COLUMNS_DEFINITION;
                     rows := read_cells <$> rows df |}.
Proof.
  intros [Hc Hr]. unfold read_sheet. rewrite Hc. f_equal.
  induction Hr as [|r l Hfix _ IH]; [reflexivity|].
  rewrite !fmap_cons, IH. unfold sheet_row, read_cells. by rewrite Hfix.
Qed.

Lemma canonical_read df :
  canonical df →
  canonical {| columns := LOG_COLUMNS_DEFINITION; rows := read_cells <$> rows df |}.
Proof.
  intros [_ Hr]. split; [reflexivity|]. cbn [rows].
  apply Forall_fmap. eapply Forall_impl; [exact Hr|]. intros r Hfix. cbn.
  unfold read_cells. rewrite <- Hfix. apply reindex_fmap_reindex.
Qed.

Lemma get_case_log_df_workbook df w :
  canonical df →
  get_case_log_df {| CASE_LOG_FILE := Some (Workbook df); writable := w |} =
    ({| columns := LOG_COLUMNS_DEFINITION; rows := read_cells <$> rows df |},
     {| CASE_LOG_FILE := Some (Workbook df); writable := w |}).
Proof.
  intros Hc. unfold get_case_log_df.
  rewrite (get_case_log_df_body_workbook
             {| CASE_LOG_FILE := Some (Workbook df); writable := w |} df eq_refl).
  rewrite (read_sheet_canonical df Hc).
  pose proof (canonical_read df Hc) as Hc'.
  by rewrite (canonical_add_missing _ Hc'), (canonical_rows_fixed _ Hc').
Qed.

Lemma add_missing_columns2_split n l :
  add_missing_columns2 n l = (add_missing_columns n, add_missing_columns l).
Proof.
  unfold add_missing_columns2, add_missing_columns.
  generalize LOG_COLUMNS_DEFINITION as cs. intros cs. revert n l.
  induction cs as [|c cs IH]; intros n l; simpl; [done|]. apply IH.
Qed.

(** The one-row frame of an entry, while columns are being added to it:
    its columns are the keys of its row, which reads as the entry does. *)
Definition entry_frame e df : Prop :=
  ∃ r, rows df = [r] ∧
       (∀ c, c ∈ columns df ↔ is_Some (r !! c)) ∧
       (∀ c, default NA (r !! c) = default NA (e !! c)).

Lemma entry_frame_init e : entry_frame e (frame_of_dict e).
Proof.
  exists e. split; [reflexivity|]. split; [|reflexivity]. intros c.
  cbn [frame_of_dict columns]. rewrite list_elem_of_fmap. split.
  - intros [[k v] [-> Hin]]. apply elem_of_map_to_list in Hin. by exists v.
  - intros [v Hv]. exists (c, v). split; [done|]. by apply elem_of_map_to_list.
Qed.

Lemma entry_frame_step e df col :
  entry_frame e df → entry_frame e (add_missing_step df col).
Proof.
  intros (r & Hr & Hcols & Hread). unfold add_missing_step.
  destruct (has_column col df) eqn:E; [by exists r|].
  assert (r !! col = None) as Hnone.
  { destruct (r !! col) eqn:Er; [|done].
    assert (col ∈ columns df) as Hin by (apply Hcols; eauto).
    apply has_column_true in Hin. congruence. }
  exists (<[col := NA]> r). unfold set_column. cbn [rows columns].
  rewrite E, Hr. split; [reflexivity|]. split.
  - intros c. rewrite elem_of_app, list_elem_of_singleton, Hcols, lookup_insert.
    destruct (decide (col = c)) as [->|Hne]; split; eauto.
    + intros [?|?]; [done|]. by subst.
  - intros c. rewrite lookup_insert. destruct (decide (col = c)) as [->|Hne].
    + rewrite <- Hread, Hnone. done.
    + apply Hread.
Qed.

Lemma entry_frame_add_missing e :
  entry_frame e (add_missing_columns (frame_of_dict e)).
Proof.
  rewrite add_missing_columns_unfold.
  generalize (entry_frame_init e). generalize (frame_of_dict e) as df.
  induction LOG_COLUMNS_DEFINITION as [|c cs IH]; intros df H; simpl; [done|].
  apply IH. by apply entry_frame_step.
Qed.

Lemma concat_canonical df_log new :
  columns df_log = LOG_COLUMNS_DEFINITION →
  columns new = LOG_COLUMNS_DEFINITION →
  concat df_log new =
    {| columns := LOG_COLUMNS_DEFINITION;
       rows := reindex LOG_COLUMNS_DEFINITION <$> (rows df_log ++ rows new) |}.
Proof.
  intros Ha Hb. unfold concat. rewrite Ha, Hb.
  assert (filter (fun c => c ∉ LOG_COLUMNS_DEFINITION) LOG_COLUMNS_DEFINITION = [])
    as -> by (vm_compute; reflexivity).
  by rewrite app_nil_r.
Qed.

(** What a successful append leaves on disk: the table read before it,
    followed by the entry seen through the canonical columns. *)
Lemma append_to_case_log_disk e d d' :
  append_to_case_log e d = (true, d') →
  d' = {| CASE_LOG_FILE :=
            Some (Workbook {| columns := LOG_COLUMNS_DEFINITION;
                              rows := rows (get_all d) ++
                                      [reindex LOG_COLUMNS_DEFINITION e] |});
          writable := true |}.
Proof.
  unfold append_to_case_log, get_all.
  pose proof (get_case_log_df_canonical d) as Hcan.
  destruct (get_case_log_df d) as [df_log d1]. cbn [fst snd] in *.
  unfold append_to_case_log_body. rewrite add_missing_columns2_split.
  rewrite !select_add_missing. run_result.
  rewrite (canonical_add_missing _ Hcan), (canonical_rows_fixed _ Hcan).
  destruct (entry_frame_add_missing e) as (r & Hr & _ & Hread). rewrite Hr.
  rewrite concat_canonical by reflexivity. cbn [rows].
  unfold to_excel. destruct (writable d1); [|discriminate].
  intros [= <-]. do 3 f_equal.
  rewrite fmap_app, (canonical_rows_fixed _ Hcan). f_equal.
  rewrite !fmap_cons, fmap_nil, reindex_idemp. f_equal.
  f_equal. apply reindex_ext. intros c _. apply Hread.
Qed.


(** *** What is read back *)










(** C5.  The row persisted by a successful append carries exactly the
    canonical columns; a canonical field the entry omits (such as
    "Duration (seconds)") is stored as NA, and a canonical field the
    entry supplies is stored with the value given. *)
Theorem append_fills_missing_fields e d d' :
  append_to_case_log e d = (true, d') →
  ∃ df row,
    CASE_LOG_FILE d' = Some (Workbook df) ∧
    columns df = LOG_COLUMNS_DEFINITION ∧
    last (rows df) = Some row ∧
    dom row = list_to_set LOG_COLUMNS_DEFINITION ∧
    (e !! "Duration (seconds)" = None → row !! "Duration (seconds)" = Some NA) ∧
    ∀ c, c ∈ LOG_COLUMNS_DEFINITION →
         (e !! c = None → row !! c = Some NA) ∧
         (∀ v, e !! c = Some v → row !! c = Some v).
Proof.
  intros H. apply append_to_case_log_disk in H. subst d'.
  eexists _, (reindex LOG_COLUMNS_DEFINITION e). cbn [CASE_LOG_FILE].
  split; [reflexivity|]. split; [reflexivity|]. split; [apply last_snoc|].
  split; [apply dom_reindex|].
  assert (∀ c, c ∈ LOG_COLUMNS_DEFINITION →
               (e !! c = None → reindex LOG_COLUMNS_DEFINITION e !! c = Some NA) ∧
               (∀ v, e !! c = Some v →
                     reindex LOG_COLUMNS_DEFINITION e !! c = Some v)) as Hall.
  { intros c Hc. rewrite lookup_reindex, decide_True by exact Hc.
    split; [intros ->|intros v ->]; reflexivity. }
  split; [|exact Hall]. apply Hall.
  apply list_elem_of_In. vm_compute. tauto.
Qed.


Lemma append_fills_missing_fields_witness :
  let e : gmap string pyval :=
    <["Date" := Str "2025-03-02"]> (<["Case Display ID" := Str "T-7"]> ∅) in
  let d := {| CASE_LOG_FILE := None; writable := true |} in
  ∃ df row,
    CASE_LOG_FILE (append_to_case_log e d).2 = Some (Workbook df) ∧
    columns df = LOG_COLUMNS_DEFINITION ∧
    last (rows df) = Some row ∧
    dom row = list_to_set LOG_COLUMNS_DEFINITION ∧
    (e !! "Duration (seconds)" = None → row !! "Duration (seconds)" = Some NA) ∧
    ∀ c, c ∈ LOG_COLUMNS_DEFINITION →
         (e !! c = None → row !! c = Some NA) ∧
         (∀ v, e !! c = Some v → row !! c = Some v).
Proof.
  intros e d. apply (append_fills_missing_fields e d). vm_compute. reflexivity.
Defined.

End ActivityLogFacts.

(** ** Activity Log: reading, failing and repeated appends *)
Section ActivityLogEdges.
Import Py ActivityLog.

Implicit Types (df : DataFrame) (r e : gmap string pyval) (d : disk)
               (es : list (gmap string pyval)).

#[local] Arguments select : simpl never.
#[local] Arguments reindex : simpl never.
#[local] Arguments add_missing_columns : simpl never.
#[local] Arguments concat : simpl never.
#[local] Opaque LOG_COLUMNS_DEFINITION.

(** the disk on which [get_case_log_df] has just created the log *)
Definition created_log : disk :=
  {| CASE_LOG_FILE := Some (Workbook (empty_frame LOG_COLUMNS_DEFINITION));
     writable := true |}.

(** the disk holding the log [rows] *)
Definition log_with (rows : list (gmap string pyval)) : disk :=
  {| CASE_LOG_FILE := Some (Workbook {| columns := LOG_COLUMNS_DEFINITION;
                                        rows := rows |});
     writable := true |}.

Lemma get_case_log_df_missing d :
  CASE_LOG_FILE d = None →
  get_case_log_df d =
    (empty_frame LOG_COLUMNS_DEFINITION, if writable d then created_log else d).
Proof.
  intros E. unfold get_case_log_df, get_case_log_df_body, to_excel. rewrite E.
  destruct (writable d); reflexivity.
Qed.

Lemma get_case_log_df_garbage d :
  CASE_LOG_FILE d = Some Garbage →
  get_case_log_df d = (empty_frame LOG_COLUMNS_DEFINITION, d).
Proof.
  intros E. unfold get_case_log_df, get_case_log_df_body. rewrite E. reflexivity.
Qed.

Lemma get_case_log_df_keeps_workbook d df :
  CASE_LOG_FILE d = Some (Workbook df) → (get_case_log_df d).2 = d.
Proof.
  intros E. unfold get_case_log_df.
  by rewrite (get_case_log_df_body_workbook d df E).
Qed.

Lemma get_case_log_df_disk d :
  (get_case_log_df d).2 =
    match CASE_LOG_FILE d with
    | None => if writable d then created_log else d
    | Some _ => d
    end.
Proof.
  destruct (CASE_LOG_FILE d) as [[df|]|] eqn:E.
  - by apply get_case_log_df_keeps_workbook with df.
  - by rewrite get_case_log_df_garbage.
  - by rewrite get_case_log_df_missing.
Qed.

Lemma get_case_log_df_writable d :
  writable (get_case_log_df d).2 = writable d.
Proof.
  rewrite get_case_log_df_disk.
  destruct (CASE_LOG_FILE d); [done|]. by destruct (writable d) eqn:E.
Qed.

Lemma get_case_log_df_created :
  get_case_log_df created_log = (empty_frame LOG_COLUMNS_DEFINITION, created_log).
Proof.
  unfold created_log. by rewrite (get_case_log_df_workbook _ true canonical_empty).
Qed.

(** X1.  [get_case_log_df] always returns a frame with exactly the
    columns of [LOG_COLUMNS_DEFINITION].  It writes to the disk in one
    case only, a missing file in a writable location, where it creates
    the empty log; a file that cannot be read, or a missing file that
    cannot be created, gives the empty frame and leaves the disk as it
    was. *)
Theorem log_read_effect d :
  columns (get_case_log_df d).1 = LOG_COLUMNS_DEFINITION ∧
  (get_case_log_df d).2 =
    match CASE_LOG_FILE d with
    | None => if writable d then created_log else d
    | Some _ => d
    end ∧
  ((∀ df, CASE_LOG_FILE d ≠ Some (Workbook df)) →
   (get_case_log_df d).1 = empty_frame LOG_COLUMNS_DEFINITION).
Proof.
  split; [apply get_case_log_df_canonical|].
  split; [apply get_case_log_df_disk|].
  intros Hno. destruct (CASE_LOG_FILE d) as [[df|]|] eqn:E.
  - by destruct (Hno df).
  - by rewrite get_case_log_df_garbage.
  - by rewrite get_case_log_df_missing.
Qed.

Lemma log_read_effect_witness :
  let d := {| CASE_LOG_FILE := Some Garbage; writable := true |} in
  get_case_log_df d = (empty_frame LOG_COLUMNS_DEFINITION, d).
Proof.
  intros d. destruct (log_read_effect d) as (_ & Hdisk & Hempty).
  rewrite (surjective_pairing (get_case_log_df d)), Hdisk, Hempty; [reflexivity|].
  intros df. discriminate.
Defined.

(** X2.  Reading the log is idempotent: a second [get_case_log_df]
    returns the frame the first one returned and leaves the disk as the
    first one left it, whatever the disk held. *)
Theorem log_read_idempotent d :
  get_case_log_df (get_case_log_df d).2 = get_case_log_df d.
Proof.
  destruct (CASE_LOG_FILE d) as [[df|]|] eqn:E.
  - by rewrite (get_case_log_df_keeps_workbook d df E).
  - rewrite (get_case_log_df_garbage d E). cbn [snd].
    apply (get_case_log_df_garbage d E).
  - rewrite (get_case_log_df_missing d E). cbn [snd].
    destruct (writable d) eqn:Hw.
    + apply get_case_log_df_created.
    + rewrite (get_case_log_df_missing d E), Hw. reflexivity.
Qed.

(** the append, once the two frames are brought to the log's columns:
    everything hinges on the final [to_excel] *)
Lemma append_to_case_log_unfold e d :
  append_to_case_log e d =
    match to_excel {| columns := LOG_COLUMNS_DEFINITION;
                      rows := rows (get_all d) ++ [reindex LOG_COLUMNS_DEFINITION e] |}
                   (get_case_log_df d).2 with
    | Ok d2 => (true, d2)
    | Raise _ => (false, (get_case_log_df d).2)
    end.
Proof.
  unfold append_to_case_log, get_all.
  pose proof (get_case_log_df_canonical d) as Hcan.
  destruct (get_case_log_df d) as [df_log d1]. cbn [fst snd] in *.
  unfold append_to_case_log_body. rewrite add_missing_columns2_split.
  rewrite !select_add_missing.
  unfold mbind, mret, result_bind, result_ret, Py.bind; cbv beta iota.
  rewrite (canonical_add_missing _ Hcan), (canonical_rows_fixed _ Hcan).
  destruct (entry_frame_add_missing e) as (r & Hr & _ & Hread). rewrite Hr.
  rewrite concat_canonical by reflexivity. cbn [rows].
  rewrite fmap_app, (canonical_rows_fixed _ Hcan).
  rewrite !fmap_cons, fmap_nil, reindex_idemp.
  rewrite (reindex_ext LOG_COLUMNS_DEFINITION r e) by (intros c _; apply Hread).
  reflexivity.
Qed.

Lemma append_to_case_log_writable e d :
  writable d = true →
  append_to_case_log e d =
    (true, log_with (rows (get_all d) ++ [reindex LOG_COLUMNS_DEFINITION e])).
Proof.
  intros Hw. rewrite append_to_case_log_unfold. unfold to_excel.
  by rewrite get_case_log_df_writable, Hw.
Qed.


(** without a workbook at [CASE_LOG_FILE], the log reads as empty *)
Lemma get_all_no_workbook d :
  (∀ df, CASE_LOG_FILE d ≠ Some (Workbook df)) →
  get_all d = empty_frame LOG_COLUMNS_DEFINITION.
Proof.
  intros Hno. unfold get_all. destruct (CASE_LOG_FILE d) as [[df|]|] eqn:E.
  - by destruct (Hno df).
  - by rewrite get_case_log_df_garbage.
  - by rewrite get_case_log_df_missing.
Qed.

(** X3.  In a writable location [append_to_case_log] always succeeds:
    it returns [True] and leaves a workbook that holds the rows read
    before and the new entry after them, in a location that stays
    writable.  When the file did not exist or could not be read, the
    workbook left holds the new entry alone: an unreadable file is
    overwritten. *)
Theorem append_succeeds_when_writable e d :
  writable d = true →
  (append_to_case_log e d).1 = true ∧
  (append_to_case_log e d).2 =
    {| CASE_LOG_FILE :=
         Some (Workbook {| columns := LOG_COLUMNS_DEFINITION;
                           rows := rows (get_all d) ++
                                   [reindex LOG_COLUMNS_DEFINITION e] |});
       writable := true |} ∧
  ((∀ df, CASE_LOG_FILE d ≠ Some (Workbook df)) →
   CASE_LOG_FILE (append_to_case_log e d).2 =
     Some (Workbook {| columns := LOG_COLUMNS_DEFINITION;
                       rows := [reindex LOG_COLUMNS_DEFINITION e] |})).
Proof.
  intros Hw. rewrite append_to_case_log_unfold. unfold to_excel.
  rewrite get_case_log_df_writable, Hw. cbn [fst snd CASE_LOG_FILE].
  split; [reflexivity|]. split; [reflexivity|].
  intros Hno. by rewrite (get_all_no_workbook d Hno).
Qed.

Lemma append_succeeds_when_writable_witness :
  let e : gmap string pyval := <["Case Display ID" := Str "T-7"]> ∅ in
  let d := {| CASE_LOG_FILE := Some Garbage; writable := true |} in
  (append_to_case_log e d).1 = true ∧
  CASE_LOG_FILE (append_to_case_log e d).2 =
    Some (Workbook {| columns := LOG_COLUMNS_DEFINITION;
                      rows := [reindex LOG_COLUMNS_DEFINITION e] |}).
Proof.
  intros e d. destruct (append_succeeds_when_writable e d eq_refl) as (H1 & _ & H3).
  split; [exact H1|]. apply H3. intros df. discriminate.
Defined.

(** X4.  When the location is not writable, [append_to_case_log]
    returns [False] and the disk is left exactly as it was: no row is
    added, none is lost, and a missing file is not created. *)
Theorem append_fails_when_readonly e d :
  writable d = false → append_to_case_log e d = (false, d).
Proof.
  intros Hw. rewrite append_to_case_log_unfold. unfold to_excel.
  rewrite get_case_log_df_writable, Hw, get_case_log_df_disk.
  destruct (CASE_LOG_FILE d); [done|]. by rewrite Hw.
Qed.

Lemma append_fails_when_readonly_witness :
  let e : gmap string pyval := <["Case Display ID" := Str "T-7"]> ∅ in
  let d := {| CASE_LOG_FILE := None; writable := false |} in
  append_to_case_log e d = (false, d).
Proof. intros e d. apply append_fails_when_readonly. reflexivity. Defined.

(** the entries logged one after the other *)
Definition append_all es d : disk :=
  foldl (fun d e => (append_to_case_log e d).2) d es.

Lemma append_all_readonly es d : writable d = false → append_all es d = d.
Proof.
  intros Hw. induction es as [|e es IH]; [reflexivity|].
  unfold append_all. cbn [foldl]. rewrite append_to_case_log_unfold. unfold to_excel.
  rewrite get_case_log_df_writable, Hw, get_case_log_df_disk. cbn [snd].
  destruct (CASE_LOG_FILE d); [exact IH|]. rewrite Hw. exact IH.
Qed.





End ActivityLogEdges.

(** ** Field extraction *)
Section TaskBoardFacts.
Import Py TaskBoard Samples.

Implicit Types (w : element) (e : exn) (s name : string).

Lemma extract_field_data_absent w name span dflt :
  field_absent_or_empty w name span →
  extract_field_data (WebElement w) name span dflt = Ok dflt.
Proof.
  unfold extract_field_data, extract_field_data_try.
  intros [H | cd rest H1 H2 | cd rest tg rest' raw H1 H2 H3 Hblank].
  - rewrite H. reflexivity.
  - rewrite H1. cbn. rewrite H2. reflexivity.
  - rewrite H1. cbn. rewrite H2. cbn. rewrite H3. cbn.
    destruct (truthy raw); [rewrite Hblank|]; reflexivity.
Qed.

Lemma truthy_nonempty s : s ≠ "" → truthy s = true.
Proof. by destruct s. Qed.

Lemma strip_empty : strip "" = "".
Proof. reflexivity. Qed.

Lemma extract_field_data_shows w name span dflt raw :
  field_shows w name span raw →
  extract_field_data (WebElement w) name span dflt = Ok (strip raw).
Proof.
  unfold extract_field_data, extract_field_data_try.
  intros [cd rest tg rest' H1 H2 H3 Hne].
  rewrite H1. cbn. rewrite H2. cbn. rewrite H3. cbn.
  assert (truthy raw = true) as ->.
  { destruct raw; [by rewrite strip_empty in Hne|reflexivity]. }
  by rewrite truthy_nonempty.
Qed.

Lemma extract_field_data_try_raises w name span dflt e :
  field_raises w name span e →
  extract_field_data_try w name span dflt = Raise e.
Proof.
  unfold extract_field_data_try.
  intros [H | cd rest H1 H2 | cd rest tg rest' H1 H2 H3].
  - rewrite H. reflexivity.
  - rewrite H1. cbn. rewrite H2. reflexivity.
  - rewrite H1. cbn. rewrite H2. cbn. rewrite H3. reflexivity.
Qed.

(** C6.  [extract_field(row, name)] either returns a string or raises.
    A handle that is no web element, a field that is absent or blank,
    and any failure that is neither a stale-row nor a session error
    give "Not Specified"; a field that shows text gives that text,
    trimmed; a [StaleElementReferenceException] and any other
    [WebDriverException] raised while reading the field are raised
    again to the caller, and nothing else is ever raised. *)
Theorem extract_field_contract w name :
  extract_field NotAWebElement name = Ok "Not Specified" ∧
  (field_absent_or_empty w name TEXT_SPAN →
     extract_field (WebElement w) name = Ok "Not Specified") ∧
  (∀ raw, field_shows w name TEXT_SPAN raw →
     extract_field (WebElement w) name = Ok (strip raw)) ∧
  (field_raises w name TEXT_SPAN StaleElementReferenceException →
     extract_field (WebElement w) name = Raise StaleElementReferenceException) ∧
  (∀ e, field_raises w name TEXT_SPAN e →
     isinstance_WebDriverException e = true → e ≠ NoSuchElementException →
     extract_field (WebElement w) name = Raise e) ∧
  (∀ e, field_raises w name TEXT_SPAN e →
     e = NoSuchElementException ∨ isinstance_WebDriverException e = false →
     extract_field (WebElement w) name = Ok "Not Specified") ∧
  (∀ e, extract_field (WebElement w) name = Raise e →
     field_raises w name TEXT_SPAN e ∧ isinstance_WebDriverException e = true ∧
     e ≠ NoSuchElementException).
Proof.
  unfold extract_field.
  split; [reflexivity|].
  split; [apply extract_field_data_absent|].
  split; [intros raw; apply extract_field_data_shows|].
  split.
  { intros H. unfold extract_field_data.
    by rewrite (extract_field_data_try_raises _ _ _ _ _ H). }
  split.
  { intros e H Hwd Hne. unfold extract_field_data.
    rewrite (extract_field_data_try_raises _ _ _ _ _ H).
    destruct e; try reflexivity; [congruence|discriminate]. }
  split.
  { intros e H He. unfold extract_field_data.
    rewrite (extract_field_data_try_raises _ _ _ _ _ H).
    destruct He as [->|He]; [reflexivity|]. destruct e; try discriminate.
    reflexivity. }
  intros e. unfold extract_field_data.
  destruct (extract_field_data_try w name TEXT_SPAN "Not Specified") as [s|e'] eqn:E;
    [discriminate|].
  assert (field_raises w name TEXT_SPAN e') as Hr.
  { revert E. unfold extract_field_data_try.
    destruct (find_elements w (column_div_xpath name)) as [[|cd rest]|e1] eqn:E1;
      cbn; try discriminate.
    - destruct (find_elements cd ("." +:+ TEXT_SPAN)) as [[|tg rest']|e2] eqn:E2;
        cbn; try discriminate.
      + destruct (text tg) as [raw|e3] eqn:E3; cbn; try discriminate.
        intros [= <-]. by eapply text_raises.
      + intros [= <-]. by eapply span_lookup_raises.
    - intros [= <-]. by apply column_lookup_raises. }
  destruct e'; cbn; intros [= <-]; (split; [exact Hr|split; [reflexivity|discriminate]]).
Qed.

Lemma extract_field_contract_witness :
  extract_field (WebElement status_row) "Status" = Ok "Not Started" ∧
  extract_field (WebElement status_row) "Country" = Ok "Not Specified".
Proof.
  split.
  - apply (proj1 (proj2 (proj2 (extract_field_contract status_row "Status")))
             " Not Started ").
    eapply shows_text; [reflexivity|reflexivity|reflexivity|discriminate].
  - apply (proj1 (proj2 (extract_field_contract status_row "Country"))).
    apply no_column_div. reflexivity.
Defined.

End TaskBoardFacts.

(** ** Task Board: the text a field read returns *)
Section TaskBoardValues.
Import Py TaskBoard.

Implicit Types (s : string) (c : ascii).

Lemma rstrip_cons c s :
  rstrip (String c s) =
    if is_space_char (String c (rstrip s)) then "" else String c (rstrip s).
Proof. reflexivity. Qed.

Lemma rstrip_idemp s : rstrip (rstrip s) = rstrip s.
Proof.
  induction s as [|c s IH]; [reflexivity|]. rewrite rstrip_cons.
  destruct (is_space_char (String c (rstrip s))) eqn:E; [reflexivity|].
  by rewrite rstrip_cons, IH, E.
Qed.

(** the rest of a string behind its first character, when that is white
    space *)
Definition skip_space s : option string :=
  match s with
  | String a (String b (String c t)) =>
      if is_space a then Some (String b (String c t))
      else if is_space2 a b then Some (String c t)
      else if is_space3 a b c then Some t else None
  | String a (String b "") =>
      if is_space a then Some (String b "") else if is_space2 a b then Some "" else None
  | String a "" => if is_space a then Some "" else None
  | "" => None
  end.

Lemma lstrip_skip s :
  lstrip s = match skip_space s with Some t => lstrip t | None => s end.
Proof.
  destruct s as [|a [|b [|c t]]]; cbn [lstrip skip_space]; try reflexivity.
  - by destruct (is_space a).
  - destruct (is_space a); [reflexivity|]. by destruct (is_space2 a b).
  - destruct (is_space a); [reflexivity|]. destruct (is_space2 a b); [reflexivity|].
    by destruct (is_space3 a b c).
Qed.

Lemma skip_space_shorter s t :
  skip_space s = Some t → (String.length t < String.length s)%nat.
Proof.
  destruct s as [|a [|b [|c u]]]; cbn [skip_space]; try discriminate.
  - destruct (is_space a); [|discriminate]. intros [= <-]. cbn. lia.
  - destruct (is_space a); [intros [= <-]; cbn; lia|].
    destruct (is_space2 a b); [|discriminate]. intros [= <-]. cbn. lia.
  - destruct (is_space a); [intros [= <-]; cbn; lia|].
    destruct (is_space2 a b); [intros [= <-]; cbn; lia|].
    destruct (is_space3 a b c); [|discriminate]. intros [= <-]. cbn. lia.
Qed.

(** what [lstrip] returns does not begin with white space *)
Lemma lstrip_visible s : skip_space (lstrip s) = None.
Proof.
  remember (String.length s) as n eqn:Hn. revert s Hn.
  induction n as [n IH] using lt_wf_ind. intros s ->.
  rewrite lstrip_skip. destruct (skip_space s) as [t|] eqn:E; [|exact E].
  apply (IH (String.length t)); [by apply skip_space_shorter|reflexivity].
Qed.

(** a string that begins with white space does so whatever follows the
    white-space character *)
Lemma skip_space_prefix s t :
  skip_space s = Some t → ∃ p, is_space_char p = true ∧ s = p +:+ t.
Proof.
  intros H. destruct s as [|a [|b [|c v]]]; cbn [skip_space] in H; try discriminate.
  - destruct (is_space a) eqn:Ha; [|discriminate]. injection H as <-.
    by exists (String a "").
  - destruct (is_space a) eqn:Ha; [injection H as <-; by exists (String a "")|].
    destruct (is_space2 a b) eqn:Hb; [|discriminate]. injection H as <-.
    by exists (String a (String b "")).
  - destruct (is_space a) eqn:Ha; [injection H as <-; by exists (String a "")|].
    destruct (is_space2 a b) eqn:Hb;
      [injection H as <-; by exists (String a (String b ""))|].
    destruct (is_space3 a b c) eqn:Hc; [|discriminate]. injection H as <-.
    by exists (String a (String b (String c ""))).
Qed.

Lemma skip_space_app p t : is_space_char p = true → skip_space (p +:+ t) = Some t.
Proof.
  destruct p as [|a [|b [|c [|x p]]]]; cbn [is_space_char]; try discriminate.
  - intros Ha. change (String a "" +:+ t) with (String a t).
    destruct t as [|b [|c t]]; cbn [skip_space]; by rewrite Ha.
  - intros Hb. change (String a (String b "") +:+ t) with (String a (String b t)).
    assert (is_space a = false) as Ha.
    { unfold is_space2 in Hb. apply andb_prop in Hb as [Hb _].
      apply Nat.eqb_eq in Hb. unfold is_space. by rewrite Hb. }
    destruct t as [|c t]; cbn [skip_space]; by rewrite Ha, Hb.
  - intros Hc.
    change (String a (String b (String c "")) +:+ t)
      with (String a (String b (String c t))).
    assert (is_space a = false ∧ is_space2 a b = false) as [Ha Hb].
    { unfold is_space3 in Hc. unfold is_space, is_space2.
      destruct (nat_of_ascii a =? 225)%nat eqn:E1;
        [apply Nat.eqb_eq in E1; by rewrite E1|].
      destruct (nat_of_ascii a =? 226)%nat eqn:E2;
        [apply Nat.eqb_eq in E2; by rewrite E2|].
      destruct (nat_of_ascii a =? 227)%nat eqn:E3;
        [apply Nat.eqb_eq in E3; by rewrite E3|].
      cbn [andb orb] in Hc. discriminate Hc. }
    cbn [skip_space]. by rewrite Ha, Hb, Hc.
Qed.

(** [rstrip] keeps a beginning of the string *)
Lemma rstrip_prefix s : ∃ t, s = rstrip s +:+ t.
Proof.
  induction s as [|c s [t IH]]; [by exists ""|]. rewrite rstrip_cons.
  destruct (is_space_char (String c (rstrip s))).
  - by exists (String c s).
  - exists t. change (String c (rstrip s) +:+ t) with (String c (rstrip s +:+ t)).
    by rewrite <- IH.
Qed.

Lemma append_assoc_string (a b c : string) : (a +:+ b) +:+ c = a +:+ (b +:+ c).
Proof.
  induction a as [|x a IH]; [reflexivity|].
  change (String x ((a +:+ b) +:+ c) = String x (a +:+ (b +:+ c))). by rewrite IH.
Qed.

(** [strip] returns text without white space at either end *)
Lemma strip_idemp s : strip (strip s) = strip s.
Proof.
  unfold strip. pose proof (lstrip_visible s) as Hvis.
  generalize dependent (lstrip s). intros u Hvis.
  assert (lstrip (rstrip u) = rstrip u) as ->; [|apply rstrip_idemp].
  rewrite lstrip_skip. destruct (skip_space (rstrip u)) as [t|] eqn:E; [|reflexivity].
  exfalso. destruct (skip_space_prefix _ _ E) as (p & Hp & Hr).
  destruct (rstrip_prefix u) as [v Hu]. rewrite Hr, append_assoc_string in Hu.
  rewrite Hu, (skip_space_app p _ Hp) in Hvis. discriminate Hvis.
Qed.

(** a no-break space (U+00A0) in front and an em space (U+2003) and a
    blank behind are stripped *)
Example strip_unicode_space :
  strip (String (ascii_of_nat 194) (String (ascii_of_nat 160)
           ("Not Started" +:+
            String (ascii_of_nat 226) (String (ascii_of_nat 128)
              (String (ascii_of_nat 131) " ")))))
  = "Not Started".
Proof. vm_compute. reflexivity. Qed.

Lemma truthy_true s : truthy s = true → s ≠ "".
Proof. by destruct s. Qed.

(** X6.  Whatever the row, the column, the span and the default are, a
    field read that returns gives either the default or text that is
    not empty and has no blank at either end: a cell is never reported
    as blank or padded text. *)
Theorem extract_field_data_trimmed (row_element : row_handle)
    (column_name span_sub_xpath default_value s : string) :
  extract_field_data row_element column_name span_sub_xpath default_value = Ok s →
  s = default_value ∨ (s ≠ "" ∧ strip s = s).
Proof.
  destruct row_element as [|w]; cbn [extract_field_data].
  { intros [= <-]. by left. }
  destruct (extract_field_data_try w column_name span_sub_xpath default_value)
    as [field_text|e] eqn:E.
  - intros [= <-]. revert E. unfold extract_field_data_try.
    unfold mbind, result_bind, Py.bind.
    destruct (find_elements w _) as [[|column_div ?]|?]; [|..|discriminate].
    { intros [= <-]. by left. }
    destruct (find_elements column_div _) as [[|target_element ?]|?]; [|..|discriminate].
    { intros [= <-]. by left. }
    destruct (text target_element) as [raw_text|]; [|discriminate].
    intros [= <-]. destruct (truthy raw_text); [|by left].
    destruct (truthy (strip raw_text)) eqn:Ht; [|by left].
    right. split; [by apply truthy_true|apply strip_idemp].
  - destruct e; cbn [isinstance_WebDriverException]; try discriminate;
      intros [= <-]; by left.
Qed.

Lemma extract_field_data_trimmed_witness :
  "Not Started" = "Status Not Specified" ∨
  ("Not Started" ≠ "" ∧ strip "Not Started" = "Not Started").
Proof.
  apply (extract_field_data_trimmed (WebElement Samples.status_row) "Status"
           TEXT_SPAN "Status Not Specified").
  reflexivity.
Defined.

End TaskBoardValues.

(** ** One pass of the coordinator *)
Section ClaimerFacts.
Import Py TaskBoard Shared Claimer.

Implicit Types (st : pass_state) (env : row_env) (f : row_fields) (g : shared)
               (tr new : list step) (ctl : control) (i k : nat).

(** the position a trace entry speaks of *)
Definition index_of (x : step) : nat :=
  match x with
  | RowScan i _ _ _ _ | PotentialClaim i _ _ | ClaimSuccess i _ _ => i
  end.

(** the decision of l.1343-1347 as a function of what the row shows *)
Definition slot_for (country status : string) (pt gh : bool) : option string :=
  if String.eqb country "Portugal" && String.eqb status "Not Started" && negb pt
  then Some "Portugal"
  else if String.eqb country "Ghana" && String.eqb status "Not Started" && negb gh
  then Some "Ghana"
  else None.

Lemma claim_decision_slot_for f pt gh :
  claim_this_case_for_country_slot f pt gh =
  slot_for (country_from_row f) (status f) pt gh.
Proof. reflexivity. Qed.

Lemma slot_for_Some country status pt gh slot :
  slot_for country status pt gh = Some slot ↔
  status = "Not Started" ∧ country = slot ∧
  ((slot = "Portugal" ∧ pt = false) ∨ (slot = "Ghana" ∧ gh = false)).
Proof.
  unfold slot_for.
  destruct (String.eqb_spec country "Portugal") as [Hc|Hc],
           (String.eqb_spec country "Ghana") as [Hg|Hg],
           (String.eqb_spec status "Not Started") as [Hs|Hs], pt, gh;
    cbn [andb negb];
    (split; [intros [= <-]|intros (? & <- & [[? ?]|[? ?]])]);
    try discriminate; try congruence; auto.
Qed.

(** the way back to the board after a started claim either works or
    fails inside the Selenium hierarchy: in both cases the loop is left *)
Definition leaves_loop (nav : result unit) : Prop :=
  match nav with
  | Ok _ => True
  | Raise e => isinstance_WebDriverException e = true
  end.

(** What one turn adds to the trace. *)
Inductive row_steps i (pt gh : bool) env : list step → control → Prop :=
| rs_nothing ctl : row_steps i pt gh env [] ctl
| rs_scanned f ctl :
    claim_this_case_for_country_slot f pt gh = None →
    row_steps i pt gh env
      [RowScan i (display_id f) (country_from_row f) (status f) (user_email_on_row f)]
      ctl
| rs_attempted f slot ctl :
    claim_this_case_for_country_slot f pt gh = Some slot →
    row_steps i pt gh env
      [RowScan i (display_id f) (country_from_row f) (status f) (user_email_on_row f);
       PotentialClaim i slot (display_id f)]
      ctl
| rs_claimed f slot claimed_time scraped nav ctl :
    claim_this_case_for_country_slot f pt gh = Some slot →
    claim_actions env = ClaimStarted claimed_time scraped nav →
    (leaves_loop nav → ctl = Break) →
    row_steps i pt gh env
      [RowScan i (display_id f) (country_from_row f) (status f) (user_email_on_row f);
       PotentialClaim i slot (display_id f);
       ClaimSuccess i slot (display_id f)]
      ctl.

Lemma claim_failed_trace e env st st' ctl :
  claim_failed e env st = (st', ctl) → trace st' = trace st.
Proof.
  unfold claim_failed. destruct (isinstance_WebDriverException e).
  - by intros [= <- <-].
  - destruct (navigate_back env) as [|e']; [by intros [= <- <-]|].
    destruct (isinstance_WebDriverException e'); by intros [= <- <-].
Qed.

Lemma row_failed_trace e st st' ctl :
  row_failed e st = (st', ctl) → trace st' = trace st.
Proof. destruct e; cbn; by intros [= <- <-]. Qed.

Lemma end_of_row_trace st st' ctl :
  end_of_row st = (st', ctl) → trace st' = trace st.
Proof. unfold end_of_row. case_bool_decide; by intros [= <- <-]. Qed.

Lemma log_colleague_trace env row f st st' :
  log_colleague env row f st = Ok st' → trace st' = trace st.
Proof.
  unfold log_colleague.
  destruct (_ && _); [|by intros [= <-]].
  case_bool_decide; [|by intros [= <-]].
  destruct (extract_field_data _ "Account Name" _ _); [|discriminate].
  destruct (extract_field_data _ "Case Title" _ _); [|discriminate].
  destruct (extract_field_data _ "Menu link" _ _); [|discriminate].
  cbn. by intros [= <-].
Qed.

Lemma colleague_trace env row f st st' ctl :
  match log_colleague env row f st with
  | Ok st1 => end_of_row st1
  | Raise e => row_failed e st
  end = (st', ctl) →
  trace st' = trace st.
Proof.
  destruct (log_colleague env row f st) as [st1|e] eqn:E.
  - intros H%end_of_row_trace. rewrite H. by eapply log_colleague_trace.
  - apply row_failed_trace.
Qed.

Lemma scan_row_steps i env pt gh st st' ctl :
  scan_row i env pt gh st = (st', ctl) →
  ∃ new, trace st' = trace st ++ new ∧ row_steps i pt gh env new ctl.
Proof.
  unfold scan_row.
  set (st0 := with_globals st _).
  assert (trace st0 = trace st) as <- by reflexivity. clearbody st0.
  destruct (stop_event_claimer (globals st0)).
  { intros [= <- <-]. exists []. split; [by rewrite app_nil_r|constructor]. }
  destruct (locate_and_read i env) as [[[row f]|]|e].
  - set (st1 := with_step st0 _).
    destruct (claim_this_case_for_country_slot f pt gh) as [slot|] eqn:Hslot.
    + set (st2 := with_step st1 _).
      destruct (read_claim_fields row) as [cf|e].
      * unfold attempt_claim.
        destruct (claim_actions env) as [e|claimed_time scraped nav] eqn:Hclaim.
        -- destruct (claim_failed e env st2) as [st3 [|]] eqn:Hf;
             apply claim_failed_trace in Hf.
           ++ intros H%colleague_trace. eexists. split; [|by eapply rs_attempted].
              rewrite H, Hf. subst st2 st1. cbn. by rewrite <- app_assoc.
           ++ intros [= <- <-]. eexists. split; [|by eapply rs_attempted].
              rewrite Hf. subst st2 st1. cbn. by rewrite <- app_assoc.
        -- set (st3 := with_status _ _).
           assert (trace st3 = trace st0 ++
                     [RowScan i (display_id f) (country_from_row f) (status f)
                              (user_email_on_row f);
                      PotentialClaim i slot (display_id f);
                      ClaimSuccess i slot (display_id f)]) as Htr.
           { subst st3 st2 st1. cbn. by rewrite <- !app_assoc. }
           clearbody st3. destruct nav as [[]|e].
           ++ intros [= <- <-]. eexists. split; [exact Htr|].
              by eapply rs_claimed.
           ++ destruct (claim_failed e env st3) as [st4 [|]] eqn:Hf.
              ** pose proof (claim_failed_trace _ _ _ _ _ Hf) as Hf'.
                 intros H%colleague_trace. eexists. split.
                 { by rewrite H, Hf'. }
                 eapply rs_claimed; [done|done|]. cbn. intros Hwd.
                 unfold claim_failed in Hf. rewrite Hwd in Hf. discriminate.
              ** apply claim_failed_trace in Hf.
                 intros [= <- <-]. eexists. split.
                 { by rewrite Hf. }
                 eapply rs_claimed; [done|done|done].
      * intros H%row_failed_trace. eexists. split; [|by eapply rs_attempted].
        rewrite H. subst st2 st1. cbn. by rewrite <- app_assoc.
    + intros H%colleague_trace. eexists. split; [|by eapply rs_scanned].
      rewrite H. by subst st1.
  - intros [= <- <-]. exists []. split; [by rewrite app_nil_r|constructor].
  - intros H%row_failed_trace. exists []. split; [by rewrite app_nil_r|constructor].
Qed.

(** What a whole scan adds to the trace: the turns up to the first
    that leaves the loop. *)
Inductive pass_steps (pt gh : bool) : nat → list row_env → list step → Prop :=
| ps_done i : pass_steps pt gh i [] []
| ps_break i env rest new :
    row_steps i pt gh env new Break → pass_steps pt gh i (env :: rest) new
| ps_next i env rest new new' :
    row_steps i pt gh env new Next →
    pass_steps pt gh (S i) rest new' →
    pass_steps pt gh i (env :: rest) (new ++ new').

Lemma scan_rows_steps rows i pt gh st :
  ∃ new, trace (scan_rows i rows pt gh st) = trace st ++ new ∧
         pass_steps pt gh i rows new.
Proof.
  revert i st. induction rows as [|env rest IH]; intros i st; cbn [scan_rows].
  - exists []. split; [by rewrite app_nil_r|constructor].
  - destruct (scan_row i env pt gh st) as [st' [|]] eqn:E;
      apply scan_row_steps in E as (new & Htr & Hnew).
    + destruct (IH (S i) st') as (new' & Htr' & Hnew').
      exists (new ++ new'). split; [|by eapply ps_next].
      by rewrite Htr', Htr, <- app_assoc.
    + exists new. split; [done|]. by apply ps_break.
Qed.

(** The claim rule, read off a trace: a claim is attempted on exactly
    the scanned rows that [slot_for] selects, and only attempted claims
    succeed. *)
Definition follows_rule (pt gh : bool) (tr : list step) : Prop :=
  (∀ i slot id, PotentialClaim i slot id ∈ tr →
     ∃ country status user,
       RowScan i id country status user ∈ tr ∧
       slot_for country status pt gh = Some slot) ∧
  (∀ i id country status user slot,
     RowScan i id country status user ∈ tr →
     slot_for country status pt gh = Some slot →
     PotentialClaim i slot id ∈ tr) ∧
  (∀ i slot id, ClaimSuccess i slot id ∈ tr → PotentialClaim i slot id ∈ tr).

Lemma follows_rule_nil pt gh : follows_rule pt gh [].
Proof.
  repeat split; intros; exfalso; eapply elem_of_nil; eauto.
Qed.

Lemma follows_rule_app pt gh a b :
  follows_rule pt gh a → follows_rule pt gh b → follows_rule pt gh (a ++ b).
Proof.
  intros (A1 & A2 & A3) (B1 & B2 & B3). repeat split.
  - intros i slot id [H|H]%elem_of_app.
    + destruct (A1 _ _ _ H) as (c & s & u & ? & ?). exists c, s, u.
      split; [|done]. apply elem_of_app. by left.
    + destruct (B1 _ _ _ H) as (c & s & u & ? & ?). exists c, s, u.
      split; [|done]. apply elem_of_app. by right.
  - intros i id c s u slot [H|H]%elem_of_app Hs; apply elem_of_app; eauto.
  - intros i slot id [H|H]%elem_of_app; apply elem_of_app; eauto.
Qed.

Ltac step_cases H :=
  repeat (apply elem_of_cons in H as [H|H]; [try discriminate H|]);
  try (by apply elem_of_nil in H).

Lemma row_steps_follow i pt gh env new ctl :
  row_steps i pt gh env new ctl → follows_rule pt gh new.
Proof.
  intros [ctl0 | f ctl0 Hd | f slot ctl0 Hd | f slot t sc nav ctl0 Hd _ _];
    try rewrite claim_decision_slot_for in Hd.
  - apply follows_rule_nil.
  - repeat split.
    + intros j s id H. step_cases H.
    + intros j id c s u slot H Hs. step_cases H. injection H as -> -> -> -> ->.
      congruence.
    + intros j s id H. step_cases H.
  - repeat split.
    + intros j s id H. step_cases H. injection H as -> -> ->.
      eexists _, _, _. split; [by left|done].
    + intros j id c s u slot' H Hs. step_cases H. injection H as -> -> -> -> ->.
      assert (slot' = slot) as -> by congruence. right. by left.
    + intros j s id H. step_cases H.
  - repeat split.
    + intros j s id H. step_cases H. injection H as -> -> ->.
      eexists _, _, _. split; [by left|done].
    + intros j id c s u slot' H Hs. step_cases H. injection H as -> -> -> -> ->.
      assert (slot' = slot) as -> by congruence. right. by left.
    + intros j s id H. step_cases H. injection H as -> -> ->. right. by left.
Qed.

Lemma pass_steps_follow pt gh i rows new :
  pass_steps pt gh i rows new → follows_rule pt gh new.
Proof.
  induction 1 as [i | i env rest new Hrow | i env rest new new' Hrow _ IH].
  - apply follows_rule_nil.
  - by eapply row_steps_follow.
  - apply follows_rule_app; [by eapply row_steps_follow|done].
Qed.

Lemma row_steps_index i pt gh env new ctl x :
  row_steps i pt gh env new ctl → x ∈ new → index_of x = i.
Proof.
  intros [ctl0 | f ctl0 Hd | f slot ctl0 Hd | f slot t sc nav ctl0 Hd _ _] H;
    step_cases H; by subst.
Qed.

Lemma pass_steps_index pt gh i rows new x :
  pass_steps pt gh i rows new → x ∈ new → (i ≤ index_of x < i + length rows)%nat.
Proof.
  induction 1 as [i | i env rest new Hrow | i env rest new new' Hrow _ IH];
    cbn [length].
  - by intros ?%elem_of_nil.
  - intros H. rewrite (row_steps_index _ _ _ _ _ _ _ Hrow H). lia.
  - intros [H|H]%elem_of_app.
    + rewrite (row_steps_index _ _ _ _ _ _ _ Hrow H). lia.
    + specialize (IH H). lia.
Qed.

(** a claim that runs to its end is the last thing a scan does *)
Lemma pass_steps_stop pt gh i rows new k slot id env t sc nav x :
  pass_steps pt gh i rows new →
  ClaimSuccess k slot id ∈ new →
  rows !! (k - i) = Some env →
  claim_actions env = ClaimStarted t sc nav → leaves_loop nav →
  x ∈ new → (index_of x ≤ k)%nat.
Proof.
  induction 1 as [i | i env0 rest new Hrow | i env0 rest new new' Hrow Hrest IH];
    intros Hk Hlk Hclaim Hleave Hx.
  - by apply elem_of_nil in Hx.
  - rewrite (row_steps_index _ _ _ _ _ _ _ Hrow Hx).
    by rewrite <- (row_steps_index _ _ _ _ _ _ _ Hrow Hk).
  - apply elem_of_app in Hk as [Hk|Hk].
    + exfalso. pose proof (row_steps_index _ _ _ _ _ _ _ Hrow Hk) as Hi.
      cbn in Hi. subst k. rewrite Nat.sub_diag in Hlk. injection Hlk as ->.
      inversion Hrow as [ | | | f s t' sc' nav' ctl0 Hd Hc Hbreak]; subst;
        step_cases Hk.
      rewrite Hclaim in Hc. injection Hc as <- <- <-. by specialize (Hbreak Hleave).
    + pose proof (pass_steps_index _ _ _ _ _ _ Hrest Hk) as Hi. cbn in Hi.
      apply elem_of_app in Hx as [Hx|Hx].
      * rewrite (row_steps_index _ _ _ _ _ _ _ Hrow Hx). lia.
      * apply IH; try done.
        replace (k - i) with (S (k - S i)) in Hlk by lia. done.
Qed.

Lemma dict_truthy_false (d : gmap string pyval) : dict_truthy d = false ↔ d = ∅.
Proof.
  unfold dict_truthy. rewrite negb_false_iff. apply bool_decide_eq_true.
Qed.

Lemma find_and_claim_cases_steps (env : pass_env) g :
  let R := find_and_claim_cases (Some env) g in
  steps R = [] ∨
  ∃ rows, all_rows_list env = Ok rows ∧
          pass_steps (dict_truthy (active_portugal_case_store g))
                     (dict_truthy (active_ghana_case_store g)) 0 rows (steps R).
Proof.
  unfold find_and_claim_cases.
  destruct (_ && _); [by left|].
  destruct (current_url env) as [u|e].
  2:{ destruct (isinstance_WebDriverException e); by left. }
  destruct (wait_for_rows env) as [[]|e]; cbn.
  2:{ left. destruct e; reflexivity. }
  destruct (all_rows_list env) as [[|env0 rest]|e] eqn:Hrows.
  - by left.
  - right. eexists. split; [done|]. unfold finish_pass. cbn [steps].
    match goal with |- context [scan_rows 0 ?r ?p ?q ?s] =>
      destruct (scan_rows_steps r 0 p q s) as (new & -> & Hnew) end.
    done.
  - left. destruct e; reflexivity.
Qed.

(** C1, as the code has it.  In every pass, a claim is attempted on a
    scanned row exactly when the row's status is "Not Started" and its
    country is Portugal or Ghana with that country's store empty when the
    pass began; only attempted claims succeed.  The owner shown by the
    row takes no part in the decision. *)
Theorem claim_attempt_rule (driver : option pass_env) g :
  let R := find_and_claim_cases driver g in
  (∀ i slot id, PotentialClaim i slot id ∈ steps R →
     ∃ country status user,
       RowScan i id country status user ∈ steps R ∧
       status = "Not Started" ∧ country = slot ∧
       ((slot = "Portugal" ∧ active_portugal_case_store g = ∅) ∨
        (slot = "Ghana" ∧ active_ghana_case_store g = ∅))) ∧
  (∀ i id country status user,
     RowScan i id country status user ∈ steps R →
     status = "Not Started" →
     (country = "Portugal" ∧ active_portugal_case_store g = ∅) ∨
     (country = "Ghana" ∧ active_ghana_case_store g = ∅) →
     PotentialClaim i country id ∈ steps R) ∧
  (∀ i slot id, ClaimSuccess i slot id ∈ steps R →
     PotentialClaim i slot id ∈ steps R).
Proof.
  intros R.
  assert (follows_rule (dict_truthy (active_portugal_case_store g))
                       (dict_truthy (active_ghana_case_store g)) (steps R))
    as (H1 & H2 & H3).
  { destruct driver as [env|]; [|apply follows_rule_nil].
    destruct (find_and_claim_cases_steps env g) as [Hnil | (rows & _ & Hsteps)].
    - subst R. rewrite Hnil. apply follows_rule_nil.
    - by eapply pass_steps_follow. }
  split; [|split; [|exact H3]].
  - intros i slot id Hin. destruct (H1 _ _ _ Hin) as (c & s & u & Hscan & Hslot).
    apply slot_for_Some in Hslot as (-> & -> & Hfree).
    exists slot, "Not Started", u. rewrite <- !dict_truthy_false. done.
  - intros i id c s u Hscan -> Hfree. eapply H2; [done|].
    apply slot_for_Some. rewrite !dict_truthy_false. done.
Qed.

Lemma claim_attempt_rule_witness :
  let g := initial Samples.writable_disk in
  let R := find_and_claim_cases
             (Some (Samples.pass_of [Samples.visible_row Samples.ghana_row
                                       Samples.claimed_ok])) g in
  PotentialClaim 0 "Ghana" "T-2" ∈ steps R ∧
  ∃ country status user,
    RowScan 0 "T-2" country status user ∈ steps R ∧
    status = "Not Started" ∧ country = "Ghana" ∧
    (("Ghana" = "Portugal" ∧ active_portugal_case_store g = ∅) ∨
     ("Ghana" = "Ghana" ∧ active_ghana_case_store g = ∅)).
Proof.
  intros g R.
  assert (PotentialClaim 0 "Ghana" "T-2" ∈ steps R) as Hin.
  { apply list_elem_of_In. vm_compute. tauto. }
  split; [exact Hin|].
  exact (proj1 (claim_attempt_rule _ g) 0%nat "Ghana" "T-2" Hin).
Defined.

(** A row that is "Not Started" for Portugal and shows an owner is
    claimed all the same: the snapshot even records that owner. *)
Lemma owned_row_is_claimed :
  let R := find_and_claim_cases
             (Some (Samples.pass_of [Samples.visible_row Samples.owned_row
                                       Samples.claimed_ok]))
             (initial Samples.writable_disk) in
  steps R = [RowScan 0 "T-1" "Portugal" "Not Started" "colleague@example.org";
             PotentialClaim 0 "Portugal" "T-1";
             ClaimSuccess 0 "Portugal" "T-1"] ∧
  returned R = "CLAIM_SUCCESS_PORTUGAL" ∧
  ∃ d, data_queue_claimer (after R) =
         [{| q_status := "CLAIM_SUCCESS_PORTUGAL"; claimed_data_in_q := Some d |}] ∧
       d !! "user_email" = Some (Str "colleague@example.org").
Proof.
  cbv zeta. split; [vm_compute; reflexivity|]. split; [vm_compute; reflexivity|].
  eexists. split; vm_compute; reflexivity.
Qed.

(** the store of a category, and the other category *)
Definition slot_store (slot : string) (s : shared) : gmap string pyval :=
  if String.eqb slot "Portugal" then active_portugal_case_store s
  else active_ghana_case_store s.

Definition other_slot (slot : string) : string :=
  if String.eqb slot "Portugal" then "Ghana" else "Portugal".

(** a claim made at position [k] that ran to its end: the task was
    started and the engine got back to the board *)
Definition completed_claim (rows : list row_env) (tr : list step) (k : nat) : Prop :=
  ∃ slot id env t sc,
    ClaimSuccess k slot id ∈ tr ∧ rows !! k = Some env ∧
    claim_actions env = ClaimStarted t sc (Ok ()).

Lemma completed_claim_last (env : pass_env) g rows k x :
  all_rows_list env = Ok rows →
  completed_claim rows (steps (find_and_claim_cases (Some env) g)) k →
  x ∈ steps (find_and_claim_cases (Some env) g) → (index_of x ≤ k)%nat.
Proof.
  intros Hrows (slot & id & renv & t & sc & Hk & Hlk & Hclaim) Hx.
  destruct (find_and_claim_cases_steps env g) as [Hnil | (rows' & Hrows' & Hsteps)].
  - rewrite Hnil in Hx. by apply elem_of_nil in Hx.
  - assert (rows' = rows) as -> by congruence.
    eapply (pass_steps_stop _ _ 0 rows _ k slot id renv t sc (Ok ()));
      [exact Hsteps|exact Hk|by rewrite Nat.sub_0_r|exact Hclaim|exact I|exact Hx].
Qed.

(** a success entry stems from a row whose claim was started *)
Lemma pass_steps_started pt gh i rows new k slot id env :
  pass_steps pt gh i rows new →
  ClaimSuccess k slot id ∈ new →
  rows !! (k - i) = Some env →
  ∃ t sc nav, claim_actions env = ClaimStarted t sc nav.
Proof.
  induction 1 as [i | i env0 rest new Hrow | i env0 rest new new' Hrow Hrest IH];
    intros Hk Hlk.
  - by apply elem_of_nil in Hk.
  - pose proof (row_steps_index _ _ _ _ _ _ _ Hrow Hk) as Hi. cbn in Hi. subst k.
    rewrite Nat.sub_diag in Hlk. injection Hlk as ->.
    inversion Hrow; subst; step_cases Hk. eauto.
  - apply elem_of_app in Hk as [Hk|Hk].
    + pose proof (row_steps_index _ _ _ _ _ _ _ Hrow Hk) as Hi. cbn in Hi. subst k.
      rewrite Nat.sub_diag in Hlk. injection Hlk as ->.
      inversion Hrow; subst; step_cases Hk. eauto.
    + pose proof (pass_steps_index _ _ _ _ _ _ Hrest Hk) as Hi. cbn in Hi.
      apply IH; [done|].
      replace (k - i)%nat with (S (k - S i)) in Hlk by lia. done.
Qed.

(** when the way back never fails outside the Selenium hierarchy, a pass
    starts one task at most *)
Lemma one_task_started (env : pass_env) g rows k k' slot id slot' id' :
  all_rows_list env = Ok rows →
  (∀ r t sc e, r ∈ rows → claim_actions r = ClaimStarted t sc (Raise e) →
               isinstance_WebDriverException e = true) →
  ClaimSuccess k slot id ∈ steps (find_and_claim_cases (Some env) g) →
  ClaimSuccess k' slot' id' ∈ steps (find_and_claim_cases (Some env) g) →
  k = k'.
Proof.
  intros Hrows Hnav Hk Hk'.
  destruct (find_and_claim_cases_steps env g) as [Hnil | (rows' & Hrows' & Hsteps)].
  { rewrite Hnil in Hk. by apply elem_of_nil in Hk. }
  assert (rows' = rows) as -> by congruence.
  assert (∀ j (s d : string) x,
            ClaimSuccess j s d ∈ steps (find_and_claim_cases (Some env) g) →
            x ∈ steps (find_and_claim_cases (Some env) g) →
            (index_of x ≤ j)%nat) as Hlast.
  { intros j s d x Hj Hx.
    pose proof (pass_steps_index _ _ _ _ _ _ Hsteps Hj) as [_ Hlt]. cbn in Hlt.
    destruct (lookup_lt_is_Some_2 rows j Hlt) as [r Hr].
    destruct (pass_steps_started _ _ 0 rows _ j s d r Hsteps Hj)
      as (t & sc & nav & Hc); [by rewrite Nat.sub_0_r|].
    eapply (pass_steps_stop _ _ 0 rows _ j s d r t sc nav);
      [exact Hsteps|exact Hj|by rewrite Nat.sub_0_r|exact Hc| |exact Hx].
    destruct nav as [[]|e]; [exact I|]. cbn. eapply Hnav; [|exact Hc].
    by eapply list_elem_of_lookup_2. }
  pose proof (Hlast _ _ _ _ Hk Hk') as Ha. pose proof (Hlast _ _ _ _ Hk' Hk) as Hb.
  cbn in Ha, Hb. lia.
Qed.

Lemma scenario_first_row_claimed (env : pass_env) g u r1 r2 r3 row f cf t sc slot :
  slot = "Portugal" ∨ slot = "Ghana" →
  active_portugal_case_store g = ∅ → active_ghana_case_store g = ∅ →
  stop_event_claimer g = false →
  current_url env = Ok u → wait_for_rows env = Ok () →
  all_rows_list env = Ok [r1; r2; r3] →
  observer_before r1 = [] →
  locate_and_read 0 r1 = Ok (Some (row, f)) →
  country_from_row f = slot → status f = "Not Started" →
  read_claim_fields row = Ok cf →
  claim_actions r1 = ClaimStarted t sc (Ok ()) →
  ∃ details,
    find_and_claim_cases (Some env) g =
      {| returned := "CLAIM_SUCCESS_" +:+ upper slot;
         after := put_nowait {| q_status := "CLAIM_SUCCESS_" +:+ upper slot;
                                claimed_data_in_q := Some details |} g;
         steps := [RowScan 0 (display_id f) slot "Not Started" (user_email_on_row f);
                   PotentialClaim 0 slot (display_id f);
                   ClaimSuccess 0 slot (display_id f)] |} ∧
    details !! "country" = Some (Str slot) ∧
    details !! "display_id" = Some (Str (display_id f)) ∧
    dict_truthy details = true.
Proof.
  intros Hslot Hpt Hgh Hstop Hurl Hwait Hrows Hobs Hread Hcountry Hstatus Hcf Hclaim.
  assert (claim_this_case_for_country_slot f false false = Some slot) as Hdecide.
  { rewrite claim_decision_slot_for. apply slot_for_Some. rewrite Hcountry, Hstatus.
    destruct Hslot; auto. }
  unfold find_and_claim_cases. rewrite Hpt, Hgh, Hurl, Hwait.
  change (dict_truthy ∅) with false. cbn [andb]. change (mbind _ (Ok ())) with
    (all_rows_list env). rewrite Hrows. cbn [scan_rows]. unfold scan_row.
  rewrite Hobs. cbn [Observer.acts foldl with_globals globals].
  rewrite Hstop, Hread. cbn [with_step trace current_pass_status
    claimed_case_details_to_return globals app].
  rewrite Hdecide, Hcf. unfold attempt_claim. rewrite Hclaim.
  rewrite Hcountry, Hstatus.
  eexists. split; [reflexivity|].
  destruct (url_to_scrape_for_case cf), sc; repeat split; vm_compute; reflexivity.
Qed.

(** X28.  A claim that runs to its end is the last thing a pass does: no
    entry of the trace concerns a later row, so a pass completes one
    claim at most; and when the way back to the board fails, if at all,
    with a Selenium exception, a pass starts one task at most.  In the
    scenario, with both stores empty and three
    rows found of which the first is visible, not started and of
    category [slot], and the claim on it succeeds, the pass scans that
    row only, returns and queues [CLAIM_SUCCESS] for [slot] with the
    snapshot of that row, writes neither store nor the log, and the
    observer's next poll fills the store of [slot] and leaves the other
    one empty; the second and third row are never looked at, whatever
    they are. *)
Theorem one_claim_per_cycle :
  (∀ (env : pass_env) g rows k k',
     all_rows_list env = Ok rows →
     let R := find_and_claim_cases (Some env) g in
     completed_claim rows (steps R) k →
     (∀ x, x ∈ steps R → (index_of x ≤ k)%nat) ∧
     (completed_claim rows (steps R) k' → k = k')) ∧
  (∀ (env : pass_env) g rows k k' slot id slot' id',
     all_rows_list env = Ok rows →
     (∀ r t sc e, r ∈ rows → claim_actions r = ClaimStarted t sc (Raise e) →
                  isinstance_WebDriverException e = true) →
     let R := find_and_claim_cases (Some env) g in
     ClaimSuccess k slot id ∈ steps R → ClaimSuccess k' slot' id' ∈ steps R →
     k = k') ∧
  (∀ (env : pass_env) g u r1 r2 r3 row f cf t sc slot,
     slot = "Portugal" ∨ slot = "Ghana" →
     active_portugal_case_store g = ∅ → active_ghana_case_store g = ∅ →
     stop_event_claimer g = false → data_queue_claimer g = [] →
     current_url env = Ok u → wait_for_rows env = Ok () →
     all_rows_list env = Ok [r1; r2; r3] →
     observer_before r1 = [] →
     locate_and_read 0 r1 = Ok (Some (row, f)) →
     country_from_row f = slot → status f = "Not Started" →
     user_email_on_row f = "N/A" →
     read_claim_fields row = Ok cf →
     claim_actions r1 = ClaimStarted t sc (Ok ()) →
     let R := find_and_claim_cases (Some env) g in
     ∃ details,
       returned R = "CLAIM_SUCCESS_" +:+ upper slot ∧
       steps R = [RowScan 0 (display_id f) slot "Not Started" "N/A";
                  PotentialClaim 0 slot (display_id f);
                  ClaimSuccess 0 slot (display_id f)] ∧
       data_queue_claimer (after R) =
         [{| q_status := "CLAIM_SUCCESS_" +:+ upper slot;
             claimed_data_in_q := Some details |}] ∧
       details !! "country" = Some (Str slot) ∧
       details !! "display_id" = Some (Str (display_id f)) ∧
       active_portugal_case_store (after R) = ∅ ∧
       active_ghana_case_store (after R) = ∅ ∧
       disk_state (after R) = disk_state g ∧
       slot_store slot (Observer.update_active_cases_display (after R)) = details ∧
       slot_store (other_slot slot) (Observer.update_active_cases_display (after R)) = ∅).
Proof.
  split.
  - intros env g rows k k' Hrows R Hk. split.
    + intros x Hx. by eapply completed_claim_last.
    + intros Hk'.
      pose proof Hk as (s1 & i1 & _ & _ & _ & H1 & _).
      pose proof Hk' as (s2 & i2 & _ & _ & _ & H2 & _).
      pose proof (completed_claim_last env g rows k _ Hrows Hk H2) as Ha.
      pose proof (completed_claim_last env g rows k' _ Hrows Hk' H1) as Hb.
      cbn in Ha, Hb. lia.
  - split; [intros env g rows k k' slot id slot' id' Hrows Hnav R;
            by eapply one_task_started|].
    intros env g u r1 r2 r3 row f cf t sc slot Hslot Hpt Hgh Hstop Hq Hurl Hwait
           Hrows Hobs Hread Hcountry Hstatus Huser Hcf Hclaim R.
    destruct (scenario_first_row_claimed env g u r1 r2 r3 row f cf t sc slot)
      as (details & HR & Hc & Hid & Htruthy); try done.
    subst R. rewrite HR, Huser. exists details. cbn [returned steps after].
    unfold put_nowait. rewrite Hq. cbn [app].
    split; [done|]. split; [done|]. split; [done|]. split; [done|]. split; [done|].
    split; [done|]. split; [done|]. split; [done|].
    unfold Observer.update_active_cases_display.
    cbn [data_queue_claimer set_queue foldl].
    unfold Observer.process_message. cbn [q_status claimed_data_in_q].
    rewrite Htruthy, Hc.
    destruct Hslot as [-> | ->].
    + change (contains "CLAIM_SUCCESS" ("CLAIM_SUCCESS_" +:+ upper "Portugal"))
        with true.
      change (String.eqb "Portugal" "Portugal") with true. cbn [andb].
      split; [reflexivity|]. exact Hgh.
    + change (contains "CLAIM_SUCCESS" ("CLAIM_SUCCESS_" +:+ upper "Ghana"))
        with true.
      change (String.eqb "Ghana" "Portugal") with false.
      change (String.eqb "Ghana" "Ghana") with true. cbn [andb].
      split; [reflexivity|]. exact Hpt.
Qed.

Lemma one_claim_per_cycle_witness :
  let env := Samples.pass_of
               [Samples.visible_row Samples.portugal_row Samples.claimed_ok;
                Samples.visible_row Samples.ghana_row Samples.claimed_ok;
                Samples.visible_row Samples.colleague_row Samples.claimed_ok] in
  let R := find_and_claim_cases (Some env) (initial Samples.writable_disk) in
  ∃ details,
    returned R = "CLAIM_SUCCESS_PORTUGAL" ∧
    steps R = [RowScan 0 "T-1" "Portugal" "Not Started" "N/A";
               PotentialClaim 0 "Portugal" "T-1";
               ClaimSuccess 0 "Portugal" "T-1"] ∧
    details !! "country" = Some (Str "Portugal") ∧
    slot_store "Portugal" (Observer.update_active_cases_display (after R)) = details ∧
    slot_store "Ghana" (Observer.update_active_cases_display (after R)) = ∅ ∧
    disk_state (after R) = Samples.writable_disk.
Proof.
  intros env R.
  edestruct (proj2 (proj2 one_claim_per_cycle) env (initial Samples.writable_disk))
    as (details & Hret & Hsteps & Hq & Hc & Hid & Hp & Hg & Hd & Hs & Ho).
  - left. reflexivity.
  - reflexivity.
  - reflexivity.
  - reflexivity.
  - reflexivity.
  - reflexivity.
  - reflexivity.
  - reflexivity.
  - reflexivity.
  - reflexivity.
  - reflexivity.
  - reflexivity.
  - reflexivity.
  - reflexivity.
  - reflexivity.
  - exists details. split; [exact Hret|]. split; [exact Hsteps|].
    split; [exact Hc|]. split; [exact Hs|]. split; [exact Ho|exact Hd].
Defined.

(** C3 on the code.  Both stores are empty and the board shows a
    Portugal and a Ghana row, both "Not Started".  The task of the
    first row is started, and [driver.get(APPSHEET_URL)] (l.1412) then
    raises an exception outside the Selenium hierarchy: the [break] of
    l.1414 is not reached, the handler of l.1423 navigates back and has
    no [break], and the scan goes on with the slot flags of l.1218.  The
    task of the second row is started in the same pass; the pass returns
    [CLAIM_SUCCESS_GHANA], and the one message it queues carries the
    second snapshot only, so the poll fills the Ghana store and the
    Portugal task, though started, is in no store. *)
Example claim_then_navigation_error :
  let env := Samples.pass_of
               [Samples.visible_row Samples.portugal_row
                  (ClaimStarted "2025-03-01 10:00:07" None (Raise OtherException));
                Samples.visible_row Samples.ghana_row Samples.claimed_ok] in
  let R := find_and_claim_cases (Some env) (initial Samples.writable_disk) in
  returned R = "CLAIM_SUCCESS_GHANA" ∧
  steps R = [RowScan 0 "T-1" "Portugal" "Not Started" "N/A";
             PotentialClaim 0 "Portugal" "T-1";
             ClaimSuccess 0 "Portugal" "T-1";
             RowScan 1 "T-2" "Ghana" "Not Started" "N/A";
             PotentialClaim 1 "Ghana" "T-2";
             ClaimSuccess 1 "Ghana" "T-2"] ∧
  (q_status <$> data_queue_claimer (after R)) = ["CLAIM_SUCCESS_GHANA"] ∧
  active_portugal_case_store (Observer.update_active_cases_display (after R)) = ∅ ∧
  active_ghana_case_store (Observer.update_active_cases_display (after R))
    !! "display_id" = Some (Str "T-2").
Proof. repeat split; vm_compute; reflexivity. Qed.

(** with two Portugal rows the same happens within one category: the
    flag read at l.1218 still says the slot is free *)
Example claim_twice_for_one_slot :
  let env := Samples.pass_of
               [Samples.visible_row Samples.portugal_row
                  (ClaimStarted "2025-03-01 10:00:07" None (Raise OtherException));
                Samples.visible_row Samples.portugal_row Samples.claimed_ok] in
  let R := find_and_claim_cases (Some env) (initial Samples.writable_disk) in
  returned R = "CLAIM_SUCCESS_PORTUGAL" ∧
  steps R = [RowScan 0 "T-1" "Portugal" "Not Started" "N/A";
             PotentialClaim 0 "Portugal" "T-1";
             ClaimSuccess 0 "Portugal" "T-1";
             RowScan 1 "T-1" "Portugal" "Not Started" "N/A";
             PotentialClaim 1 "Portugal" "T-1";
             ClaimSuccess 1 "Portugal" "T-1"].
Proof. split; vm_compute; reflexivity. Qed.

End ClaimerFacts.

(** ** One pass: what it reports, what it leaves alone, what it logs *)

(** *** A rule for invariants of the row loop.  A property of the locals
    and globals of a pass that every elementary update of the loop
    keeps, is kept by the loop. *)
Section PassInvariant.
Import Py TaskBoard Shared Claimer.

Variables (pt gh : bool) (row_ok : row_env → Prop) (P : pass_state → Prop).

(** the snapshot of a claimed row, with the scraped files when there are
    any (l.1380-1404) *)
Definition snapshot (f : row_fields) (cf : claim_fields) (slot claimed_time : string)
    (scraped_data : option scraped_files) : gmap string pyval :=
  match url_to_scrape_for_case cf, scraped_data with
  | Some _, Some files =>
      <["scraped_files_data" := Files files]> (claimed_case_details f cf slot claimed_time)
  | _, _ => claimed_case_details f cf slot claimed_time
  end.

(** a row the colleague log takes (l.1439-1440) *)
Definition logged_as_colleague (f : row_fields) : Prop :=
  truthy (user_email_on_row f) && negb (String.eqb (user_email_on_row f) "N/A")
    && negb (contains (lower "BOT_CLAIMED") (lower (user_email_on_row f))) = true ∧
  lower (status f) ∈ ["inprogress"; "escalated"; "completed"].

Hypothesis P_observer : ∀ st env,
  row_ok env → P st →
  P (with_globals st (Observer.acts (observer_before env) (globals st))).
Hypothesis P_status : ∀ st s,
  s ∈ "STOPPED" :: DEAD_IN_ROW → P st → P (with_status st s).
Hypothesis P_step : ∀ st x, P st → P (with_step st x).
Hypothesis P_claim : ∀ st f cf slot claimed_time scraped_data x,
  claim_this_case_for_country_slot f pt gh = Some slot → P st →
  P (with_status (with_step (with_claimed st (snapshot f cf slot claimed_time
                                                       scraped_data)) x)
                 ("CLAIM_SUCCESS_" +:+ upper slot)).
Hypothesis P_log : ∀ st env f account title link,
  logged_as_colleague f → P st →
  P (with_globals st
       (set_disk (ActivityLog.append_to_case_log
                    (colleague_log_entry env f account title link)
                    (disk_state (globals st))).2
                 (globals st))).

Lemma claim_failed_keeps e env st st' ctl :
  claim_failed e env st = (st', ctl) → P st → P st'.
Proof.
  unfold claim_failed. destruct (isinstance_WebDriverException e).
  - intros [= <- <-] HP. apply P_status; [|done]. unfold DEAD_IN_ROW. set_solver.
  - destruct (navigate_back env) as [|e']; [by intros [= <- <-]|].
    destruct (isinstance_WebDriverException e'); [|by intros [= <- <-]].
    intros [= <- <-] HP. apply P_status; [|done]. unfold DEAD_IN_ROW. set_solver.
Qed.

Lemma row_failed_keeps e st st' ctl :
  row_failed e st = (st', ctl) → P st → P st'.
Proof.
  destruct e; cbn; intros [= <- <-] HP; try done;
    (apply P_status; [|done]); unfold DEAD_IN_ROW; set_solver.
Qed.

Lemma end_of_row_keeps st st' ctl :
  end_of_row st = (st', ctl) → P st → P st'.
Proof. unfold end_of_row. case_bool_decide; by intros [= <- <-]. Qed.

Lemma log_colleague_keeps env row f st st' :
  log_colleague env row f st = Ok st' → P st → P st'.
Proof.
  unfold log_colleague.
  destruct (_ && _) eqn:Huser; [|by intros [= <-]].
  case_bool_decide as Hstatus; [|by intros [= <-]].
  destruct (extract_field_data _ "Account Name" _ _) as [account|]; [|discriminate].
  destruct (extract_field_data _ "Case Title" _ _) as [title|]; [|discriminate].
  destruct (extract_field_data _ "Menu link" _ _) as [link|]; [|discriminate].
  cbn. intros [= <-] HP. by apply P_log.
Qed.

Lemma colleague_keeps env row f st st' ctl :
  match log_colleague env row f st with
  | Ok st1 => end_of_row st1
  | Raise e => row_failed e st
  end = (st', ctl) →
  P st → P st'.
Proof.
  destruct (log_colleague env row f st) as [st1|e] eqn:E.
  - intros H HP. eapply end_of_row_keeps; [exact H|]. by eapply log_colleague_keeps.
  - apply row_failed_keeps.
Qed.

Lemma attempt_claim_keeps i slot f cf env st st' ctl :
  claim_this_case_for_country_slot f pt gh = Some slot →
  attempt_claim i slot f cf env st = (st', ctl) → P st → P st'.
Proof.
  intros Hslot. unfold attempt_claim.
  destruct (claim_actions env) as [e|claimed_time scraped_data nav].
  - apply claim_failed_keeps.
  - fold (snapshot f cf slot claimed_time scraped_data).
    set (st1 := with_status _ _). intros H HP.
    assert (P st1) as HP1 by (by apply P_claim). clearbody st1.
    destruct nav as [[]|e].
    + by injection H as <- <-.
    + by eapply claim_failed_keeps.
Qed.

Lemma scan_row_keeps i env st st' ctl :
  row_ok env → scan_row i env pt gh st = (st', ctl) → P st → P st'.
Proof.
  intros Hok H HP. revert H. unfold scan_row.
  set (st0 := with_globals st _).
  assert (P st0) as HP0 by (by apply P_observer). clearbody st0.
  destruct (stop_event_claimer (globals st0)).
  { intros [= <- <-]. apply P_status; [set_solver|done]. }
  destruct (locate_and_read i env) as [[[row f]|]|e].
  - set (st1 := with_step st0 _).
    assert (P st1) as HP1 by apply P_step, HP0. clearbody st1.
    destruct (claim_this_case_for_country_slot f pt gh) as [slot|] eqn:Hslot.
    + set (st2 := with_step st1 _).
      assert (P st2) as HP2 by apply P_step, HP1. clearbody st2.
      destruct (read_claim_fields row) as [cf|e].
      * destruct (attempt_claim i slot f cf env st2) as [st3 [|]] eqn:Ha.
        -- intros H. eapply colleague_keeps; [exact H|].
           by eapply attempt_claim_keeps.
        -- intros [= <- <-]. by eapply attempt_claim_keeps.
      * intros H. by eapply row_failed_keeps.
    + intros H. by eapply colleague_keeps.
  - by intros [= <- <-].
  - intros H. by eapply row_failed_keeps.
Qed.

Lemma scan_rows_keeps rows i st :
  Forall row_ok rows → P st → P (scan_rows i rows pt gh st).
Proof.
  revert i st. induction rows as [|env rest IH]; intros i st Hok HP; [done|].
  apply Forall_cons in Hok as [Hok Hrest]. cbn [scan_rows].
  destruct (scan_row i env pt gh st) as [st' [|]] eqn:E.
  - apply IH; [done|]. by eapply scan_row_keeps.
  - by eapply scan_row_keeps.
Qed.

End PassInvariant.

Section PassReport.
Import Py TaskBoard Shared Claimer.

Implicit Types (st : pass_state) (env : row_env) (f : row_fields) (g : shared)
               (d e : gmap string pyval) (slot : string) (pt gh : bool).

(** the statuses a pass returns without putting a message on the queue *)
Definition SILENT_STATUSES : list string :=
  ["OK_BOTH_SLOTS_FULL"; "DRIVER_DEAD_RESP_CHECK"; "DRIVER_DEAD_ROW_FIND";
   "ERROR_UNEXPECTED_FINDING_ROWS"].

(** the statuses a pass ends with when no task was started *)
Definition UNCLAIMED_STATUSES : list string :=
  ["OK_NO_NEW_CLAIMABLE_SLOT_OR_CASE"; "ERROR_UNKNOWN_FCC_OUTER"; "OK_TIMEOUT_NO_ROWS";
   "OK_NO_ROWS_VISIBLE"; "STOPPED"; "DRIVER_DEAD_CLAIM_PROC";
   "DRIVER_DEAD_NAV_BACK_FAIL"; "DRIVER_DEAD_ROW_PROC"].

Definition slot_is_free slot pt gh : Prop :=
  (slot = "Portugal" ∧ pt = false) ∨ (slot = "Ghana" ∧ gh = false).

(** a dictionary that has the entries of a claim snapshot for [slot] *)
Definition snapshot_of slot d : Prop :=
  d !! "country" = Some (Str slot) ∧
  (∃ t, d !! "claimed_time" = Some (Str t)) ∧
  (∃ id, d !! "display_id" = Some (Str id)) ∧
  dict_truthy d = true.

(** how the status and the snapshot of a pass go together *)
Definition report_inv pt gh st : Prop :=
  match claimed_case_details_to_return st with
  | None => current_pass_status st ∈ UNCLAIMED_STATUSES
  | Some d =>
      ∃ slot, slot_is_free slot pt gh ∧ snapshot_of slot d ∧
              (current_pass_status st = "CLAIM_SUCCESS_" +:+ upper slot ∨
               current_pass_status st ∈ "STOPPED" :: DEAD_IN_ROW)
  end.

(** an entry of the log that records a colleague's row *)
Definition colleague_entry e : Prop :=
  ∃ user status,
    e !! "Assigned User" = Some (Str user) ∧
    e !! "Status (Observed)" = Some (Str status) ∧
    user ≠ "" ∧ user ≠ "N/A" ∧ contains "bot_claimed" (lower user) = false ∧
    lower status ∈ ["inprogress"; "escalated"; "completed"] ∧
    e !! "Claimed Timestamp" = Some NA ∧ e !! "Finished Timestamp" = Some NA ∧
    e !! "Duration (seconds)" = Some NA.

(** the globals of a pass differ from [g] in the log only, to which
    colleague rows were appended *)
Definition frame_inv g st : Prop :=
  set_disk (disk_state g) (globals st) = g ∧
  ∃ es, disk_state (globals st) = append_all es (disk_state g) ∧
        Forall colleague_entry es.

(** no observer action falls into the pass *)
Definition quiet_pass (driver : option pass_env) : Prop :=
  match driver with
  | Some env =>
      match all_rows_list env with
      | Ok rows => Forall (fun r => observer_before r = []) rows
      | Raise _ => True
      end
  | None => True
  end.

Lemma snapshot_is_snapshot f (cf : claim_fields) slot t sc :
  snapshot_of slot (snapshot f cf slot t sc).
Proof.
  unfold snapshot_of, snapshot.
  destruct (url_to_scrape_for_case cf), sc;
    (split; [|split; [eexists|split; [eexists|]]]); vm_compute; reflexivity.
Qed.

Lemma claim_decision_free f pt gh slot :
  claim_this_case_for_country_slot f pt gh = Some slot → slot_is_free slot pt gh.
Proof.
  rewrite claim_decision_slot_for. intros (_ & _ & H)%slot_for_Some. exact H.
Qed.

Lemma report_inv_kept rows i st pt gh :
  report_inv pt gh st → report_inv pt gh (scan_rows i rows pt gh st).
Proof.
  apply (scan_rows_keeps pt gh (fun _ => True) (report_inv pt gh)).
  - intros st0 env _ H. exact H.
  - intros st0 s Hs H. unfold report_inv in *.
    cbn [with_status claimed_case_details_to_return current_pass_status].
    destruct (claimed_case_details_to_return st0) as [d|].
    + destruct H as (slot & Hfree & Hsnap & _). exists slot. auto.
    + unfold UNCLAIMED_STATUSES. unfold DEAD_IN_ROW in Hs. set_solver.
  - intros st0 x H. exact H.
  - intros st0 f cf slot t sc x Hslot _. unfold report_inv.
    cbn [with_status with_step with_claimed claimed_case_details_to_return
         current_pass_status].
    exists slot. split; [by eapply claim_decision_free|].
    split; [apply snapshot_is_snapshot|by left].
  - intros st0 env f account title link _ H. exact H.
  - by apply Forall_true.
Qed.

Lemma logged_colleague_entry env f account title link :
  logged_as_colleague f →
  colleague_entry (colleague_log_entry env f account title link).
Proof.
  intros [Huser Hstatus]. exists (user_email_on_row f), (status f).
  apply andb_prop in Huser as [[Ht Hna]%andb_prop Hbot].
  split; [vm_compute; reflexivity|]. split; [vm_compute; reflexivity|].
  split. { intros E. rewrite E in Ht. discriminate. }
  split. { intros E. rewrite E in Hna. discriminate. }
  split. { by apply negb_true_iff in Hbot. }
  split; [exact Hstatus|].
  repeat split; vm_compute; reflexivity.
Qed.

Lemma frame_inv_kept rows i st pt gh g :
  Forall (fun r => observer_before r = []) rows →
  frame_inv g st → frame_inv g (scan_rows i rows pt gh st).
Proof.
  intros Hq.
  apply (scan_rows_keeps pt gh (fun r => observer_before r = []) (frame_inv g));
    [..|exact Hq].
  - intros st0 env Henv H. cbn beta in Henv. rewrite Henv. exact H.
  - intros st0 s _ H. exact H.
  - intros st0 x H. exact H.
  - intros st0 f cf slot t sc x _ H. exact H.
  - intros st0 env f account title link Hf (Hsame & es & Hes & Hall).
    split; [exact Hsame|].
    exists (es ++ [colleague_log_entry env f account title link]).
    split.
    + cbn [with_globals globals set_disk disk_state]. rewrite Hes.
      unfold append_all. by rewrite foldl_app.
    + apply Forall_app. split; [exact Hall|].
      constructor; [by apply logged_colleague_entry|constructor].
Qed.

Lemma unclaimed_not_silent s : s ∈ UNCLAIMED_STATUSES → s ∉ SILENT_STATUSES.
Proof.
  unfold UNCLAIMED_STATUSES. intros H.
  repeat (apply elem_of_cons in H as [-> | H];
          [apply (bool_decide_eq_false_1 _); vm_compute; reflexivity|]).
  by apply elem_of_nil in H.
Qed.

Lemma report_inv_not_silent pt gh st :
  report_inv pt gh st → current_pass_status st ∉ SILENT_STATUSES.
Proof.
  unfold report_inv. destruct (claimed_case_details_to_return st) as [d|].
  - intros (slot & Hfree & _ & [-> | H]).
    + destruct Hfree as [[-> _] | [-> _]];
        apply (bool_decide_eq_false_1 _); vm_compute; reflexivity.
    + apply unclaimed_not_silent. unfold UNCLAIMED_STATUSES.
      unfold DEAD_IN_ROW in H. set_solver.
  - apply unclaimed_not_silent.
Qed.

(** what a pass on a live session comes to: an early return, or the
    report of the locals the row loop ended with *)
Lemma pass_outcome (env : pass_env) g :
  let R := find_and_claim_cases (Some env) g in
  let pt := dict_truthy (active_portugal_case_store g) in
  let gh := dict_truthy (active_ghana_case_store g) in
  (returned R ∈ SILENT_STATUSES ∧ after R = g ∧ steps R = []) ∨
  (∃ st, R = finish_pass st ∧ report_inv pt gh st ∧
         (quiet_pass (Some env) → frame_inv g st)).
Proof.
  assert (∀ s, s ∈ UNCLAIMED_STATUSES →
            let st := {| current_pass_status := s;
                         claimed_case_details_to_return := None;
                         globals := g; trace := [] |} in
            report_inv (dict_truthy (active_portugal_case_store g))
                       (dict_truthy (active_ghana_case_store g)) st ∧
            frame_inv g st) as Hstart.
  { intros s Hs. split; [exact Hs|]. split; [by destruct g|].
    exists []. split; [reflexivity|constructor]. }
  unfold find_and_claim_cases, quiet_pass.
  destruct (_ && _).
  { left. split; [|done]. unfold SILENT_STATUSES. set_solver. }
  destruct (current_url env) as [u|e].
  2:{ destruct (isinstance_WebDriverException e).
      - left. split; [|done]. unfold SILENT_STATUSES. set_solver.
      - right. eexists. split; [reflexivity|].
        destruct (Hstart "ERROR_UNKNOWN_FCC_OUTER") as [H1 H2];
          [unfold UNCLAIMED_STATUSES; set_solver|]. auto. }
  destruct (wait_for_rows env) as [[]|e]; cbn [mbind result_bind Py.bind].
  2:{ destruct e;
        try (left; split; [|done]; unfold SILENT_STATUSES; set_solver).
      right. eexists. split; [reflexivity|].
      destruct (Hstart "OK_TIMEOUT_NO_ROWS") as [H1 H2];
        [unfold UNCLAIMED_STATUSES; set_solver|]. auto. }
  destruct (all_rows_list env) as [[|env0 rest]|e] eqn:Hrows.
  - right. eexists. split; [reflexivity|].
    destruct (Hstart "OK_NO_ROWS_VISIBLE") as [H1 H2];
      [unfold UNCLAIMED_STATUSES; set_solver|]. auto.
  - right. eexists. split; [reflexivity|].
    destruct (Hstart "OK_NO_NEW_CLAIMABLE_SLOT_OR_CASE") as [H1 H2];
      [unfold UNCLAIMED_STATUSES; set_solver|].
    split; [by apply report_inv_kept|]. intros Hq. by apply frame_inv_kept.
  - destruct e;
      try (left; split; [|done]; unfold SILENT_STATUSES; set_solver).
    right. eexists. split; [reflexivity|].
    destruct (Hstart "OK_TIMEOUT_NO_ROWS") as [H1 H2];
      [unfold UNCLAIMED_STATUSES; set_solver|]. auto.
Qed.

End PassReport.

Section PassTheorems.
Import Py TaskBoard Shared Claimer.

Implicit Types (st : pass_state) (g s : shared) (d : gmap string pyval).

Lemma frame_inv_globals g st :
  frame_inv g st →
  data_queue_claimer (globals st) = data_queue_claimer g ∧
  stop_event_claimer (globals st) = stop_event_claimer g ∧
  active_portugal_case_store (globals st) = active_portugal_case_store g ∧
  active_ghana_case_store (globals st) = active_ghana_case_store g ∧
  monitoring_active_flag (globals st) = monitoring_active_flag g ∧
  claimer_status_message (globals st) = claimer_status_message g.
Proof. intros [<- _]. repeat split. Qed.

Lemma pass_outcome_report (driver : option pass_env) g :
  let R := find_and_claim_cases driver g in
  (returned R ∈ SILENT_STATUSES ∧ after R = g ∧ steps R = []) ∨
  ((returned R ∉ SILENT_STATUSES) ∧
   ∃ q data, data_queue_claimer (after R) =
               q ++ [{| q_status := returned R; claimed_data_in_q := data |}] ∧
             (quiet_pass driver → q = data_queue_claimer g)).
Proof.
  destruct driver as [env|].
  - destruct (pass_outcome env g) as [H | (st & -> & Hrep & Hframe)]; [by left|].
    right. split; [by eapply report_inv_not_silent|].
    exists (data_queue_claimer (globals st)), (claimed_case_details_to_return st).
    split; [reflexivity|]. intros Hq. by apply frame_inv_globals, Hframe.
  - right. split; [apply (bool_decide_eq_false_1 _); vm_compute; reflexivity|].
    exists (data_queue_claimer g), None. by split.
Qed.

(** X7.  A pass reports to the observer exactly when its status is not
    one of [OK_BOTH_SLOTS_FULL], [DRIVER_DEAD_RESP_CHECK],
    [DRIVER_DEAD_ROW_FIND] and [ERROR_UNEXPECTED_FINDING_ROWS]: with one
    of these it returns having changed nothing and looked at no row, and
    with any other status the last message on the queue carries that
    status. *)
Theorem pass_report (driver : option pass_env) g :
  let R := find_and_claim_cases driver g in
  (returned R ∈ SILENT_STATUSES → after R = g ∧ steps R = []) ∧
  (returned R ∉ SILENT_STATUSES →
   ∃ data, last (data_queue_claimer (after R)) =
             Some {| q_status := returned R; claimed_data_in_q := data |}).
Proof.
  intros R.
  destruct (pass_outcome_report driver g) as [(Hs & H) | (Hs & q & data & Hq & _)];
    fold R in Hs |- *.
  - split; [done|]. intros Hn. by destruct Hn.
  - split; [intros H; by destruct Hs|]. intros _. exists data. fold R in Hq.
    rewrite Hq. apply last_snoc.
Qed.

Lemma pass_report_witness :
  let R := find_and_claim_cases (Some Samples.dead_session) Samples.started in
  returned R = "DRIVER_DEAD_ROW_FIND" ∧ after R = Samples.started ∧ steps R = [].
Proof.
  intros R. split; [reflexivity|].
  apply (pass_report (Some Samples.dead_session) Samples.started).
  apply (bool_decide_eq_true_1 _). vm_compute. reflexivity.
Defined.

(** X8.  When no observer action falls into it, a pass leaves both case
    stores, the stop flag, the monitoring flag and the status line as
    they were, and adds at most one message to the queue: none with a
    status of [SILENT_STATUSES], and otherwise one that carries the
    status returned. *)
Theorem pass_leaves_globals (driver : option pass_env) g :
  quiet_pass driver →
  let R := find_and_claim_cases driver g in
  active_portugal_case_store (after R) = active_portugal_case_store g ∧
  active_ghana_case_store (after R) = active_ghana_case_store g ∧
  stop_event_claimer (after R) = stop_event_claimer g ∧
  monitoring_active_flag (after R) = monitoring_active_flag g ∧
  claimer_status_message (after R) = claimer_status_message g ∧
  ∃ data, data_queue_claimer (after R) =
            data_queue_claimer g ++
            if bool_decide (returned R ∈ SILENT_STATUSES) then []
            else [{| q_status := returned R; claimed_data_in_q := data |}].
Proof.
  intros Hq R. subst R. destruct driver as [env|].
  - destruct (pass_outcome env g) as [(Hs & -> & _) | (st & -> & Hrep & Hframe)].
    + repeat split. exists None. rewrite bool_decide_eq_true_2 by done.
      by rewrite app_nil_r.
    + destruct (frame_inv_globals g st (Hframe Hq)) as (H1 & H2 & H3 & H4 & H5 & H6).
      cbn [finish_pass after returned put_nowait set_queue data_queue_claimer
           stop_event_claimer active_portugal_case_store active_ghana_case_store
           monitoring_active_flag claimer_status_message].
      repeat split; try done.
      exists (claimed_case_details_to_return st).
      rewrite bool_decide_eq_false_2 by (by eapply report_inv_not_silent).
      by rewrite H1.
  - repeat split. exists None. reflexivity.
Qed.

Lemma pass_leaves_globals_witness :
  let driver := Some (Samples.pass_of [Samples.visible_row Samples.portugal_row
                                         Samples.claimed_ok]) in
  let R := find_and_claim_cases driver Samples.started in
  active_portugal_case_store (after R) = ∅ ∧
  claimer_status_message (after R) = "Claimer: Starting...".
Proof.
  intros driver R.
  destruct (pass_leaves_globals driver Samples.started) as (H1 & _ & _ & _ & H5 & _).
  - repeat constructor.
  - fold R in H1, H5. rewrite H1, H5. split; reflexivity.
Defined.

(** X9.  When no observer action falls into it, all a pass does to the
    activity log is to append entries for colleagues' rows: each has an
    assigned user that is neither blank, nor "N/A", nor the bot, a
    status that reads inprogress, escalated or completed whatever the
    letter case, and no claim time, finish time or duration.  Where the
    log cannot be written the disk stays as it was. *)
Theorem pass_logs_colleagues_only (driver : option pass_env) g :
  quiet_pass driver →
  let R := find_and_claim_cases driver g in
  ∃ es, disk_state (after R) = append_all es (disk_state g) ∧
        Forall colleague_entry es ∧
        (ActivityLog.writable (disk_state g) = false →
         disk_state (after R) = disk_state g).
Proof.
  intros Hq R. subst R.
  assert (∃ es, disk_state (after (find_and_claim_cases driver g)) =
                  append_all es (disk_state g) ∧ Forall colleague_entry es)
    as (es & Hes & Hall).
  { destruct driver as [env|]; [|by exists []].
    destruct (pass_outcome env g) as [(Hs & -> & _) | (st & -> & Hrep & Hframe)];
      [by exists []|].
    destruct (Hframe Hq) as (_ & es & Hes & Hall). by exists es. }
  exists es. split; [exact Hes|]. split; [exact Hall|].
  intros Hw. rewrite Hes. by apply append_all_readonly.
Qed.

Lemma pass_logs_colleagues_only_witness :
  let driver := Some (Samples.pass_of [Samples.visible_row Samples.colleague_row
                                         Samples.claimed_ok]) in
  let R := find_and_claim_cases driver Samples.started in
  ∃ es, disk_state (after R) = append_all es (disk_state Samples.started) ∧
        Forall colleague_entry es.
Proof.
  intros driver R.
  destruct (pass_logs_colleagues_only driver Samples.started) as (es & H1 & H2 & _).
  - repeat constructor.
  - exact (ex_intro _ es (conj H1 H2)).
Defined.

(** *** The observer's poll after a pass *)

Lemma process_unclaimed_message status data s :
  status ∈ UNCLAIMED_STATUSES →
  Observer.process_message {| q_status := status; claimed_data_in_q := data |} s = s.
Proof.
  unfold UNCLAIMED_STATUSES. intros H. unfold Observer.process_message.
  cbn [q_status claimed_data_in_q].
  repeat (apply elem_of_cons in H as [-> | H]; [reflexivity|]).
  by apply elem_of_nil in H.
Qed.

Lemma process_claim_message slot d s :
  slot = "Portugal" ∨ slot = "Ghana" → snapshot_of slot d →
  Observer.process_message {| q_status := "CLAIM_SUCCESS_" +:+ upper slot;
                              claimed_data_in_q := Some d |} s =
    if String.eqb slot "Portugal" then set_portugal d s else set_ghana d s.
Proof.
  intros Hslot (Hcountry & _ & _ & Htruthy). unfold Observer.process_message.
  cbn [q_status claimed_data_in_q]. rewrite Htruthy, Hcountry.
  by destruct Hslot as [-> | ->].
Qed.

(** X10.  The poll that follows a pass.  With the queue empty before the
    pass and no observer action during it: after a pass that returned
    [CLAIM_SUCCESS_PORTUGAL] the poll finds the Portugal store, which
    was empty, filled with the snapshot of the claim, and leaves the
    Ghana store as it was, and likewise for Ghana; after a pass that
    returned anything else the poll leaves both stores as they were,
    also when a task was started during that pass. *)
Theorem poll_after_pass (env : pass_env) g :
  quiet_pass (Some env) → data_queue_claimer g = [] →
  let R := find_and_claim_cases (Some env) g in
  let s := Observer.update_active_cases_display (after R) in
  data_queue_claimer s = [] ∧
  (returned R = "CLAIM_SUCCESS_PORTUGAL" →
     active_portugal_case_store g = ∅ ∧
     snapshot_of "Portugal" (active_portugal_case_store s) ∧
     active_ghana_case_store s = active_ghana_case_store g) ∧
  (returned R = "CLAIM_SUCCESS_GHANA" →
     active_ghana_case_store g = ∅ ∧
     snapshot_of "Ghana" (active_ghana_case_store s) ∧
     active_portugal_case_store s = active_portugal_case_store g) ∧
  (returned R ≠ "CLAIM_SUCCESS_PORTUGAL" → returned R ≠ "CLAIM_SUCCESS_GHANA" →
     active_portugal_case_store s = active_portugal_case_store g ∧
     active_ghana_case_store s = active_ghana_case_store g).
Proof.
  intros Hq Hempty R s. subst s R.
  destruct (pass_outcome env g) as [(Hs & -> & _) | (st & -> & Hrep & Hframe)].
  { unfold Observer.update_active_cases_display. rewrite Hempty. cbn [foldl].
    split; [reflexivity|].
    assert (∀ x, x ∈ SILENT_STATUSES → x ≠ "CLAIM_SUCCESS_PORTUGAL" ∧
                                        x ≠ "CLAIM_SUCCESS_GHANA") as Hne.
    { unfold SILENT_STATUSES. intros x Hx.
      repeat (apply elem_of_cons in Hx as [-> | Hx]; [by split|]).
      by apply elem_of_nil in Hx. }
    destruct (Hne _ Hs) as [H1 H2].
    split; [intros E; by destruct H1|]. split; [intros E; by destruct H2|].
    intros _ _. by split. }
  destruct (frame_inv_globals g st (Hframe Hq)) as (H1 & _ & H3 & H4 & _).
  unfold Observer.update_active_cases_display.
  cbn [finish_pass after returned put_nowait set_queue data_queue_claimer].
  rewrite H1, Hempty. cbn [app foldl].
  set (s0 := set_queue [] _).
  assert (data_queue_claimer s0 = [] ∧
          active_portugal_case_store s0 = active_portugal_case_store g ∧
          active_ghana_case_store s0 = active_ghana_case_store g) as (Hq0 & Hpt0 & Hgh0).
  { subst s0. cbn. by rewrite H3, H4. }
  clearbody s0. unfold report_inv in Hrep.
  destruct (claimed_case_details_to_return st) as [d|].
  - destruct Hrep as (slot & Hfree & Hsnap & [-> | Hst]).
    + rewrite (process_claim_message slot d s0) by (destruct Hfree as [[? _]|[? _]]; auto)
        || idtac.
      destruct Hfree as [[-> Hpt] | [-> Hgh]]; cbn [String.eqb Ascii.eqb Bool.eqb].
      * apply dict_truthy_false in Hpt.
        split; [exact Hq0|]. split; [intros _; by split|].
        split; [intros E; discriminate E|]. intros Hne. by destruct Hne.
      * apply dict_truthy_false in Hgh.
        split; [exact Hq0|]. split; [intros E; discriminate E|].
        split; [intros _; by split|]. intros _ Hne. by destruct Hne.
    + assert (current_pass_status st ∈ UNCLAIMED_STATUSES) as Hun.
      { unfold UNCLAIMED_STATUSES. unfold DEAD_IN_ROW in Hst. set_solver. }
      rewrite (process_unclaimed_message _ _ s0 Hun).
      split; [exact Hq0|].
      assert (∀ x, x ∈ UNCLAIMED_STATUSES → x ≠ "CLAIM_SUCCESS_PORTUGAL" ∧
                                            x ≠ "CLAIM_SUCCESS_GHANA") as Hne.
      { unfold UNCLAIMED_STATUSES. intros x Hx.
        repeat (apply elem_of_cons in Hx as [-> | Hx]; [by split|]).
        by apply elem_of_nil in Hx. }
      destruct (Hne _ Hun) as [N1 N2].
      split; [intros E; by destruct N1|]. split; [intros E; by destruct N2|].
      intros _ _. by split.
  - rewrite (process_unclaimed_message _ _ s0 Hrep).
    split; [exact Hq0|].
    assert (∀ x, x ∈ UNCLAIMED_STATUSES → x ≠ "CLAIM_SUCCESS_PORTUGAL" ∧
                                          x ≠ "CLAIM_SUCCESS_GHANA") as Hne.
    { unfold UNCLAIMED_STATUSES. intros x Hx.
      repeat (apply elem_of_cons in Hx as [-> | Hx]; [by split|]).
      by apply elem_of_nil in Hx. }
    destruct (Hne _ Hrep) as [N1 N2].
    split; [intros E; by destruct N1|]. split; [intros E; by destruct N2|].
    intros _ _. by split.
Qed.

(** a task is started on the Portugal row and the session dies on the
    way back to the board: the pass reports [DRIVER_DEAD_CLAIM_PROC]
    and the poll leaves the Portugal store empty *)
Lemma poll_after_pass_witness :
  let env := Samples.pass_of
               [Samples.visible_row Samples.portugal_row
                  (ClaimStarted "2025-03-01 10:00:07" None
                                (Raise WebDriverException))] in
  let R := find_and_claim_cases (Some env) Samples.started in
  let s := Observer.update_active_cases_display (after R) in
  returned R = "DRIVER_DEAD_CLAIM_PROC" ∧
  last (steps R) = Some (ClaimSuccess 0 "Portugal" "T-1") ∧
  active_portugal_case_store s = ∅ ∧ active_ghana_case_store s = ∅.
Proof.
  intros env R s. split; [reflexivity|]. split; [reflexivity|].
  destruct (poll_after_pass env Samples.started) as (_ & _ & _ & H).
  - repeat constructor.
  - reflexivity.
  - apply H; discriminate.
Defined.

End PassTheorems.

(** ** The worker thread *)
Section WorkerFacts.
Import Py Shared Claimer Worker.

Implicit Types (g : shared) (msg r ts : string).

(** *** The status string *)

Definition FATAL_KEYWORDS : list string := ["ERROR"; "FAILED"; "CRITICAL"; "DEAD"].

(** a status that reports a fatal condition *)
Definition fatal (msg : string) : Prop := any_in FATAL_KEYWORDS (upper msg) = true.

Lemma fatal_cases msg :
  fatal msg →
  contains "ERROR" (upper msg) = true ∨ contains "FAILED" (upper msg) = true ∨
  contains "CRITICAL" (upper msg) = true ∨ contains "DEAD" (upper msg) = true.
Proof.
  unfold fatal, any_in, FATAL_KEYWORDS. cbn [existsb].
  rewrite orb_false_r. intros [H|[H|[H|H]%orb_prop]%orb_prop]%orb_prop; auto.
Qed.

Lemma fatal_guarded msg : fatal msg → any_in GUARD_KEYWORDS (upper msg) = true.
Proof.
  intros H%fatal_cases. unfold any_in, GUARD_KEYWORDS. cbn [existsb].
  destruct H as [-> | [-> | [-> | ->]]]; rewrite ?orb_true_r; reflexivity.
Qed.

Lemma fatal_stop_keywords msg : fatal msg → any_in STOP_KEYWORDS (upper msg) = true.
Proof.
  intros H%fatal_cases. unfold any_in, STOP_KEYWORDS. cbn [existsb].
  destruct H as [-> | [H | [-> | ->]]]; rewrite ?orb_true_r; try reflexivity.
  rewrite (contains_shorter "FAIL" "ED" _ H), ?orb_true_r. reflexivity.
Qed.

Lemma fatal_final_keywords msg : fatal msg → any_in FINAL_KEYWORDS (upper msg) = true.
Proof.
  intros H%fatal_cases. unfold any_in, FINAL_KEYWORDS. cbn [existsb].
  destruct H as [-> | [H | [-> | ->]]]; rewrite ?orb_true_r; try reflexivity.
  rewrite (contains_shorter "FAIL" "ED" _ H), ?orb_true_r. reflexivity.
Qed.

Lemma fatal_app msg t : fatal msg → fatal (msg +:+ t).
Proof. unfold fatal. rewrite upper_app. apply any_in_app_l. Qed.

Lemma fatal_app_r msg t : fatal t → fatal (msg +:+ t).
Proof. unfold fatal. rewrite upper_app. apply any_in_app_r. Qed.

Lemma guarded_status_fatal msg g :
  fatal (claimer_status_message g) → guarded_status msg g = g.
Proof. intros H. unfold guarded_status. by rewrite (fatal_guarded _ H). Qed.

Lemma after_loop_fatal g : fatal (claimer_status_message g) → after_loop g = g.
Proof.
  intros H. unfold after_loop. rewrite (fatal_stop_keywords _ H).
  by rewrite andb_false_r.
Qed.

Lemma final_status_fatal b msg :
  fatal msg →
  final_status b msg = msg ∨ final_status b msg = msg +:+ " Claimer shut down.".
Proof.
  intros H. unfold final_status, final_status_suffix.
  rewrite (fatal_final_keywords _ H).
  destruct b, (contains "shut down" (lower msg)); cbn [negb]; auto.
Qed.

Lemma critical_status_fatal r :
  fatal ("Claimer CRITICAL: Fatal issue detected (" +:+ r +:+ "). Forcing stop.").
Proof. apply fatal_app. reflexivity. Qed.

(** X12.  Once the status contains ERROR, FAILED, CRITICAL or DEAD (in
    any letter case), the guarded updates of the worker (checking for
    cases, slots full, no suitable case, stopped by user) leave it as
    it is, a fatal update of the worker replaces it by another such
    status, and the cleanup of the thread at most appends
    " Claimer shut down." to it.  One update of the worker is not
    guarded: the report of a claim (l.1558-1560) replaces the status,
    fatal or not, by "Claimer: Successfully processed claim for ...",
    which for the two statuses a claiming pass returns is not fatal. *)
Theorem fatal_status_kept_by_worker g :
  fatal (claimer_status_message g) →
  (∀ msg, guarded_status msg g = g) ∧
  (∀ r ts, r ∉ critical_statuses → contains "CLAIM_SUCCESS" r = false →
           handle_find_status r ts g = g) ∧
  (∀ ts, handle_find_status "STOPPED" ts g = g) ∧
  (∀ r ts, r ∉ critical_statuses → String.eqb r "STOPPED" = false →
           contains "CLAIM_SUCCESS" r = true →
           claimer_status_message (handle_find_status r ts g) =
             "Claimer: Successfully processed claim for " +:+ last_segment r +:+ ".") ∧
  (∀ r ts, r = "CLAIM_SUCCESS_PORTUGAL" ∨ r = "CLAIM_SUCCESS_GHANA" →
           ¬ fatal (claimer_status_message (handle_find_status r ts g))) ∧
  (∀ r ts, r ∈ critical_statuses →
           fatal (claimer_status_message (handle_find_status r ts g))) ∧
  after_loop g = g ∧
  (∀ name, fatal (claimer_status_message (thread_failed name g))) ∧
  (claimer_status_message (finally g) = claimer_status_message g ∨
   claimer_status_message (finally g) =
     claimer_status_message g +:+ " Claimer shut down.") ∧
  fatal (claimer_status_message (finally g)).
Proof.
  intros H.
  assert (claimer_status_message (finally g) = claimer_status_message g ∨
          claimer_status_message (finally g) =
            claimer_status_message g +:+ " Claimer shut down.") as Hfin.
  { unfold finally. cbn [claimer_status_message set_stop set_status set_monitoring
                         stop_event_claimer].
    by apply final_status_fatal. }
  split; [intros msg; by apply guarded_status_fatal|].
  split.
  { intros r ts Hr Hc. unfold handle_find_status.
    rewrite bool_decide_eq_false_2 by done. rewrite Hc.
    destruct (String.eqb r "STOPPED"); [done|].
    destruct (String.eqb r "OK_BOTH_SLOTS_FULL"); by apply guarded_status_fatal. }
  split; [reflexivity|].
  split.
  { intros r ts Hr Hs Hc. unfold handle_find_status.
    rewrite bool_decide_eq_false_2 by done. by rewrite Hs, Hc. }
  split.
  { intros r ts [-> | ->]; unfold fatal; vm_compute; discriminate. }
  split.
  { intros r ts Hr. unfold handle_find_status.
    rewrite bool_decide_eq_true_2 by done.
    cbn [claimer_status_message set_stop set_status]. apply critical_status_fatal. }
  split; [by apply after_loop_fatal|].
  split.
  { intros name. unfold thread_failed, put_nowait.
    cbn [claimer_status_message set_stop set_status set_queue].
    do 2 apply fatal_app_r. reflexivity. }
  split; [exact Hfin|].
  destruct Hfin as [-> | ->]; [exact H|by apply fatal_app].
Qed.

Lemma fatal_status_kept_by_worker_witness :
  let g := set_status "Claimer Login Check Failed (Other Error)." Samples.started in
  guarded_status "Claimer: Both PT & GH slots full. Waiting... (10:00:00)" g = g ∧
  claimer_status_message (handle_find_status "CLAIM_SUCCESS_GHANA" "10:00:00" g) =
    "Claimer: Successfully processed claim for GHANA." ∧
  after_loop g = g ∧
  (claimer_status_message (finally g) = claimer_status_message g ∨
   claimer_status_message (finally g) =
     claimer_status_message g +:+ " Claimer shut down.").
Proof.
  intros g.
  destruct (fatal_status_kept_by_worker g eq_refl)
    as (H1 & _ & _ & H4 & _ & _ & H7 & _ & H9 & _).
  split; [apply H1|]. split; [|split; [exact H7|exact H9]].
  rewrite (H4 "CLAIM_SUCCESS_GHANA" "10:00:00"); [reflexivity| |reflexivity|reflexivity].
  apply (bool_decide_eq_false_1 _). vm_compute. reflexivity.
Defined.

(** The updates that do not look at the status they replace: the report
    of a claim, and the observer's stop and start. *)
Lemma status_overwritten g r ts :
  r ∉ critical_statuses → String.eqb r "STOPPED" = false →
  contains "CLAIM_SUCCESS" r = true →
  claimer_status_message (handle_find_status r ts g) =
    "Claimer: Successfully processed claim for " +:+ last_segment r +:+ "." ∧
  (monitoring_active_flag g = true →
   claimer_status_message (Observer.toggle_monitoring (Some 1%nat) true g).1 =
     "Claimer: Stop requested... Awaiting thread termination.") ∧
  (monitoring_active_flag g = false →
   claimer_status_message (Observer.toggle_monitoring (Some 1%nat) true g).1 =
     "Claimer: Starting...").
Proof.
  intros Hr Hs Hc. split; [|split].
  - unfold handle_find_status. rewrite bool_decide_eq_false_2 by done.
    by rewrite Hs, Hc.
  - intros Hm. unfold Observer.toggle_monitoring. by rewrite Hm.
  - intros Hm. unfold Observer.toggle_monitoring. rewrite Hm. reflexivity.
Qed.

(** The session dies in the first pass and the worker records it.  If
    "Stop" is pressed before the thread cleans up, the status ends as the
    routine "stopped by user"; after an undisturbed shutdown, "Start"
    replaces the fatal status as well. *)
Lemma fatal_status_reverts :
  (claimer_status_message ∘ fst <$> run_body (Samples.fatal_run []) Samples.started
   = Some "Claimer CRITICAL: Fatal issue detected (DRIVER_DEAD_ROW_FIND). Forcing stop.") ∧
  (claimer_status_message ∘ final
     <$> run_claimer_loop (Samples.fatal_run [Observer.ClickToggle]) Samples.started
   = Some "Claimer: Monitoring stopped by user. Claimer shut down.") ∧
  ((fun out => claimer_status_message
                 (Observer.toggle_monitoring (Some 1%nat) true (final out)).1)
     <$> run_claimer_loop (Samples.fatal_run []) Samples.started
   = Some "Claimer: Starting...").
Proof. repeat split; vm_compute; reflexivity. Qed.

(** *** The sliced sleep *)

(** the globals after [j] slices of 0.05 s, slept from slice [k] on,
    whatever the flag *)
Fixpoint after_slices (j k : nat) (observer : nat → list Observer.action) g : shared :=
  match j with
  | O => g
  | S j' => after_slices j' (S k) observer (Observer.acts (observer k) g)
  end.

Lemma sleep_slices_stop n k observer g :
  stop_event_claimer g = true → sleep_slices n k observer g = (g, O).
Proof. intros H. destruct n; cbn; [done|]. by rewrite H. Qed.

(** the sleep ends at the first test that finds the flag set *)
Lemma sleep_slices_until n j k observer g :
  (j < n)%nat →
  (∀ i, (i ≤ j)%nat → stop_event_claimer (after_slices i k observer g) = false) →
  stop_event_claimer (after_slices (S j) k observer g) = true →
  sleep_slices n k observer g = (after_slices (S j) k observer g, S j).
Proof.
  revert j k g. induction n as [|n IH]; intros j k g Hlt Hclear Hset; [lia|].
  cbn [sleep_slices].
  assert (stop_event_claimer g = false) as -> by (apply (Hclear 0%nat); lia).
  destruct j as [|j].
  - cbn [after_slices] in *. by rewrite sleep_slices_stop.
  - rewrite (IH j (S k) (Observer.acts (observer k) g)); [done|lia| |done].
    intros i Hi. apply (Hclear (S i)). lia.
Qed.

Lemma sleep_slices_bound n k observer g : ((sleep_slices n k observer g).2 ≤ n)%nat.
Proof.
  revert k g. induction n as [|n IH]; intros k g; cbn [sleep_slices]; [done|].
  destruct (stop_event_claimer g); cbn; [lia|].
  specialize (IH (S k) (Observer.acts (observer k) g)).
  destruct (sleep_slices n (S k) observer (Observer.acts (observer k) g)). cbn in *. lia.
Qed.

(** X11.  The inter-cycle sleep is cut into slices of 0.05 s, each
    preceded by a test of the stop flag.  If the flag is not set when
    the sleep begins and becomes set while the worker sleeps in slice
    [j], the sleep ends with that slice: [j + 1] slices are slept, none
    is begun after the flag was set, and the loop is left; the remaining
    slices of the cycle budget are not slept. *)
Theorem stop_ends_sleep_within_one_slice (env : cycle_env) g (j : nat) :
  let g0 := Observer.acts (observer_after_pass env) (cycle_pass env g) in
  let n := wait_slices (loop_duration_ms env) in
  (j < n)%nat →
  (∀ i, (i ≤ j)%nat →
        stop_event_claimer (after_slices i 0 (observer_in_slice env) g0) = false) →
  stop_event_claimer (after_slices (S j) 0 (observer_in_slice env) g0) = true →
  cycle env g = (after_slices (S j) 0 (observer_in_slice env) g0, true, S j) ∧
  (S j ≤ n)%nat ∧
  ∀ rest, stop_event_claimer g = false →
          monitor (env :: rest) g =
            Some (after_slices (S j) 0 (observer_in_slice env) g0).
Proof.
  intros g0 n Hlt Hclear Hset.
  assert (cycle env g = (after_slices (S j) 0 (observer_in_slice env) g0, true, S j))
    as Hcycle.
  { unfold cycle. fold g0.
    assert (stop_event_claimer g0 = false) as -> by (apply (Hclear 0%nat); lia).
    fold n.
    rewrite (sleep_slices_until n j 0 _ g0 Hlt Hclear Hset). by rewrite Hset. }
  split; [exact Hcycle|]. split; [lia|].
  intros rest Hrun. cbn [monitor]. by rewrite Hrun, Hcycle.
Qed.

Lemma stop_ends_sleep_within_one_slice_witness :
  let env := Samples.claim_then_stop_cycle in
  let g := set_status "Claimer: Monitoring Active..." Samples.started in
  wait_slices (loop_duration_ms env) = 40%nat ∧
  (cycle env g).1.2 = true ∧ (cycle env g).2 = 4%nat.
Proof.
  intros env g. split; [reflexivity|].
  destruct (stop_ends_sleep_within_one_slice env g 3) as (-> & _ & _).
  - vm_compute. lia.
  - intros i Hi.
    assert (i = 0 ∨ i = 1 ∨ i = 2 ∨ i = 3)%nat as [-> | [-> | [-> | ->]]] by lia;
      vm_compute; reflexivity.
  - vm_compute. reflexivity.
  - split; reflexivity.
Defined.

End WorkerFacts.

(** ** The worker thread: how a run ends *)
Section WorkerRuns.
Import Py Shared Claimer Worker.

Implicit Types (g : shared) (msg : string) (env : worker_env) (c : cycle_env).

(** *** The cleanup *)

Lemma final_status_shut_down b msg :
  contains "shut down" (lower (final_status b msg)) = true.
Proof.
  assert (∀ m, contains "shut down" (lower (m +:+ final_status_suffix)) = true) as Happ.
  { intros m. rewrite lower_app. by apply contains_app_r. }
  unfold final_status.
  destruct (contains "shut down" (lower msg)) eqn:E;
    destruct b, (any_in FINAL_KEYWORDS (upper msg)),
             (contains "stopped by user" (lower msg));
    cbn [negb andb]; first [exact E | apply Happ].
Qed.

Lemma run_body_driver env g g1 driver :
  run_body env g = Some (g1, driver) →
  driver = (initialize_claimer_driver (init env)
              (set_status "Claimer: Initializing WebDriver..." g)).1.
Proof.
  unfold run_body.
  destruct (initialize_claimer_driver _ _) as [[|] g0]; [|by intros [= <- <-]].
  destruct (check_claimer_login_status _ _) as [[[|]|e] g2];
    [|by intros [= <- <-]..].
  destruct (monitor _ _); [by intros [= <- <-]|discriminate].
Qed.

(** X13.  However a run of the worker ends (start-up failure, stop
    request, fatal status or exception), the cleanup leaves the
    monitoring flag cleared, the stop flag set and a status line that
    says "shut down"; the browser is quit exactly when a driver had been
    obtained, and a driver is held exactly when the initialisation
    returned one. *)
Theorem worker_shutdown env g out :
  run_claimer_loop env g = Some out →
  monitoring_active_flag (final out) = false ∧
  stop_event_claimer (final out) = true ∧
  contains "shut down" (lower (claimer_status_message (final out))) = true ∧
  quit_called out = driver_held out ∧
  driver_held out =
    (initialize_claimer_driver (init env)
       (set_status "Claimer: Initializing WebDriver..." g)).1.
Proof.
  unfold run_claimer_loop.
  destruct (run_body env g) as [[g1 driver]|] eqn:E; [|discriminate].
  cbn [mbind option_bind]. intros [= <-].
  cbn [final quit_called driver_held finally monitoring_active_flag
       stop_event_claimer claimer_status_message set_stop set_status set_monitoring].
  split; [reflexivity|]. split; [reflexivity|].
  split; [apply final_status_shut_down|]. split; [reflexivity|].
  by eapply run_body_driver.
Qed.

Lemma worker_shutdown_witness :
  ∃ out, run_claimer_loop (Samples.fatal_run []) Samples.started = Some out ∧
         monitoring_active_flag (final out) = false ∧
         stop_event_claimer (final out) = true ∧
         quit_called out = true.
Proof.
  destruct (run_claimer_loop (Samples.fatal_run []) Samples.started) as [out|] eqn:E;
    [|vm_compute in E; discriminate E].
  exists out. split; [reflexivity|].
  destruct (worker_shutdown _ _ _ E) as (H1 & H2 & _ & H4 & H5).
  split; [exact H1|]. split; [exact H2|]. rewrite H4, H5. reflexivity.
Defined.

(** *** What the worker leaves to the observer: the case stores *)

(** the two case stores *)
Definition stores g : gmap string pyval * gmap string pyval :=
  (active_portugal_case_store g, active_ghana_case_store g).

(** no observer action falls into the cycle *)
Definition quiet_cycle_env c : Prop :=
  observer_at_start c = [] ∧ observer_after_pass c = [] ∧
  (∀ k, observer_in_slice c k = []) ∧ quiet_pass (Some (session c)).

Definition quiet_run env : Prop :=
  Forall quiet_cycle_env (cycles env) ∧ observer_before_cleanup env = [].

Lemma guarded_status_stores msg g : stores (guarded_status msg g) = stores g.
Proof. unfold guarded_status. by destruct (any_in _ _). Qed.

Lemma handle_find_status_stores r ts g : stores (handle_find_status r ts g) = stores g.
Proof.
  unfold handle_find_status. case_bool_decide; [reflexivity|].
  destruct (String.eqb r "STOPPED"); [reflexivity|].
  destruct (contains "CLAIM_SUCCESS" r); [reflexivity|].
  destruct (String.eqb r "OK_BOTH_SLOTS_FULL"); apply guarded_status_stores.
Qed.

Lemma pass_stores (driver : option pass_env) g :
  quiet_pass driver → stores (after (find_and_claim_cases driver g)) = stores g.
Proof.
  intros Hq. destruct driver as [penv|]; [|reflexivity].
  destruct (pass_outcome penv g) as [(_ & -> & _) | (st & -> & _ & Hframe)];
    [reflexivity|].
  destruct (frame_inv_globals g st (Hframe Hq)) as (_ & _ & H3 & H4 & _).
  unfold stores. cbn [finish_pass after put_nowait set_queue
                      active_portugal_case_store active_ghana_case_store].
  by rewrite H3, H4.
Qed.

Lemma cycle_pass_stores c g : quiet_cycle_env c → stores (cycle_pass c g) = stores g.
Proof.
  intros (H1 & _ & _ & H4). unfold cycle_pass. rewrite H1. cbn [Observer.acts foldl].
  destruct (_ || _); [|apply guarded_status_stores].
  rewrite handle_find_status_stores, (pass_stores _ _ H4).
  apply guarded_status_stores.
Qed.

Lemma sleep_slices_quiet n k observer g :
  (∀ i, observer i = []) → (sleep_slices n k observer g).1 = g.
Proof.
  intros Hq. revert k g. induction n as [|n IH]; intros k g; [reflexivity|].
  cbn [sleep_slices]. destruct (stop_event_claimer g); [reflexivity|].
  rewrite Hq. cbn [Observer.acts foldl]. specialize (IH (S k) g).
  destruct (sleep_slices n (S k) observer g). exact IH.
Qed.

Lemma cycle_stores c g : quiet_cycle_env c → stores (cycle c g).1.1 = stores g.
Proof.
  intros Hq. pose proof (cycle_pass_stores c g Hq) as Hpass.
  destruct Hq as (_ & H2 & H3 & _). unfold cycle. rewrite H2.
  cbn [Observer.acts foldl].
  destruct (stop_event_claimer (cycle_pass c g)); [exact Hpass|].
  pose proof (sleep_slices_quiet (wait_slices (loop_duration_ms c)) 0
                (observer_in_slice c) (cycle_pass c g) H3) as Hs.
  destruct (sleep_slices _ _ _ _) as [g' slept]. cbn [fst] in *. by subst g'.
Qed.

Lemma monitor_stores cs g g' :
  Forall quiet_cycle_env cs → monitor cs g = Some g' → stores g' = stores g.
Proof.
  intros Hq. revert g. induction Hq as [|c cs Hc Hcs IH]; intros g; cbn [monitor].
  - destruct (stop_event_claimer g); [by intros [= <-]|discriminate].
  - destruct (stop_event_claimer g); [by intros [= <-]|].
    pose proof (cycle_stores c g Hc) as Hcycle.
    destruct (cycle c g) as [[g1 [|]] slept]; cbn [fst] in Hcycle.
    + by intros [= <-].
    + intros H. by rewrite (IH _ H).
Qed.

Lemma initialize_stores (ienv : init_env) g :
  stores (initialize_claimer_driver ienv g).2 = stores g.
Proof.
  unfold initialize_claimer_driver, init_failed. destruct (_ || _); [reflexivity|].
  destruct (launch ienv) as [|e|e]; [reflexivity|..];
    by destruct (isinstance_WebDriverException e).
Qed.

Lemma login_stores (lenv : login_env) g :
  stores (check_claimer_login_status lenv g).2 = stores g.
Proof.
  assert (∀ e g, stores (login_failed e g) = stores g) as Hfail.
  { intros e g0. by destruct e. }
  unfold check_claimer_login_status.
  destruct (responsive lenv) as [u|e].
  2:{ by destruct (isinstance_WebDriverException e). }
  destruct (landing_url lenv) as [u'|e]; [|apply Hfail].
  destruct (negb _); [reflexivity|].
  destruct (app_indicator lenv); [reflexivity|apply Hfail].
Qed.

Lemma after_loop_stores g : stores (after_loop g) = stores g.
Proof. unfold after_loop. by destruct (_ && _). Qed.

Lemma run_body_stores env g g1 driver :
  Forall quiet_cycle_env (cycles env) →
  run_body env g = Some (g1, driver) → stores g1 = stores g.
Proof.
  intros Hq. unfold run_body.
  set (g0 := set_status _ g).
  pose proof (initialize_stores (init env) g0) as Hi.
  destruct (initialize_claimer_driver _ _) as [[|] gi]; cbn [snd] in Hi.
  2:{ intros [= <- <-]. transitivity (stores gi); [reflexivity|]. by rewrite Hi. }
  pose proof (login_stores (login env) gi) as Hl.
  destruct (check_claimer_login_status _ _) as [[[|]|e] gl]; cbn [snd] in Hl.
  - destruct (monitor _ _) as [gm|] eqn:Hm; [|discriminate].
    intros [= <- <-]. rewrite after_loop_stores.
    rewrite (monitor_stores _ _ _ Hq Hm).
    transitivity (stores gl); [reflexivity|]. by rewrite Hl, Hi.
  - intros [= <- <-]. transitivity (stores gl); [reflexivity|]. by rewrite Hl, Hi.
  - intros [= <- <-]. transitivity (stores gl); [reflexivity|]. by rewrite Hl, Hi.
Qed.

(** X14.  The worker never writes the case stores: when no observer
    action falls into a run, both stores hold at the end of the run,
    cleanup included, what they held at its start.  A shutdown does not
    release the cases; only the observer's poll, finish and start do. *)
Theorem worker_never_writes_slots env g out :
  quiet_run env → run_claimer_loop env g = Some out →
  active_portugal_case_store (final out) = active_portugal_case_store g ∧
  active_ghana_case_store (final out) = active_ghana_case_store g.
Proof.
  intros [Hq Hc]. unfold run_claimer_loop.
  destruct (run_body env g) as [[g1 driver]|] eqn:E; [|discriminate].
  cbn [mbind option_bind]. intros [= <-]. rewrite Hc.
  pose proof (run_body_stores env g g1 driver Hq E) as [= H1 H2].
  by split.
Qed.

Lemma worker_never_writes_slots_witness :
  ∃ out, run_claimer_loop (Samples.fatal_run []) Samples.started = Some out ∧
         active_portugal_case_store (final out) = ∅ ∧
         active_ghana_case_store (final out) = ∅.
Proof.
  destruct (run_claimer_loop (Samples.fatal_run []) Samples.started) as [out|] eqn:E;
    [|vm_compute in E; discriminate E].
  exists out. split; [reflexivity|].
  apply (worker_never_writes_slots (Samples.fatal_run []) Samples.started out);
    [|exact E].
  split; [|reflexivity]. constructor; [|constructor].
  split; [reflexivity|]. split; [reflexivity|]. split; [reflexivity|].
  constructor.
Defined.

End WorkerRuns.

Section WorkerFailures.
Import Py Shared Claimer Worker.

Implicit Types (g s : shared) (msg : string) (env : worker_env) (c : cycle_env).

(** *** A start-up that fails *)

Lemma set_status_same g : set_status (claimer_status_message g) g = g.
Proof. by destruct g. Qed.

Lemma initialize_sets_status_only (ienv : init_env) g :
  ∃ msg, (initialize_claimer_driver ienv g).2 = set_status msg g.
Proof.
  unfold initialize_claimer_driver, init_failed. destruct (_ || _); [by eexists|].
  destruct (launch ienv) as [|e|e];
    [exists (claimer_status_message g); by rewrite set_status_same|..];
    destruct (isinstance_WebDriverException e); by eexists.
Qed.

Lemma login_sets_status_only (lenv : login_env) g :
  ∃ msg, (check_claimer_login_status lenv g).2 = set_status msg g.
Proof.
  assert (∀ e, ∃ msg, login_failed e g = set_status msg g) as Hfail.
  { intros e. unfold login_failed.
    destruct e; cbn [isinstance_WebDriverException]; by eexists. }
  assert (∃ msg, g = set_status msg g) as Hsame.
  { exists (claimer_status_message g). by rewrite set_status_same. }
  unfold check_claimer_login_status.
  destruct (responsive lenv) as [u|e].
  2:{ destruct (isinstance_WebDriverException e); [by eexists|exact Hsame]. }
  destruct (landing_url lenv) as [u'|e]; [|apply Hfail].
  destruct (negb _); [by eexists|].
  destruct (app_indicator lenv); [exact Hsame|apply Hfail].
Qed.

Lemma initialize_failure_fatal (ienv : init_env) g :
  (initialize_claimer_driver ienv g).1 = false →
  fatal (claimer_status_message (initialize_claimer_driver ienv g).2).
Proof.
  unfold initialize_claimer_driver, init_failed.
  destruct (_ || _); [intros _; vm_compute; reflexivity|].
  destruct (launch ienv) as [|e|e]; [discriminate|..]; intros _;
    destruct (isinstance_WebDriverException e); vm_compute; reflexivity.
Qed.

Lemma login_failure_fatal (lenv : login_env) g :
  (check_claimer_login_status lenv g).1 = Ok false →
  fatal (claimer_status_message (check_claimer_login_status lenv g).2).
Proof.
  assert (∀ e, fatal (claimer_status_message (login_failed e g))) as Hfail.
  { intros e. unfold login_failed.
    destruct e; cbn [isinstance_WebDriverException]; vm_compute; reflexivity. }
  unfold check_claimer_login_status.
  destruct (responsive lenv) as [u|e].
  2:{ destruct (isinstance_WebDriverException e); [|discriminate].
      intros _. vm_compute. reflexivity. }
  destruct (landing_url lenv) as [u'|e]; [|intros _; apply Hfail].
  destruct (negb _).
  - intros _. cbn [snd claimer_status_message set_status].
    do 2 apply fatal_app_r. reflexivity.
  - destruct (app_indicator lenv); [discriminate|intros _; apply Hfail].
Qed.

Lemma finally_fatal g :
  fatal (claimer_status_message g) → fatal (claimer_status_message (finally g)).
Proof.
  intros H. unfold finally.
  cbn [claimer_status_message set_stop set_status set_monitoring stop_event_claimer].
  destruct (final_status_fatal (stop_event_claimer g) _ H) as [-> | ->];
    [exact H|by apply fatal_app].
Qed.

Lemma poll_clears_after (status : string) q s :
  status ∈ ["DRIVER_INIT_FAIL"; "LOGIN_FAIL"] →
  data_queue_claimer s = q ++ [{| q_status := status; claimed_data_in_q := None |}] →
  stores (Observer.update_active_cases_display s) = (∅, ∅).
Proof.
  intros Hs Hq. unfold Observer.update_active_cases_display.
  rewrite Hq, foldl_app. cbn [foldl].
  generalize (foldl (fun s0 m => Observer.process_message m s0) (set_queue [] s) q).
  intros s1.
  apply elem_of_cons in Hs as [-> | Hs]; [reflexivity|].
  apply list_elem_of_singleton in Hs as ->. reflexivity.
Qed.

(** X15.  A start-up that fails is reported and ends the run at once.
    When the driver cannot be initialised, or the login check answers
    no, the run ends without entering the loop; the queue has received
    [DRIVER_INIT_FAIL], respectively [LOGIN_FAIL]; the browser is quit
    only if a driver was obtained; the status line that remains reports
    a failure; and the observer's next poll empties both case stores. *)
Theorem failed_startup_reported env g :
  observer_before_cleanup env = [] →
  let started := initialize_claimer_driver (init env)
                   (set_status "Claimer: Initializing WebDriver..." g) in
  started.1 = false ∨
  (check_claimer_login_status (login env) started.2).1 = Ok false →
  ∃ out,
    run_claimer_loop env g = Some out ∧
    quit_called out = started.1 ∧
    data_queue_claimer (final out) =
      data_queue_claimer g ++
      [{| q_status := if started.1 then "LOGIN_FAIL" else "DRIVER_INIT_FAIL";
          claimed_data_in_q := None |}] ∧
    fatal (claimer_status_message (final out)) ∧
    active_portugal_case_store (Observer.update_active_cases_display (final out)) = ∅ ∧
    active_ghana_case_store (Observer.update_active_cases_display (final out)) = ∅.
Proof.
  intros Hc started Hfail. subst started.
  unfold run_claimer_loop, run_body. rewrite Hc.
  set (g0 := set_status "Claimer: Initializing WebDriver..." g) in *.
  pose proof (initialize_failure_fatal (init env) g0) as Hif.
  destruct (initialize_sets_status_only (init env) g0) as (m1 & Hi).
  destruct (initialize_claimer_driver (init env) g0) as [[|] gi];
    cbn [fst snd] in *; subst gi.
  - destruct Hfail as [Hfail | Hfail]; [discriminate|].
    pose proof (login_failure_fatal (login env) (set_status m1 g0) Hfail) as Hlf.
    destruct (login_sets_status_only (login env) (set_status m1 g0)) as (m2 & Hl).
    destruct (check_claimer_login_status _ _) as [r gl]; cbn [fst snd] in *.
    subst gl r. cbn [mbind option_bind Observer.acts foldl].
    eexists. split; [reflexivity|]. cbn [final quit_called].
    split; [reflexivity|]. split; [reflexivity|].
    split; [by apply finally_fatal|].
    match goal with |- context [Observer.update_active_cases_display ?s] =>
      assert (stores (Observer.update_active_cases_display s) = (∅, ∅)) as Hp
        by (apply (poll_clears_after "LOGIN_FAIL" (data_queue_claimer g));
            [set_solver|reflexivity]) end.
    unfold stores in Hp. injection Hp as H1 H2. by split.
  - cbn [mbind option_bind Observer.acts foldl].
    eexists. split; [reflexivity|]. cbn [final quit_called].
    split; [reflexivity|]. split; [reflexivity|].
    split; [by apply finally_fatal, Hif|].
    match goal with |- context [Observer.update_active_cases_display ?s] =>
      assert (stores (Observer.update_active_cases_display s) = (∅, ∅)) as Hp
        by (apply (poll_clears_after "DRIVER_INIT_FAIL" (data_queue_claimer g));
            [set_solver|reflexivity]) end.
    unfold stores in Hp. injection Hp as H1 H2. by split.
Qed.

Lemma failed_startup_reported_witness :
  let env := {| thread_name := "Thread-1";
                init := {| isdir := true;
                           launch := LaunchFails WebDriverException |};
                login := Samples.good_login; cycles := [];
                observer_before_cleanup := [] |} in
  ∃ out,
    run_claimer_loop env Samples.started = Some out ∧
    quit_called out = false ∧
    data_queue_claimer (final out) =
      [{| q_status := "DRIVER_INIT_FAIL"; claimed_data_in_q := None |}] ∧
    claimer_status_message (final out) =
      "Claimer WebDriver Initialization FAILED. Check logs. Claimer shut down.".
Proof.
  intros env.
  destruct (failed_startup_reported env Samples.started eq_refl (or_introl eq_refl))
    as (out & H1 & H2 & H3 & _).
  exists out. split; [exact H1|]. split; [exact H2|]. split; [exact H3|].
  vm_compute in H1. injection H1 as <-. reflexivity.
Defined.

(** *** A fatal pass *)

(** the pass of a cycle, as [cycle_pass] calls it *)
Definition cycle_find c g : pass_result :=
  let g := Observer.acts (observer_at_start c) g in
  let pt_slot_free_at_loop_start := negb (dict_truthy (active_portugal_case_store g)) in
  let gh_slot_free_at_loop_start := negb (dict_truthy (active_ghana_case_store g)) in
  find_and_claim_cases (Some (session c))
    (guarded_status
       ("Claimer: Checking for cases (PT free: "
        +:+ str_bool pt_slot_free_at_loop_start +:+ ", GH free: "
        +:+ str_bool gh_slot_free_at_loop_start +:+ ")... ("
        +:+ current_timestamp_hm c +:+ ")") g).

Lemma cycle_pass_find c g :
  active_portugal_case_store (Observer.acts (observer_at_start c) g) = ∅ ∨
  active_ghana_case_store (Observer.acts (observer_at_start c) g) = ∅ →
  cycle_pass c g =
    handle_find_status (returned (cycle_find c g)) (current_timestamp_hm c)
                       (after (cycle_find c g)).
Proof.
  intros Hfree. unfold cycle_pass, cycle_find.
  destruct Hfree as [H | H]; apply dict_truthy_false in H; rewrite H;
    cbn [negb orb]; rewrite ?orb_true_r; reflexivity.
Qed.

(** X16.  A fatal pass ends the loop in the same cycle.  When a slot is
    free, the pass of the cycle returns one of [critical_statuses] and
    the observer does nothing before the flag is tested, the worker
    records "Claimer CRITICAL: Fatal issue detected (...)", sets the
    stop flag itself and leaves the loop without sleeping and without
    another pass, whatever cycles would have followed. *)
Theorem fatal_pass_ends_loop c g (rest : list cycle_env) :
  stop_event_claimer g = false → observer_after_pass c = [] →
  active_portugal_case_store (Observer.acts (observer_at_start c) g) = ∅ ∨
  active_ghana_case_store (Observer.acts (observer_at_start c) g) = ∅ →
  returned (cycle_find c g) ∈ critical_statuses →
  monitor (c :: rest) g =
    Some (set_stop true
            (set_status ("Claimer CRITICAL: Fatal issue detected ("
                         +:+ returned (cycle_find c g) +:+ "). Forcing stop.")
                        (after (cycle_find c g)))) ∧
  (cycle c g).2 = 0%nat.
Proof.
  intros Hrun Hobs Hfree Hcrit.
  assert (cycle c g =
            (set_stop true
               (set_status ("Claimer CRITICAL: Fatal issue detected ("
                            +:+ returned (cycle_find c g) +:+ "). Forcing stop.")
                           (after (cycle_find c g))), true, 0%nat)) as Hcycle.
  { unfold cycle. rewrite Hobs, (cycle_pass_find c g Hfree).
    unfold handle_find_status. rewrite bool_decide_eq_true_2 by done.
    reflexivity. }
  split; [|by rewrite Hcycle]. cbn [monitor]. by rewrite Hrun, Hcycle.
Qed.

Lemma fatal_pass_ends_loop_witness :
  let c := Samples.quiet_cycle Samples.dead_session in
  let g := set_status "Claimer: Monitoring Active..." Samples.started in
  claimer_status_message <$> monitor [c; c; c] g =
    Some "Claimer CRITICAL: Fatal issue detected (DRIVER_DEAD_ROW_FIND). Forcing stop.".
Proof.
  intros c g.
  destruct (fatal_pass_ends_loop c g [c; c]) as [-> _].
  - reflexivity.
  - reflexivity.
  - by left.
  - apply (bool_decide_eq_true_1 _). vm_compute. reflexivity.
  - reflexivity.
Defined.

(** *** The pause between two passes *)

(** X17.  The pause between two passes is bounded: when the clock did
    not run backwards during the pass, the sleep is cut into at least 2
    and at most 140 slices of 0.05 s, so a cycle never sleeps longer
    than 7 s, however the stop flag behaves. *)
Theorem sleep_between_cycles_bounded c g :
  (0 ≤ loop_duration_ms c)%Z →
  (2 ≤ wait_slices (loop_duration_ms c) ≤ 140)%nat ∧ ((cycle c g).2 ≤ 140)%nat.
Proof.
  intros Hd.
  assert (2 ≤ wait_slices (loop_duration_ms c) ≤ 140)%nat as Hn.
  { unfold wait_slices.
    assert (2 ≤ Z.max 100 (7000 - loop_duration_ms c) / 50 ≤ 140)%Z as [H1 H2].
    { split.
      - apply Z.div_le_lower_bound; lia.
      - apply Z.div_le_upper_bound; lia. }
    lia. }
  split; [exact Hn|]. unfold cycle.
  destruct (stop_event_claimer _); [cbn; lia|].
  pose proof (sleep_slices_bound (wait_slices (loop_duration_ms c)) 0
                (observer_in_slice c)
                (Observer.acts (observer_after_pass c) (cycle_pass c g))) as Hb.
  destruct (sleep_slices _ _ _ _) as [g' slept]. cbn [snd] in *. lia.
Qed.

Lemma sleep_between_cycles_bounded_witness :
  (2 ≤ wait_slices 5000 ≤ 140)%nat.
Proof.
  apply (sleep_between_cycles_bounded
           (Samples.quiet_cycle Samples.dead_session) Samples.started).
  vm_compute. discriminate.
Defined.

End WorkerFailures.

(** ** The observer: finishing a case, polling, restarting *)
Section ObserverFacts.
Import Py ActivityLog Shared Observer.

Implicit Types (s g : shared) (d : gmap string pyval) (m : message)
               (clk : clock) (n : list (option nat)) (idx : string).

(** the store a finish button speaks of *)
Definition store_of_index idx s : gmap string pyval :=
  if String.eqb idx "pt" then active_portugal_case_store s
  else active_ghana_case_store s.

(** the other store *)
Definition store_beside_index idx s : gmap string pyval :=
  if String.eqb idx "pt" then active_ghana_case_store s
  else active_portugal_case_store s.

(** the globals a finish never touches *)
Definition engine_flags s : list message * bool * bool * string :=
  (data_queue_claimer s, stop_event_claimer s, monitoring_active_flag s,
   claimer_status_message s).

Lemma dict_truthy_true d : dict_truthy d = true ↔ d ≠ ∅.
Proof.
  unfold dict_truthy. rewrite negb_true_iff. apply bool_decide_eq_false.
Qed.

Lemma log_finished_case_frame clk d s :
  active_portugal_case_store (log_finished_case clk d s) = active_portugal_case_store s ∧
  active_ghana_case_store (log_finished_case clk d s) = active_ghana_case_store s ∧
  engine_flags (log_finished_case clk d s) = engine_flags s.
Proof.
  unfold log_finished_case.
  destruct (d !! "claimed_time") as [[| | |t|z|]|]; try done.
  - by destruct (truthy t).
  - by destruct (z =? 0)%Z.
Qed.

Lemma finish_case_callback_active idx n clk s :
  any_clicks n = true → idx = "pt" ∨ idx = "gh" → store_of_index idx s ≠ ∅ →
  finish_case_callback (Some idx) n clk s =
    log_finished_case clk (store_of_index idx s)
      (if String.eqb idx "pt" then set_portugal ∅ s else set_ghana ∅ s).
Proof.
  intros Hn Hidx Hd. unfold finish_case_callback. rewrite Hn. cbn [negb].
  apply dict_truthy_true in Hd.
  destruct Hidx as [-> | ->]; unfold store_of_index in *;
    cbn [String.eqb Ascii.eqb Bool.eqb andb] in *; by rewrite Hd.
Qed.

(** X18.  Finishing a case empties its own slot and nothing else: after
    the finish button of a country with an active case is pressed, that
    country's store is empty, the other store holds what it held, and
    the queue, the stop flag, the monitoring flag and the status line
    are untouched. *)
Theorem finish_case_frees_slot idx n clk s :
  any_clicks n = true → idx = "pt" ∨ idx = "gh" → store_of_index idx s ≠ ∅ →
  let s' := finish_case_callback (Some idx) n clk s in
  store_of_index idx s' = ∅ ∧
  store_beside_index idx s' = store_beside_index idx s ∧
  engine_flags s' = engine_flags s.
Proof.
  intros Hn Hidx Hd s'. subst s'.
  rewrite (finish_case_callback_active idx n clk s Hn Hidx Hd).
  destruct Hidx as [-> | ->]; unfold store_of_index, store_beside_index.
  - change (String.eqb "pt" "pt") with true. cbv iota.
    by destruct (log_finished_case_frame clk (active_portugal_case_store s)
                   (set_portugal ∅ s)) as (-> & -> & ->).
  - change (String.eqb "gh" "pt") with false. cbv iota.
    by destruct (log_finished_case_frame clk (active_ghana_case_store s)
                   (set_ghana ∅ s)) as (-> & -> & ->).
Qed.

Lemma finish_case_frees_slot_witness :
  let clk := {| today := "2025-03-01"; now_timestamp := "2025-03-01 11:00:00";
                elapsed_since := fun _ => Some 3600000000%Z |} in
  let s := set_ghana (<["display_id" := Str "T-2"]> ∅)
             (set_portugal (<["display_id" := Str "T-1"]> ∅) Samples.started) in
  let s' := finish_case_callback (Some "pt") [Some 1%nat] clk s in
  active_portugal_case_store s' = ∅ ∧
  active_ghana_case_store s' = <["display_id" := Str "T-2"]> ∅.
Proof.
  intros clk s s'.
  destruct (finish_case_frees_slot "pt" [Some 1%nat] clk s) as (H1 & H2 & _).
  - reflexivity.
  - by left.
  - apply dict_truthy_true. reflexivity.
  - split; [exact H1|exact H2].
Defined.

(** the duration a finish computes from the claim time of the snapshot *)
Definition finished_duration clk (claimed_time : string) : option Z :=
  if truthy claimed_time then elapsed_since clk claimed_time else None.

(** X19.  Finishing a case logs it.  When the active case carries its
    claim time as text, as every snapshot of a claim does, and the log
    can be written, the finish leaves a workbook that holds the rows
    read before and exactly one more row after them: the case's display
    id, country, account, title and link, the user "BOT_CLAIMED", the
    status "Completed", the claim time of the snapshot, and the duration
    since then, or no duration when the claim time does not parse. *)
Theorem finish_case_logged idx n clk s (claimed_time : string) :
  any_clicks n = true → idx = "pt" ∨ idx = "gh" →
  store_of_index idx s !! "claimed_time" = Some (Str claimed_time) →
  writable (disk_state s) = true →
  let s' := finish_case_callback (Some idx) n clk s in
  let e := finished_entry clk (store_of_index idx s)
             (finished_duration clk claimed_time) in
  disk_state s' =
    {| CASE_LOG_FILE :=
         Some (Workbook {| columns := LOG_COLUMNS_DEFINITION;
                           rows := rows (get_all (disk_state s)) ++
                                   [reindex LOG_COLUMNS_DEFINITION e] |});
       writable := true |} ∧
  e !! "Assigned User" = Some (Str "BOT_CLAIMED") ∧
  e !! "Status (Observed)" = Some (Str "Completed") ∧
  e !! "Claimed Timestamp" = Some (Str claimed_time) ∧
  e !! "Case Display ID" =
    Some (dict_get (store_of_index idx s) "display_id" (Str "N/A")) ∧
  e !! "Duration (seconds)" =
    Some (match finished_duration clk claimed_time with
          | Some z => Num z
          | None => NA
          end).
Proof.
  intros Hn Hidx Ht Hw s' e. subst s' e.
  assert (store_of_index idx s ≠ ∅) as Hd.
  { intros E. rewrite E in Ht. by rewrite lookup_empty in Ht. }
  rewrite (finish_case_callback_active idx n clk s Hn Hidx Hd).
  split.
  - unfold log_finished_case. rewrite Ht.
    assert (disk_state (if String.eqb idx "pt" then set_portugal ∅ s
                        else set_ghana ∅ s) = disk_state s) as Hdisk
      by (by destruct (String.eqb idx "pt")).
    assert (∀ dur,
              disk_state
                (set_disk
                   (append_to_case_log
                      (finished_entry clk (store_of_index idx s) dur)
                      (disk_state (if String.eqb idx "pt" then set_portugal ∅ s
                                   else set_ghana ∅ s))).2
                   (if String.eqb idx "pt" then set_portugal ∅ s else set_ghana ∅ s)) =
              log_with (rows (get_all (disk_state s)) ++
                        [reindex LOG_COLUMNS_DEFINITION
                           (finished_entry clk (store_of_index idx s) dur)])) as Happ.
    { intros dur. cbn [set_disk disk_state]. rewrite Hdisk.
      by rewrite (append_to_case_log_writable _ _ Hw). }
    unfold finished_duration.
    destruct (truthy claimed_time); rewrite Happ; reflexivity.
  - unfold finished_entry, dict_get. rewrite Ht.
    repeat split; vm_compute; reflexivity.
Qed.

Lemma finish_case_logged_witness :
  let clk := {| today := "2025-03-01"; now_timestamp := "2025-03-01 11:00:07";
                elapsed_since := fun _ => Some 3600000000%Z |} in
  let d : gmap string pyval :=
    <["display_id" := Str "T-2"]> (<["claimed_time" := Str "2025-03-01 10:00:07"]> ∅) in
  let s := set_ghana d Samples.started in
  let s' := finish_case_callback (Some "gh") [Some 1%nat] clk s in
  ∃ row, CASE_LOG_FILE (disk_state s') =
           Some (Workbook {| columns := LOG_COLUMNS_DEFINITION; rows := [row] |}) ∧
         row !! "Duration (seconds)" = Some (Num 3600000000).
Proof.
  intros clk d s s'.
  destruct (finish_case_logged "gh" [Some 1%nat] clk s "2025-03-01 10:00:07")
    as (H1 & _).
  - reflexivity.
  - by right.
  - reflexivity.
  - reflexivity.
  - fold s' in H1. rewrite H1. eexists. split; [reflexivity|].
    vm_compute. reflexivity.
Defined.

(** X20.  A finish changes the globals only when it has a case to
    finish: whenever [finish_case_callback] returns globals other than
    those it was given, a finish button was the trigger, some button had
    been clicked, and the button was that of Portugal or Ghana with the
    country's store not empty.  A finish for an empty slot, for another
    index, or without a click is a no-op. *)
Theorem finish_needs_active_case (triggered : option string) n clk s :
  finish_case_callback triggered n clk s ≠ s →
  ∃ idx, triggered = Some idx ∧ any_clicks n = true ∧
         (idx = "pt" ∨ idx = "gh") ∧ store_of_index idx s ≠ ∅.
Proof.
  unfold finish_case_callback. destruct triggered as [idx|]; [|done].
  destruct (any_clicks n); cbn [negb]; [|done].
  unfold store_of_index.
  destruct (String.eqb_spec idx "pt") as [-> | Hpt]; cbn [andb].
  - destruct (dict_truthy (active_portugal_case_store s)) eqn:E.
    + intros _. exists "pt". apply dict_truthy_true in E. auto.
    + cbn [String.eqb Ascii.eqb Bool.eqb andb]. done.
  - destruct (String.eqb_spec idx "gh") as [-> | Hgh]; cbn [andb]; [|done].
    destruct (dict_truthy (active_ghana_case_store s)) eqn:E; [|done].
    intros _. exists "gh". apply dict_truthy_true in E. auto.
Qed.

Lemma finish_needs_active_case_witness :
  let clk := {| today := "2025-03-01"; now_timestamp := "2025-03-01 11:00:00";
                elapsed_since := fun _ => None |} in
  let s := set_portugal (<["display_id" := Str "T-1"]> ∅) Samples.started in
  ∃ idx, Some "pt" = Some idx ∧ any_clicks [None; Some 2%nat] = true ∧
         (idx = "pt" ∨ idx = "gh") ∧ store_of_index idx s ≠ ∅.
Proof.
  intros clk s.
  apply (finish_needs_active_case (Some "pt") [None; Some 2%nat] clk s).
  intros E. apply (f_equal active_portugal_case_store) in E.
  vm_compute in E. discriminate E.
Defined.

(** *** The poll *)

Lemma process_message_queue m s :
  data_queue_claimer (process_message m s) = data_queue_claimer s.
Proof.
  unfold process_message.
  destruct (contains "CLAIM_SUCCESS" (q_status m) && _).
  - destruct (claimed_data_in_q m) as [d|]; [|done].
    destruct (d !! "country") as [[| | |country| |]|]; try done.
    destruct (String.eqb country "Portugal"); [done|].
    by destruct (String.eqb country "Ghana").
  - by case_bool_decide.
Qed.

Lemma process_messages_queue (q : list message) s :
  data_queue_claimer (foldl (fun s m => process_message m s) s q) =
  data_queue_claimer s.
Proof.
  revert s. induction q as [|m q IH]; intros s; [done|].
  cbn [foldl]. by rewrite IH, process_message_queue.
Qed.

(** X21.  The poll drains the queue and is idempotent: after
    [update_active_cases_display] the queue is empty whatever it held,
    and a second poll right after the first changes nothing, so a
    message is applied to the stores once. *)
Theorem poll_idempotent s :
  data_queue_claimer (update_active_cases_display s) = [] ∧
  update_active_cases_display (update_active_cases_display s) =
    update_active_cases_display s.
Proof.
  assert (data_queue_claimer (update_active_cases_display s) = []) as Hq.
  { unfold update_active_cases_display. by rewrite process_messages_queue. }
  split; [exact Hq|].
  generalize dependent (update_active_cases_display s). intros s1 Hq.
  unfold update_active_cases_display. rewrite Hq. cbn [foldl].
  destruct s1. cbn in Hq. by subst.
Qed.

End ObserverFacts.

Section Restart.
Import Py Shared Observer Worker.

(** X22.  After a run of the worker has ended, the toggle button starts
    again: the next click, with the profile directory in place, is taken
    as "Start", empties both case stores and the queue, clears the stop
    flag, sets the monitoring flag and launches a new worker; the log on
    disk is not touched. *)
Theorem button_starts_after_shutdown (env : worker_env) g out (k : nat) :
  run_claimer_loop env g = Some out →
  let r := toggle_monitoring (Some (S k)) true (final out) in
  r.2 = true ∧
  active_portugal_case_store r.1 = ∅ ∧ active_ghana_case_store r.1 = ∅ ∧
  data_queue_claimer r.1 = [] ∧ stop_event_claimer r.1 = false ∧
  monitoring_active_flag r.1 = true ∧
  claimer_status_message r.1 = "Claimer: Starting..." ∧
  disk_state r.1 = disk_state (final out).
Proof.
  unfold run_claimer_loop.
  destruct (run_body env g) as [[g1 driver]|]; [|discriminate].
  cbn [mbind option_bind]. intros [= <-]. cbn [final].
  unfold toggle_monitoring.
  cbn [finally monitoring_active_flag set_stop set_status set_monitoring].
  repeat split.
Qed.

Lemma button_starts_after_shutdown_witness :
  ∃ out, run_claimer_loop Samples.stopped_run Samples.started = Some out ∧
         (toggle_monitoring (Some 1%nat) true (final out)).2 = true ∧
         active_portugal_case_store
           (toggle_monitoring (Some 1%nat) true (final out)).1 = ∅.
Proof.
  destruct (run_claimer_loop Samples.stopped_run Samples.started) as [out|] eqn:E;
    [|vm_compute in E; discriminate E].
  exists out. split; [reflexivity|].
  destruct (button_starts_after_shutdown _ _ _ 0 E) as (H1 & H2 & _).
  split; [exact H1|exact H2].
Defined.

End Restart.

(** ** The engine as a whole: the sleep, the status line, the end of a
    run, and the finish button *)
Section SleepAndStop.
Import Py Shared Claimer Worker.

Implicit Types (g : shared) (env : cycle_env).

(** the sleep runs to its end while the flag stays clear *)
Lemma sleep_slices_full n k observer g :
  (∀ i, (i < n)%nat → stop_event_claimer (after_slices i k observer g) = false) →
  sleep_slices n k observer g = (after_slices n k observer g, n).
Proof.
  revert k g. induction n as [|n IH]; intros k g Hclear; [reflexivity|].
  cbn [sleep_slices after_slices].
  assert (stop_event_claimer g = false) as -> by (apply (Hclear 0%nat); lia).
  rewrite IH; [reflexivity|]. intros i Hi. apply (Hclear (S i)). lia.
Qed.

(** C7.  The sleep between two passes is made of [n] slices of 0.05 s,
    and the stop flag is tested before every slice and once more after
    the last.  If the flag becomes set while the worker sleeps in slice
    [j], the sleep ends with that slice: [j + 1] slices are slept, the
    rest of the [n] slices is not, nothing happens between the end of
    that slice and the exit, and the loop is left.  If the flag stays
    clear, all [n] slices are slept and the loop goes on with the next
    cycle. *)
Theorem stop_cuts_sleep_to_one_slice env g :
  let g0 := Observer.acts (observer_after_pass env) (cycle_pass env g) in
  let n := wait_slices (loop_duration_ms env) in
  let at_slice i := after_slices i 0 (observer_in_slice env) g0 in
  stop_event_claimer g = false →
  (∀ j, (j < n)%nat →
        (∀ i, (i ≤ j)%nat → stop_event_claimer (at_slice i) = false) →
        stop_event_claimer (at_slice (S j)) = true →
        cycle env g = (at_slice (S j), true, S j) ∧
        (S j ≤ n)%nat ∧
        ∀ rest, monitor (env :: rest) g = Some (at_slice (S j))) ∧
  ((∀ i, (i ≤ n)%nat → stop_event_claimer (at_slice i) = false) →
   cycle env g = (at_slice n, false, n) ∧
   ∀ rest, monitor (env :: rest) g = monitor rest (at_slice n)).
Proof.
  intros g0 n at_slice Hrun. split.
  - intros j Hlt Hclear Hset.
    assert (cycle env g = (at_slice (S j), true, S j)) as Hcycle.
    { unfold cycle. fold g0.
      assert (stop_event_claimer g0 = false) as -> by (apply (Hclear 0%nat); lia).
      fold n. rewrite (sleep_slices_until n j 0 _ g0 Hlt Hclear Hset).
      fold (at_slice (S j)). by rewrite Hset. }
    split; [exact Hcycle|]. split; [lia|].
    intros rest. cbn [monitor]. by rewrite Hrun, Hcycle.
  - intros Hclear.
    assert (cycle env g = (at_slice n, false, n)) as Hcycle.
    { unfold cycle. fold g0.
      assert (stop_event_claimer g0 = false) as -> by (apply (Hclear 0%nat); lia).
      fold n. rewrite (sleep_slices_full n 0 _ g0).
      - fold (at_slice n). by rewrite (Hclear n).
      - intros i Hi. apply Hclear. lia. }
    split; [exact Hcycle|].
    intros rest. cbn [monitor]. by rewrite Hrun, Hcycle.
Qed.

Lemma stop_cuts_sleep_to_one_slice_witness :
  let env := Samples.claim_then_stop_cycle in
  let g := set_status "Claimer: Monitoring Active..." Samples.started in
  wait_slices (loop_duration_ms env) = 40%nat ∧
  (cycle env g).1.2 = true ∧ (cycle env g).2 = 4%nat.
Proof.
  intros env g. split; [reflexivity|].
  destruct (stop_cuts_sleep_to_one_slice env g eq_refl) as [Hstop _].
  destruct (Hstop 3%nat) as (-> & _ & _).
  - vm_compute. lia.
  - intros i Hi.
    assert (i = 0 ∨ i = 1 ∨ i = 2 ∨ i = 3)%nat as [-> | [-> | [-> | ->]]] by lia;
      vm_compute; reflexivity.
  - vm_compute. reflexivity.
  - split; reflexivity.
Defined.

End SleepAndStop.

Section StatusLine.
Import Py Shared Claimer Worker Observer.

Implicit Types (g : shared).

(** C8, as the code has it.  Once the status contains ERROR, FAILED,
    CRITICAL or DEAD (in any letter case), the updates of the worker
    that test the status first (checking for cases, slots full, no
    suitable case, stopped by user) leave it as it is, a fatal update
    of the worker replaces it by another such status, and the cleanup
    of the thread at most appends " Claimer shut down." to it.  The
    buttons do not look at the status: "Stop" replaces it by
    "Claimer: Stop requested...", and "Start" by "Claimer:
    Starting...", neither of which reports a fatal condition. *)
Theorem fatal_status_until_button g :
  fatal (claimer_status_message g) →
  (∀ msg, guarded_status msg g = g) ∧
  (∀ ts, handle_find_status "OK_BOTH_SLOTS_FULL" ts g = g) ∧
  (∀ r ts, r ∉ critical_statuses → contains "CLAIM_SUCCESS" r = false →
           handle_find_status r ts g = g) ∧
  after_loop g = g ∧
  (∀ r ts, r ∈ critical_statuses →
           fatal (claimer_status_message (handle_find_status r ts g))) ∧
  (∀ name, fatal (claimer_status_message (thread_failed name g))) ∧
  (claimer_status_message (finally g) = claimer_status_message g ∨
   claimer_status_message (finally g) =
     claimer_status_message g +:+ " Claimer shut down.") ∧
  (∀ k isdir, monitoring_active_flag g = true →
     claimer_status_message (toggle_monitoring (Some (S k)) isdir g).1 =
       "Claimer: Stop requested... Awaiting thread termination.") ∧
  (∀ k, monitoring_active_flag g = false →
     claimer_status_message (toggle_monitoring (Some (S k)) true g).1 =
       "Claimer: Starting...") ∧
  ¬ fatal "Claimer: Stop requested... Awaiting thread termination." ∧
  ¬ fatal "Claimer: Starting...".
Proof.
  intros H.
  assert (∀ r ts, r ∉ critical_statuses → contains "CLAIM_SUCCESS" r = false →
                  handle_find_status r ts g = g) as Hroutine.
  { intros r ts Hr Hc. unfold handle_find_status.
    rewrite bool_decide_eq_false_2 by done. rewrite Hc.
    destruct (String.eqb r "STOPPED"); [done|].
    destruct (String.eqb r "OK_BOTH_SLOTS_FULL"); by apply guarded_status_fatal. }
  split; [intros msg; by apply guarded_status_fatal|].
  split.
  { intros ts. apply Hroutine; [|reflexivity].
    apply (bool_decide_eq_false_1 _). vm_compute. reflexivity. }
  split; [exact Hroutine|].
  split; [by apply after_loop_fatal|].
  split.
  { intros r ts Hr. unfold handle_find_status.
    rewrite bool_decide_eq_true_2 by done.
    cbn [claimer_status_message set_stop set_status]. apply critical_status_fatal. }
  split.
  { intros name. unfold thread_failed, put_nowait.
    cbn [claimer_status_message set_stop set_status set_queue].
    do 2 apply fatal_app_r. reflexivity. }
  split.
  { unfold finally. cbn [claimer_status_message set_stop set_status set_monitoring
                         stop_event_claimer].
    by apply final_status_fatal. }
  split; [intros k isdir Hm; unfold toggle_monitoring; by rewrite Hm|].
  split; [intros k Hm; unfold toggle_monitoring; rewrite Hm; reflexivity|].
  split; unfold fatal; vm_compute; discriminate.
Qed.

Lemma fatal_status_until_button_witness :
  let g := set_status "Claimer CRITICAL: Fatal issue detected (DRIVER_DEAD_ROW_FIND). Forcing stop."
             Samples.started in
  after_loop g = g ∧
  claimer_status_message (toggle_monitoring (Some 1%nat) true g).1 =
    "Claimer: Stop requested... Awaiting thread termination.".
Proof.
  intros g.
  destruct (fatal_status_until_button g eq_refl)
    as (_ & _ & _ & H4 & _ & _ & _ & H8 & _).
  split; [exact H4|]. apply H8. reflexivity.
Defined.

End StatusLine.

Section EndOfRun.
Import Py Shared Claimer Worker Observer.

Implicit Types (g : shared) (env : worker_env).

(** the message a failed start-up queues *)
Definition startup_failure (driver : bool) : message :=
  {| q_status := if driver then "LOGIN_FAIL" else "DRIVER_INIT_FAIL";
     claimed_data_in_q := None |}.

Lemma run_body_failed_startup env g :
  let started := initialize_claimer_driver (init env)
                   (set_status "Claimer: Initializing WebDriver..." g) in
  started.1 = false ∨
  (check_claimer_login_status (login env) started.2).1 = Ok false →
  ∃ msg, run_body env g =
           Some (set_monitoring false
                   (put_nowait (startup_failure started.1) (set_status msg g)),
                 started.1).
Proof.
  intros started Hfail. subst started. unfold run_body.
  set (g0 := set_status "Claimer: Initializing WebDriver..." g) in *.
  destruct (initialize_sets_status_only (init env) g0) as (m1 & Hi).
  destruct (initialize_claimer_driver (init env) g0) as [[|] gi];
    cbn [fst snd] in *; subst gi.
  - destruct Hfail as [Hfail | Hfail]; [discriminate|].
    destruct (login_sets_status_only (login env) (set_status m1 g0)) as (m2 & Hl).
    destruct (check_claimer_login_status _ _) as [r gl]; cbn [fst snd] in *.
    subst gl r. by exists m2.
  - by exists m1.
Qed.

(** C2, as the code has it.  However a run of the worker ends, the
    browser is quit exactly when the worker holds a driver, the
    monitoring flag is cleared, the stop flag is set and the status
    line says "shut down".  The worker never writes the case stores:
    when no observer action falls into the run, both stores hold at its
    end what they held at its start.  A start-up that fails queues
    [DRIVER_INIT_FAIL] or [LOGIN_FAIL] as the last message, and the
    observer's next poll then empties both stores. *)
Theorem worker_end_of_run env g out :
  run_claimer_loop env g = Some out →
  let started := initialize_claimer_driver (init env)
                   (set_status "Claimer: Initializing WebDriver..." g) in
  quit_called out = driver_held out ∧
  driver_held out = started.1 ∧
  monitoring_active_flag (final out) = false ∧
  stop_event_claimer (final out) = true ∧
  contains "shut down" (lower (claimer_status_message (final out))) = true ∧
  (quiet_run env → stores (final out) = stores g) ∧
  (observer_before_cleanup env = [] →
   started.1 = false ∨
   (check_claimer_login_status (login env) started.2).1 = Ok false →
   last (data_queue_claimer (final out)) = Some (startup_failure started.1) ∧
   stores (update_active_cases_display (final out)) = (∅, ∅)).
Proof.
  intros Hrun started. subst started. unfold run_claimer_loop in Hrun.
  destruct (run_body env g) as [[g1 driver]|] eqn:E; [|discriminate].
  cbn [mbind option_bind] in Hrun. injection Hrun as <-.
  cbn [final quit_called driver_held].
  split; [reflexivity|]. split; [by eapply run_body_driver|].
  split; [reflexivity|]. split; [reflexivity|].
  split.
  { unfold finally. cbn [claimer_status_message set_stop set_status set_monitoring].
    apply final_status_shut_down. }
  split.
  { intros [Hq Hc]. rewrite Hc. cbn [acts foldl].
    transitivity (stores g1); [reflexivity|]. by eapply run_body_stores. }
  intros Hc Hfail. rewrite Hc. cbn [acts foldl].
  destruct (run_body_failed_startup env g Hfail) as (msg & Hbody).
  rewrite E in Hbody. injection Hbody as -> Hd.
  assert (data_queue_claimer
            (finally (set_monitoring false
                        (put_nowait
                           (startup_failure
                              (initialize_claimer_driver (init env)
                                 (set_status "Claimer: Initializing WebDriver..." g)).1)
                           (set_status msg g)))) =
          data_queue_claimer g ++
          [startup_failure
             (initialize_claimer_driver (init env)
                (set_status "Claimer: Initializing WebDriver..." g)).1]) as Hq
    by reflexivity.
  split; [rewrite Hq; apply last_snoc|].
  destruct (initialize_claimer_driver (init env) _) as [[|] gi]; cbn [fst] in *.
  - apply (poll_clears_after "LOGIN_FAIL" (data_queue_claimer g)); [set_solver|exact Hq].
  - apply (poll_clears_after "DRIVER_INIT_FAIL" (data_queue_claimer g));
      [set_solver|exact Hq].
Qed.

Lemma worker_end_of_run_witness :
  ∃ out, run_claimer_loop (Samples.fatal_run []) Samples.started = Some out ∧
         quit_called out = true ∧
         monitoring_active_flag (final out) = false ∧
         stop_event_claimer (final out) = true ∧
         stores (final out) = (∅, ∅).
Proof.
  destruct (run_claimer_loop (Samples.fatal_run []) Samples.started) as [out|] eqn:E;
    [|vm_compute in E; discriminate E].
  exists out. split; [reflexivity|].
  destruct (worker_end_of_run _ _ _ E) as (H1 & H2 & H3 & H4 & _ & H6 & _).
  split; [rewrite H1, H2; reflexivity|]. split; [exact H3|]. split; [exact H4|].
  rewrite H6; [reflexivity|].
  split; [|reflexivity]. constructor; [|constructor].
  split; [reflexivity|]. split; [reflexivity|]. split; [reflexivity|].
  constructor.
Defined.

(** A run that claims the Portugal task and is then stopped by the
    user: the browser is quit, no message is left on the queue, and the
    Portugal store still holds the claimed case when the run has ended,
    also after the observer's next poll. *)
Lemma claim_survives_user_stop :
  let run := run_claimer_loop Samples.stopped_run Samples.started in
  quit_called <$> run = Some true ∧
  (fun out => claimer_status_message (final out)) <$> run =
    Some "Claimer: Monitoring stopped by user. Claimer shut down." ∧
  (fun out => q_status <$> data_queue_claimer (final out)) <$> run = Some [] ∧
  (fun out => active_portugal_case_store (final out) !! "display_id") <$> run =
    Some (Some (Str "T-1")) ∧
  (fun out => active_portugal_case_store (update_active_cases_display (final out))
                !! "display_id") <$> run = Some (Some (Str "T-1")).
Proof. repeat split; vm_compute; reflexivity. Qed.

End EndOfRun.

Section FinishButton.
Import Py ActivityLog Shared Observer.

Implicit Types (s : shared) (clk : clock) (n : list (option nat)) (idx : string).

Lemma finish_case_callback_idle idx n clk s :
  idx = "pt" ∨ idx = "gh" → store_of_index idx s = ∅ →
  finish_case_callback (Some idx) n clk s = s.
Proof.
  intros Hidx Hd. unfold finish_case_callback. destruct (any_clicks n); [|reflexivity].
  cbn [negb]. destruct Hidx as [-> | ->]; unfold store_of_index in Hd;
    cbn [String.eqb Ascii.eqb Bool.eqb andb] in *; by rewrite Hd.
Qed.

(** C10, as the code has it.  A finish for a category whose store is
    empty changes nothing.  A finish for a category with an active case
    empties that category's store and leaves the other store, the
    queue, the flags and the status line as they were.  When the case
    carries its claim time as text, as every snapshot of a claim does,
    the entry written for it has the status "Completed", the user
    "BOT_CLAIMED" and the case's display id; if the log can be written,
    the workbook afterwards holds the rows read before and this one
    entry after them, and if it cannot, the disk is left as it was and
    the case is not logged. *)
Theorem finish_case_frame idx n clk s :
  any_clicks n = true → idx = "pt" ∨ idx = "gh" →
  let s' := finish_case_callback (Some idx) n clk s in
  (store_of_index idx s = ∅ → s' = s) ∧
  (store_of_index idx s ≠ ∅ →
   store_of_index idx s' = ∅ ∧
   store_beside_index idx s' = store_beside_index idx s ∧
   engine_flags s' = engine_flags s ∧
   ∀ claimed_time : string,
     store_of_index idx s !! "claimed_time" = Some (Str claimed_time) →
     let e := finished_entry clk (store_of_index idx s)
                (finished_duration clk claimed_time) in
     e !! "Status (Observed)" = Some (Str "Completed") ∧
     e !! "Assigned User" = Some (Str "BOT_CLAIMED") ∧
     e !! "Case Display ID" =
       Some (dict_get (store_of_index idx s) "display_id" (Str "N/A")) ∧
     (writable (disk_state s) = true →
      disk_state s' =
        {| CASE_LOG_FILE :=
             Some (Workbook {| columns := LOG_COLUMNS_DEFINITION;
                               rows := rows (get_all (disk_state s)) ++
                                       [reindex LOG_COLUMNS_DEFINITION e] |});
           writable := true |}) ∧
     (writable (disk_state s) = false → disk_state s' = disk_state s)).
Proof.
  intros Hn Hidx s'. subst s'. split; [by apply finish_case_callback_idle|].
  intros Hd. rewrite (finish_case_callback_active idx n clk s Hn Hidx Hd).
  set (s0 := if String.eqb idx "pt" then set_portugal ∅ s else set_ghana ∅ s).
  assert (disk_state s0 = disk_state s) as Hdisk
    by (subst s0; by destruct (String.eqb idx "pt")).
  assert (store_of_index idx (log_finished_case clk (store_of_index idx s) s0) = ∅ ∧
          store_beside_index idx (log_finished_case clk (store_of_index idx s) s0) =
            store_beside_index idx s ∧
          engine_flags (log_finished_case clk (store_of_index idx s) s0) =
            engine_flags s) as (H1 & H2 & H3).
  { subst s0. destruct Hidx as [-> | ->]; unfold store_of_index, store_beside_index.
    - change (String.eqb "pt" "pt") with true. cbv iota.
      by destruct (log_finished_case_frame clk (active_portugal_case_store s)
                     (set_portugal ∅ s)) as (-> & -> & ->).
    - change (String.eqb "gh" "pt") with false. cbv iota.
      by destruct (log_finished_case_frame clk (active_ghana_case_store s)
                     (set_ghana ∅ s)) as (-> & -> & ->). }
  split; [exact H1|]. split; [exact H2|]. split; [exact H3|].
  intros claimed_time Ht e.
  assert (log_finished_case clk (store_of_index idx s) s0 =
          set_disk (append_to_case_log e (disk_state s0)).2 s0) as ->.
  { unfold log_finished_case. rewrite Ht. subst e. unfold finished_duration.
    by destruct (truthy claimed_time). }
  cbn [set_disk disk_state]. rewrite Hdisk.
  split; [subst e; unfold finished_entry; vm_compute; reflexivity|].
  split; [subst e; unfold finished_entry; vm_compute; reflexivity|].
  split.
  { subst e. unfold finished_entry, dict_get.
    destruct (store_of_index idx s !! "display_id"); vm_compute; reflexivity. }
  split.
  - intros Hw. by rewrite (append_to_case_log_writable e _ Hw).
  - intros Hw. apply (append_all_readonly [e] _ Hw).
Qed.

Lemma finish_case_frame_witness :
  let clk := {| today := "2025-03-01"; now_timestamp := "2025-03-01 11:00:07";
                elapsed_since := fun _ => Some 3600000000%Z |} in
  let s := set_ghana (<["display_id" := Str "T-2"]> ∅)
             (set_portugal (<["display_id" := Str "T-1"]>
                            (<["claimed_time" := Str "2025-03-01 10:00:07"]> ∅))
                           Samples.started) in
  let s' := finish_case_callback (Some "pt") [Some 1%nat] clk s in
  active_portugal_case_store s' = ∅ ∧
  active_ghana_case_store s' = <["display_id" := Str "T-2"]> ∅ ∧
  ∃ row, CASE_LOG_FILE (disk_state s') =
           Some (Workbook {| columns := LOG_COLUMNS_DEFINITION; rows := [row] |}).
Proof.
  intros clk s s'.
  destruct (finish_case_frame "pt" [Some 1%nat] clk s eq_refl (or_introl eq_refl))
    as [_ Hactive].
  destruct Hactive as (H1 & H2 & _ & Hlog).
  { apply dict_truthy_true. reflexivity. }
  split; [exact H1|]. split; [exact H2|].
  destruct (Hlog "2025-03-01 10:00:07" eq_refl) as (_ & _ & _ & Hw & _).
  fold s' in Hw. rewrite (Hw eq_refl). eexists. reflexivity.
Defined.

(** The finish of an active Portugal case when the log cannot be
    written: the store is emptied and nothing is logged. *)
Lemma finish_without_log_entry :
  let clk := {| today := "2025-03-01"; now_timestamp := "2025-03-01 11:00:07";
                elapsed_since := fun _ => Some 3600000000%Z |} in
  let d := {| CASE_LOG_FILE := Some (Workbook (empty_frame LOG_COLUMNS_DEFINITION));
              writable := false |} in
  let s := set_portugal (<["display_id" := Str "T-1"]>
                         (<["claimed_time" := Str "2025-03-01 10:00:07"]> ∅))
                        (initial d) in
  let s' := finish_case_callback (Some "pt") [Some 1%nat] clk s in
  active_portugal_case_store s ≠ ∅ ∧
  active_portugal_case_store s' = ∅ ∧
  disk_state s' = d ∧
  rows (get_all (disk_state s')) = [].
Proof.
  intros clk d s s'. split.
  - intros H. apply (f_equal (fun m => m !! "display_id")) in H. discriminate H.
  - repeat split; vm_compute; reflexivity.
Qed.

End FinishButton.

(** ** Leaderboard *)
Section ReportsFacts.
Import Py Reports.

Implicit Types (R P S : list lb_row) (r : lb_row) (c u : string)
               (scores : gmap string nat) (counted : gset string).

Lemma credited_to_nil c u : ¬ credited_to [] c u.
Proof. intros (P & r & S & H & _). by destruct P. Qed.

Lemma credited_to_snoc R r c u :
  credited_to (R ++ [r]) c u ↔
  credited_to R c u ∨
  (case_id r = c ∧ user r = u ∧ qualifies r ∧
   ∀ r', r' ∈ R → qualifies r' → case_id r' ≠ c).
Proof.
  split.
  - intros (P & r0 & S & HR & Hc & Hu & Hq & Hfirst).
    destruct S as [|x S _] using rev_ind.
    + apply app_inj_tail in HR as [-> ->]. right. eauto.
    + rewrite app_comm_cons, app_assoc in HR.
      apply app_inj_tail in HR as [-> ->]. left. by exists P, r0, S.
  - intros [(P & r0 & S & -> & Hc & Hu & Hq & Hfirst) | (Hc & Hu & Hq & Hfirst)].
    + exists P, r0, (S ++ [r]). by rewrite <- app_assoc.
    + by exists R, r, [].
Qed.

(** a case id has one creditor at most *)
Lemma credited_to_unique R c u u' :
  credited_to R c u → credited_to R c u' → u = u'.
Proof.
  induction R as [|r R IH] using rev_ind; [by intros ?%credited_to_nil|].
  rewrite !credited_to_snoc.
  intros [H1 | (Hc1 & Hu1 & Hq1 & Hf1)] [H2 | (Hc2 & Hu2 & Hq2 & Hf2)].
  - by apply IH.
  - destruct H1 as (P & r0 & S & -> & Hc & _ & Hq & _).
    exfalso. refine (Hf2 r0 _ Hq Hc). apply elem_of_app. right. by left.
  - destruct H2 as (P & r0 & S & -> & Hc & _ & Hq & _).
    exfalso. refine (Hf1 r0 _ Hq Hc). apply elem_of_app. right. by left.
  - congruence.
Qed.

Lemma credited_to_qualifies R c u :
  credited_to R c u → ∃ r, r ∈ R ∧ qualifies r ∧ case_id r = c ∧ user r = u.
Proof.
  intros (P & r & S & -> & Hc & Hu & Hq & _). exists r.
  split; [|done]. apply elem_of_app. right. by left.
Qed.

(** The state of either loop after the rows [R]. *)
Definition lb_inv R (st : gmap string nat * gset string) : Prop :=
  (∀ c, c ∈ st.2 ↔ ∃ r, r ∈ R ∧ qualifies r ∧ case_id r = c) ∧
  counts_credited R st.1.

Lemma lb_inv_nil : lb_inv [] (∅, ∅).
Proof.
  split.
  - intros c. split; [by intros ?%not_elem_of_empty|].
    intros (r & Hr & _). by apply elem_of_nil in Hr.
  - intros u. exists []. split; [constructor|]. split; [|apply lookup_empty].
    intros c. split; [by intros ?%elem_of_nil|by intros ?%credited_to_nil].
Qed.

Lemma qualifies_dec r :
  qualifies r ↔ skipped (user r) = false ∧ String.eqb (status r) "inprogress" = true.
Proof. unfold qualifies. by rewrite String.eqb_eq. Qed.

(** a row that adds nothing keeps the invariant *)
Lemma lb_inv_keep R r st :
  lb_inv R st →
  (qualifies r → case_id r ∈ st.2) →
  lb_inv (R ++ [r]) st.
Proof.
  intros [Hcnt Hsc] Hold. split.
  - intros c. rewrite Hcnt. split.
    + intros (r' & Hin & H). exists r'. split; [|done]. apply elem_of_app. by left.
    + intros (r' & [Hin|Hin%list_elem_of_singleton]%elem_of_app & Hq & Hc).
      * by exists r'.
      * subst r'. apply Hcnt. subst c. by apply Hold.
  - intros u. destruct (Hsc u) as (cs & Hnd & Hmem & Hlk). exists cs.
    split; [done|]. split; [|done]. intros c. rewrite Hmem, credited_to_snoc.
    split; [by left|]. intros [H | (Hc & _ & Hq & Hfirst)]; [done|].
    exfalso. apply Hold, Hcnt in Hq as (r' & Hin & Hq' & Hc').
    apply (Hfirst r' Hin Hq'). congruence.
Qed.

(** a qualifying row with a case id not counted yet is credited *)
Lemma lb_inv_count R r scores counted :
  lb_inv R (scores, counted) →
  qualifies r → case_id r ∉ counted →
  lb_inv (R ++ [r])
         (<[user r := (default 0 (scores !! user r) + 1)%nat]> scores,
          {[case_id r]} ∪ counted).
Proof.
  intros [Hcnt Hsc] Hq Hnew. cbn [fst snd] in *.
  assert (∀ r', r' ∈ R → qualifies r' → case_id r' ≠ case_id r) as Hfirst.
  { intros r' Hin Hq' Heq. apply Hnew, Hcnt. by exists r'. }
  split; cbn [fst snd].
  - intros c. rewrite elem_of_union, elem_of_singleton, Hcnt. split.
    + intros [-> | (r' & Hin & H)].
      * exists r. split; [|done]. apply elem_of_app. right. by left.
      * exists r'. split; [|done]. apply elem_of_app. by left.
    + intros (r' & [Hin|Hin%list_elem_of_singleton]%elem_of_app & Hq' & Hc).
      * right. by exists r'.
      * left. by subst.
  - intros u. destruct (Hsc u) as (cs & Hnd & Hmem & Hlk).
    destruct (decide (user r = u)) as [Hu|Hu].
    + exists (cs ++ [case_id r]). split; [|split].
      * apply NoDup_app. split; [done|]. split; [|apply NoDup_singleton].
        intros c Hc ->%list_elem_of_singleton.
        apply Hmem, credited_to_qualifies in Hc as (r' & Hin & Hq' & Hc' & _).
        by apply (Hfirst r' Hin Hq').
      * intros c. rewrite elem_of_app, list_elem_of_singleton, Hmem, credited_to_snoc.
        split; (intros [H|H]; [by left|right]).
        -- by subst c.
        -- by destruct H as [H _].
      * rewrite <- Hu, lookup_insert_eq. rewrite Hu, Hlk.
        rewrite length_app. cbn [length].
        destruct cs; cbn [default length app]; f_equal; lia.
    + exists cs. split; [done|]. split.
      * intros c. rewrite Hmem, credited_to_snoc. split; [by left|].
        intros [H|(_ & Hu' & _)]; [done|congruence].
      * by rewrite lookup_insert_ne.
Qed.

Lemma monthly_step_inv R r st :
  lb_inv R st → lb_inv (R ++ [r]) (monthly_step st r).
Proof.
  destruct st as [scores counted]. intros Hinv. unfold monthly_step.
  destruct (skipped (user r)) eqn:Hskip.
  { apply lb_inv_keep; [done|]. intros [Hq _]. congruence. }
  destruct (String.eqb (status r) "inprogress") eqn:Hst; cbn [andb].
  2:{ apply lb_inv_keep; [done|]. intros [_ Hq]. apply String.eqb_neq in Hst. done. }
  apply String.eqb_eq in Hst.
  destruct (bool_decide (case_id r ∈ counted)) eqn:Hin; cbn [negb].
  - apply bool_decide_eq_true in Hin. by apply lb_inv_keep.
  - apply bool_decide_eq_false in Hin. by apply lb_inv_count.
Qed.

Lemma monthly_loop_inv R : lb_inv R (foldl monthly_step (∅, ∅) R).
Proof.
  induction R as [|r R IH] using rev_ind; [apply lb_inv_nil|].
  rewrite foldl_app. by apply monthly_step_inv.
Qed.

(** the daily loop keeps the same scores and counted set as the monthly one *)
Lemma daily_monthly R st :
  ((foldl daily_step st R).1.1, (foldl daily_step st R).1.2) =
  foldl monthly_step (st.1.1, st.1.2) R.
Proof.
  revert st. induction R as [|r R IH]; intros [[sc cn] dt]; [done|].
  cbn [foldl]. rewrite IH. f_equal. unfold daily_step, monthly_step. cbn [fst snd].
  destruct (skipped (user r)); [done|].
  by destruct (String.eqb (status r) "inprogress" && negb (bool_decide (case_id r ∈ cn))).
Qed.

Lemma daily_loop_inv R :
  lb_inv R ((foldl daily_step (∅, ∅, ∅) R).1.1, (foldl daily_step (∅, ∅, ∅) R).1.2).
Proof. rewrite daily_monthly. apply monthly_loop_inv. Qed.

Lemma skipped_false u :
  skipped u = false →
  u ≠ "" ∧ lower u ≠ "n/a" ∧ contains (lower "BOT_CLAIMED") (lower u) = false.
Proof.
  unfold skipped, bot_user_id. destruct u as [|a u]; [done|]. cbn [truthy negb orb].
  destruct (String.eqb (lower (String a u)) "n/a") eqn:E1; [done|]. cbn [orb].
  apply String.eqb_neq in E1. intros ->%orb_false_elim%proj2. done.
Qed.

Section Leaderboard.
Variable repr : pyval → string.
Variable to_datetime : pyval → option (Z * Z * Z).
Variable sort_values : list lb_row → list lb_row.
Hypothesis sort_values_perm : ∀ l, Permutation (sort_values l) l.

(** a row of the log as the loops see it (l.2639-2641, l.2759-2761) *)
Definition seen (row : gmap string pyval) : lb_row :=
  {| case_id := astype_str repr (cell row "Case Display ID");
     status := lower (strip (astype_str repr (cell row "Status (Observed)")));
     user := strip (astype_str repr (cell row "Assigned User"));
     observed := cell row "Observed Timestamp" |}.

Definition on_day (selected : Z * Z * Z) (row : gmap string pyval) : Prop :=
  to_datetime (cell row "Date") = Some selected.

Definition in_month (selected_month selected_year : Z) (row : gmap string pyval) : Prop :=
  ∃ day, to_datetime (cell row "Date") = Some (selected_year, selected_month, day).

Lemma scored_owner_not_skipped R scores u :
  counts_credited R scores → is_Some (scores !! u) →
  ∃ r, r ∈ R ∧ qualifies r ∧ user r = u.
Proof.
  intros Hsc Hsome. destruct (Hsc u) as (cs & _ & Hmem & Hlk).
  destruct cs as [|c cs]; [rewrite Hlk in Hsome; by destruct Hsome|].
  assert (credited_to R c u) as H by (apply Hmem; by left).
  apply credited_to_qualifies in H as (r & Hin & Hq & _ & Hu). eauto.
Qed.

Lemma daily_rows_seen selected df r :
  r ∈ daily_rows repr to_datetime sort_values selected df ↔
  ∃ row, row ∈ ActivityLog.rows df ∧ on_day selected row ∧ r = seen row.
Proof.
  unfold daily_rows, filter_day.
  rewrite (sort_values_perm _), list_elem_of_fmap. split.
  - intros (row & -> & [Hday Hin]%list_elem_of_filter). by exists row.
  - intros (row & Hin & Hday & ->). exists row. split; [reflexivity|].
    by apply list_elem_of_filter.
Qed.

Lemma monthly_rows_seen selected_month selected_year df r :
  r ∈ monthly_rows repr to_datetime sort_values selected_month selected_year df ↔
  ∃ row, row ∈ ActivityLog.rows df ∧ in_month selected_month selected_year row ∧
         r = seen row.
Proof.
  unfold monthly_rows, filter_month, in_month.
  rewrite (sort_values_perm _), list_elem_of_fmap. split.
  - intros (row & -> & [Hm Hin]%list_elem_of_filter). exists row.
    split; [exact Hin|]. split; [|reflexivity].
    destruct (to_datetime (cell row "Date")) as [[[y m] dd]|]; [|discriminate].
    apply bool_decide_eq_true in Hm as [-> ->]. by exists dd.
  - intros (row & Hin & [dd Hday] & ->). exists row. split; [reflexivity|].
    apply list_elem_of_filter. split; [|exact Hin]. rewrite Hday.
    by apply bool_decide_eq_true.
Qed.

(** X27.  The counting rule of both leaderboards.  The loop of a day
    visits the rows of the log whose date is that day, the loop of a
    month those whose date falls in that month of that year, each row
    seen as its case id, its status trimmed and lowercased and its
    owner trimmed, all three taken as text.  A case id is credited once
    only, to the owner of the first row visited whose status is
    "inprogress" and whose owner is not skipped, and the leaderboard
    gives every owner the number of case ids credited to them.  An
    owner whose text is empty, "n/a" or contains "BOT_CLAIMED" (in any
    letter case) never scores; a missing owner is the text "nan" or
    "<NA>" at this point, which is not skipped. *)
Theorem leaderboard_credits_first_owner
    (selected : Z * Z * Z) (selected_month selected_year : Z)
    (df : ActivityLog.DataFrame) :
  let Rd := daily_rows repr to_datetime sort_values selected df in
  let Rm := monthly_rows repr to_datetime sort_values selected_month selected_year df in
  let day := user_scores_day repr to_datetime sort_values selected df in
  let month := user_scores_month repr to_datetime sort_values
                                 selected_month selected_year df in
  (∀ r, r ∈ Rd ↔ ∃ row, row ∈ ActivityLog.rows df ∧ on_day selected row ∧ r = seen row) ∧
  (∀ r, r ∈ Rm ↔ ∃ row, row ∈ ActivityLog.rows df ∧
                        in_month selected_month selected_year row ∧ r = seen row) ∧
  counts_credited Rd day ∧
  counts_credited Rm month ∧
  (∀ c u u', credited_to Rd c u → credited_to Rd c u' → u = u') ∧
  (∀ c u u', credited_to Rm c u → credited_to Rm c u' → u = u') ∧
  (∀ u, is_Some (day !! u) ∨ is_Some (month !! u) →
        u ≠ "" ∧ lower u ≠ "n/a" ∧ contains (lower "BOT_CLAIMED") (lower u) = false) ∧
  (∀ row, cell row "Assigned User" = NaN → user (seen row) = "nan") ∧
  (∀ row, cell row "Assigned User" = NA → user (seen row) = "<NA>") ∧
  skipped "nan" = false ∧ skipped "<NA>" = false.
Proof.
  intros Rd Rm day month.
  assert (counts_credited Rd day) as Hd by apply (daily_loop_inv Rd).
  assert (counts_credited Rm month) as Hm by apply (monthly_loop_inv Rm).
  split; [intros r; apply daily_rows_seen|].
  split; [intros r; apply monthly_rows_seen|].
  split; [exact Hd|]. split; [exact Hm|].
  split; [intros c u u'; apply credited_to_unique|].
  split; [intros c u u'; apply credited_to_unique|].
  split.
  { intros u [Hsome|Hsome].
    - destruct (scored_owner_not_skipped _ _ _ Hd Hsome) as (r & _ & [Hsk _] & Hu).
      subst u. by apply skipped_false.
    - destruct (scored_owner_not_skipped _ _ _ Hm Hsome) as (r & _ & [Hsk _] & Hu).
      subst u. by apply skipped_false. }
  split; [intros row Hrow; unfold seen; cbn [user]; rewrite Hrow; reflexivity|].
  split; [intros row Hrow; unfold seen; cbn [user]; rewrite Hrow; reflexivity|].
  split; vm_compute; reflexivity.
Qed.

End Leaderboard.

Lemma leaderboard_credits_first_owner_witness :
  let Rd := daily_rows Samples.repr Samples.to_datetime id (2025, 3, 1)%Z
                       Samples.march_log in
  let day := user_scores_day Samples.repr Samples.to_datetime id (2025, 3, 1)%Z
                             Samples.march_log in
  counts_credited Rd day ∧
  (∀ u, is_Some (day !! u) →
        u ≠ "" ∧ lower u ≠ "n/a" ∧ contains (lower "BOT_CLAIMED") (lower u) = false).
Proof.
  intros Rd day.
  pose proof (leaderboard_credits_first_owner Samples.repr Samples.to_datetime
                id (fun l => Permutation_refl l) (2025, 3, 1)%Z 3%Z 2025%Z
                Samples.march_log) as (_ & _ & Hd & _ & _ & _ & Hex & _).
  split; [exact Hd|]. intros u Hu. apply Hex. by left.
Defined.

(** on the sample log: T-1 goes to alice (first in-progress row), the
    second sighting of T-1 by bob and the bot's own row score nothing,
    T-2 goes to bob *)
Example march_first_scores :
  user_scores_day Samples.repr Samples.to_datetime id (2025, 3, 1)%Z
                  Samples.march_log
  = <["alice@x.org" := 1%nat]> (<["bob@x.org" := 1%nat]> ∅).
Proof. vm_compute. reflexivity. Qed.

(** C9 on the code.  A log whose row for T-3 names no owner: the text
    "n/a" in the workbook, which [read_excel] returns as NaN, or a
    workbook without the column "Assigned User", which
    [get_case_log_df] fills with [pd.NA].  [astype(str)] turns the
    missing owner into the text "nan" or "<NA>", the tests of l.2657
    and l.2777 let it pass, and both leaderboards credit T-3 to it. *)
Example missing_owner_scores :
  let row := <["Date" := Str "2025-03-01"]> (<["Case Display ID" := Str "T-3"]>
             (<["Status (Observed)" := Str "InProgress"]> ∅)) in
  let with_text : ActivityLog.disk :=
    {| ActivityLog.CASE_LOG_FILE :=
         Some (ActivityLog.Workbook
                 {| ActivityLog.columns := ActivityLog.LOG_COLUMNS_DEFINITION;
                    ActivityLog.rows := [ <["Assigned User" := Str "n/a"]> row ] |});
       ActivityLog.writable := true |} in
  let without_column : ActivityLog.disk :=
    {| ActivityLog.CASE_LOG_FILE :=
         Some (ActivityLog.Workbook
                 {| ActivityLog.columns :=
                      ["Date"; "Case Display ID"; "Status (Observed)"];
                    ActivityLog.rows := [row] |});
       ActivityLog.writable := true |} in
  user_scores_day Samples.repr Samples.to_datetime id (2025, 3, 1)%Z
                  (ActivityLog.get_all with_text) = {["nan" := 1%nat]} ∧
  user_scores_month Samples.repr Samples.to_datetime id 3%Z 2025%Z
                    (ActivityLog.get_all with_text) = {["nan" := 1%nat]} ∧
  user_scores_day Samples.repr Samples.to_datetime id (2025, 3, 1)%Z
                  (ActivityLog.get_all without_column) = {["<NA>" := 1%nat]} ∧
  user_scores_month Samples.repr Samples.to_datetime id 3%Z 2025%Z
                    (ActivityLog.get_all without_column) = {["<NA>" := 1%nat]}.
Proof. repeat split; vm_compute; reflexivity. Qed.

End ReportsFacts.

(** ** Reports: the drill-down store of the daily leaderboard *)
Section LeaderboardDetails.
Import Py Reports.

Implicit Types (R : list lb_row) (r : lb_row) (u c : string)
               (scores : gmap string nat) (counted : gset string)
               (details : gmap string (list string)).

(** how [daily_leaderboard_details_for_store] goes with the scores and
    with the set of counted case ids *)
Definition details_inv
    (st : gmap string nat * gset string * gmap string (list string)) : Prop :=
  (∀ u, st.1.1 !! u = length <$> st.2 !! u) ∧
  (∀ u l, st.2 !! u = Some l → l ≠ [] ∧ NoDup l ∧ ∀ c, c ∈ l → c ∈ st.1.2) ∧
  (∀ u u' l l' c, st.2 !! u = Some l → st.2 !! u' = Some l' →
                  c ∈ l → c ∈ l' → u = u').

Lemma details_inv_nil : details_inv (∅, ∅, ∅).
Proof.
  split; [|split].
  - intros u. cbn. by rewrite !lookup_empty.
  - intros u l. cbn. by rewrite lookup_empty.
  - intros u u' l l' c. cbn. by rewrite lookup_empty.
Qed.

Lemma daily_step_details st r : details_inv st → details_inv (daily_step st r).
Proof.
  destruct st as [[scores counted] details]. intros Hinv.
  pose proof Hinv as (Hscore & Hlist & Hdisj).
  cbn [fst snd] in Hscore, Hlist, Hdisj. unfold daily_step.
  destruct (skipped (user r)); [exact Hinv|].
  destruct (String.eqb (status r) "inprogress"); cbn [andb]; [|exact Hinv].
  case_bool_decide as Hc; cbn [negb]; [exact Hinv|]. clear Hinv.
  assert (∀ l, details !! user r = Some l → case_id r ∉ l) as Hfresh.
  { intros l Hl Hin. destruct (Hlist _ _ Hl) as (_ & _ & Hsub). by apply Hc, Hsub. }
  split; [|split]; cbn [fst snd].
  - intros u. destruct (decide (user r = u)) as [<- | Hne].
    + rewrite !lookup_insert_eq, Hscore. cbn.
      destruct (details !! user r) as [l|]; cbn; rewrite ?length_app; cbn; f_equal; lia.
    + by rewrite !lookup_insert_ne.
  - intros u l. destruct (decide (user r = u)) as [<- | Hne].
    + rewrite lookup_insert_eq. intros [= <-].
      split; [by destruct (default [] (details !! user r))|].
      destruct (details !! user r) as [l|] eqn:El; cbn [default].
      * destruct (Hlist _ _ El) as (_ & Hnd & Hsub). split.
        -- apply NoDup_app. split; [exact Hnd|]. split.
           ++ intros x Hx ->%list_elem_of_singleton. by apply (Hfresh l).
           ++ apply NoDup_singleton.
        -- intros c [Hin | ->%list_elem_of_singleton]%elem_of_app; set_solver.
      * split; [apply NoDup_singleton|].
        intros c [Hin | ->%list_elem_of_singleton]%elem_of_app; set_solver.
    + rewrite lookup_insert_ne by done. intros Hl.
      destruct (Hlist _ _ Hl) as (H1 & H2 & H3). repeat split; [done..|].
      intros c Hin. set_solver.
  - assert (∀ u l c, u ≠ user r → details !! u = Some l → c ∈ l →
                     c ∈ default [] (details !! user r) ++ [case_id r] → False)
      as Hother.
    { intros u l c Hne Hl Hin [Hin' | ->%list_elem_of_singleton]%elem_of_app.
      - destruct (details !! user r) as [l'|] eqn:El; cbn in Hin';
          [|by apply elem_of_nil in Hin'].
        apply Hne. by eapply Hdisj.
      - destruct (Hlist _ _ Hl) as (_ & _ & Hsub). by apply Hc, Hsub. }
    intros u u' l l' c.
    destruct (decide (user r = u)) as [<- | Hne];
      destruct (decide (user r = u')) as [<- | Hne']; [done|..].
    + rewrite lookup_insert_eq, lookup_insert_ne by done.
      intros [= <-] Hl' Hin Hin'. by destruct (Hother u' l' c).
    + rewrite lookup_insert_ne, lookup_insert_eq by done.
      intros Hl [= <-] Hin Hin'. by destruct (Hother u l c).
    + rewrite !lookup_insert_ne by done. apply Hdisj.
Qed.

(** X24.  The drill-down store of the daily leaderboard agrees with the
    scores: whatever rows the daily loop runs over, a user has a list of
    case ids in [daily_leaderboard_details_for_store] exactly when the
    user has a score, the score is the length of that list, no case id
    occurs twice in a list or in the lists of two users, and every
    listed case id is one of the counted ones. *)
Theorem daily_details_match_scores R :
  let st := foldl daily_step (∅, ∅, ∅) R in
  (∀ u, st.1.1 !! u = length <$> st.2 !! u) ∧
  (∀ u l, st.2 !! u = Some l → l ≠ [] ∧ NoDup l ∧ ∀ c, c ∈ l → c ∈ st.1.2) ∧
  (∀ u u' l l' c, st.2 !! u = Some l → st.2 !! u' = Some l' →
                  c ∈ l → c ∈ l' → u = u').
Proof.
  intros st. subst st. change (details_inv (foldl daily_step (∅, ∅, ∅) R)).
  induction R as [|r R IH] using rev_ind; [apply details_inv_nil|].
  rewrite foldl_app. cbn [foldl]. by apply daily_step_details.
Qed.

Lemma daily_details_match_scores_witness :
  let R := Reports.normalise Samples.repr <$> ActivityLog.rows Samples.march_log in
  let st := foldl daily_step (∅, ∅, ∅) R in
  st.2 !! "bob@x.org" = Some ["T-2"] ∧ st.1.1 !! "bob@x.org" = Some 1%nat.
Proof.
  intros R st. assert (st.2 !! "bob@x.org" = Some ["T-2"]) as H
    by (vm_compute; reflexivity).
  split; [exact H|].
  destruct (daily_details_match_scores R) as (Hs & _). fold st in Hs.
  by rewrite Hs, H.
Defined.

End LeaderboardDetails.
